(** * Flashcard decks: ownership-scoped queries, server actions and the
      study session, embedded from the TypeScript sources.

    Layout of the development:
    - [decksTable], [cardsTable], [Database]: the two tables of
      [src/db/schema.ts] with their identity columns and the cascading
      foreign key from cards to decks;
    - the query layer of [src/db/queries/deck-queries.ts] and
      [card-queries.ts], as functions on a [Database];
    - the server actions (deck, card and AI generation actions), in a small
      state-and-exception monad that records which query functions ran;
    - the [FlashcardStudy] component state and its handlers.

    Numbers are [Z], identifiers of users are strings, timestamps are
    milliseconds as [Z].  The query functions give what a statement selects
    or writes for ids the [integer()] columns can hold; [Pg] gives the same
    calls as the driver runs them, which throw for an id outside that
    range.  Other failures of the database engine (connectivity, the width
    of the text columns) are outside the model, except in the batch insert,
    whose description is about them. *)

From Stdlib Require Import ZArith List String Ascii Bool Lia Permutation Sorted.
Import ListNotations.
Local Open Scope string_scope.
Local Open Scope list_scope.
Local Open Scope Z_scope.

(** ** What a JavaScript call can do: return or throw *)

(** The two classes of exception the actions discriminate with
    [instanceof]: a [z.ZodError] carrying its issue messages, and any other
    [Error] with its message (a [TypeError] is an [Error]). *)
Inductive Thrown : Type :=
| ZodError (issues : list string)
| Error (message : string).

Inductive Completion (A : Type) : Type :=
| Return (a : A)
| Throw (e : Thrown).
Arguments Return {A} a.
Arguments Throw {A} e.

(** ** Schema: [src/db/schema.ts] *)

Module decksTable.
Record row : Type := mk {
  id : Z;
  userId : string;
  name : string;
  description : option string;
  createdAt : Z;
  updatedAt : Z
}.
End decksTable.

Module cardsTable.
Record row : Type := mk {
  id : Z;
  deckId : Z;
  front : string;
  back : string;
  createdAt : Z;
  updatedAt : Z
}.
End cardsTable.

(** The database: the rows of both tables and the next value of each
    [generatedAlwaysAsIdentity] column. *)
Record Database : Type := mkDatabase {
  decks : list decksTable.row;
  cards : list cardsTable.row;
  decks_identity : Z;
  cards_identity : Z
}.

Module db.

(** [db.select().from(decksTable).where(w)] *)
Definition select_decks (w : decksTable.row -> bool) (d : Database)
  : list decksTable.row :=
  filter w (decks d).

(** [db.select().from(cardsTable).where(w)] *)
Definition select_cards (w : cardsTable.row -> bool) (d : Database)
  : list cardsTable.row :=
  filter w (cards d).

(** [cardsTable LEFT JOIN decksTable ON on]: every card paired with each
    matching deck, or with no deck when none matches. *)
Definition leftJoin (on : cardsTable.row -> decksTable.row -> bool)
           (d : Database) : list (cardsTable.row * option decksTable.row) :=
  flat_map
    (fun c =>
       match filter (on c) (decks d) with
       | [] => [(c, None)]
       | ms => map (fun k => (c, Some k)) ms
       end)
    (cards d).

(** [ORDER BY updatedAt DESC] on cards, by insertion. *)
Fixpoint insert_desc (c : cardsTable.row) (l : list cardsTable.row)
  : list cardsTable.row :=
  match l with
  | [] => [c]
  | x :: r =>
      if cardsTable.updatedAt x <? cardsTable.updatedAt c
      then c :: x :: r
      else x :: insert_desc c r
  end.

Definition orderBy_desc_updatedAt (l : list cardsTable.row)
  : list cardsTable.row :=
  fold_right insert_desc [] l.

(** [db.insert(decksTable).values({userId, name, description}).returning()]:
    the identity column and both [defaultNow()] columns are filled in by
    the store. *)
Definition insert_deck (now : Z) (userId name : string)
           (description : option string) (d : Database)
  : decksTable.row * Database :=
  let r := decksTable.mk (decks_identity d) userId name description now now in
  (r, mkDatabase (decks d ++ [r]) (cards d)
                 (decks_identity d + 1) (cards_identity d)).

(** The rows a bulk insert of [(front, back)] pairs into deck [deckId]
    creates, numbered from [next]. *)
Fixpoint card_rows (now deckId next : Z) (vs : list (string * string))
  : list cardsTable.row :=
  match vs with
  | [] => []
  | (f, b) :: r =>
      cardsTable.mk next deckId f b now now
        :: card_rows now deckId (next + 1) r
  end.

(** [db.insert(cardsTable).values(vs).returning()]: one statement, all
    rows at once. *)
Definition insert_cards (now deckId : Z) (vs : list (string * string))
           (d : Database) : list cardsTable.row * Database :=
  let rs := card_rows now deckId (cards_identity d) vs in
  (rs, mkDatabase (decks d) (cards d ++ rs) (decks_identity d)
                  (cards_identity d + Z.of_nat (List.length vs))).

(** [db.update(decksTable).set({name, description, updatedAt}).where(w)
      .returning()].  A column whose value is [undefined] in [set] is left
    out of the statement, so an absent description keeps the stored one. *)
Definition set_deck (name : string) (description : option string)
           (updatedAt : Z) (r : decksTable.row) : decksTable.row :=
  decksTable.mk (decksTable.id r) (decksTable.userId r) name
    (match description with
     | Some t => Some t
     | None => decksTable.description r
     end)
    (decksTable.createdAt r) updatedAt.

Definition update_decks (w : decksTable.row -> bool)
           (set : decksTable.row -> decksTable.row) (d : Database)
  : list decksTable.row * Database :=
  (map set (filter w (decks d)),
   mkDatabase (map (fun r => if w r then set r else r) (decks d))
              (cards d) (decks_identity d) (cards_identity d)).

(** [db.update(cardsTable).set({front, back, updatedAt}).where(w)
      .returning()] *)
Definition set_card (front back : string) (updatedAt : Z)
           (r : cardsTable.row) : cardsTable.row :=
  cardsTable.mk (cardsTable.id r) (cardsTable.deckId r) front back
                (cardsTable.createdAt r) updatedAt.

Definition update_cards (w : cardsTable.row -> bool)
           (set : cardsTable.row -> cardsTable.row) (d : Database)
  : list cardsTable.row * Database :=
  (map set (filter w (cards d)),
   mkDatabase (decks d)
              (map (fun r => if w r then set r else r) (cards d))
              (decks_identity d) (cards_identity d)).

(** [db.delete(cardsTable).where(w)] *)
Definition delete_cards (w : cardsTable.row -> bool) (d : Database)
  : Database :=
  mkDatabase (decks d) (filter (fun c => negb (w c)) (cards d))
             (decks_identity d) (cards_identity d).

(** [db.delete(decksTable).where(w)].  The schema declares
    [deckId ... references(() => decksTable.id, { onDelete: "cascade" })],
    so the statement also removes every card that references a removed
    deck. *)
Definition references_removed (removed : list decksTable.row)
           (c : cardsTable.row) : bool :=
  existsb (fun k => decksTable.id k =? cardsTable.deckId c) removed.

Definition delete_decks (w : decksTable.row -> bool) (d : Database)
  : Database :=
  let removed := filter w (decks d) in
  mkDatabase (filter (fun k => negb (w k)) (decks d))
             (filter (fun c => negb (references_removed removed c)) (cards d))
             (decks_identity d) (cards_identity d).

End db.

(** ** [src/db/queries/deck-queries.ts] *)

Definition not_found_deck : string := "Deck not found or unauthorized".
Definition not_found_card : string := "Card not found or unauthorized".

Definition getUserDecks (d : Database) (userId : string)
  : list decksTable.row :=
  db.select_decks (fun k => decksTable.userId k =? userId)%string d.

(** [select count( * ) ... where userId = ?]; the aggregate always yields one
    row, so the [?? 0] fallback is never taken. *)
Definition getUserDeckCount (d : Database) (userId : string) : Z :=
  Z.of_nat (List.length (getUserDecks d userId)).

(** [const [deck] = await db.select()...; return deck || null]: the result
    of the call for a [deckId] the [id] column can hold; [Pg.getDeckById] is
    the call for every number. *)
Definition getDeckById (d : Database) (deckId : Z) (userId : string)
  : option decksTable.row :=
  match db.select_decks
          (fun k => (decksTable.id k =? deckId)
                    && (decksTable.userId k =? userId)%string) d with
  | deck :: _ => Some deck
  | [] => None
  end.

Definition getDeckCards (d : Database) (deckId : Z) (userId : string)
  : option (list cardsTable.row) :=
  match getDeckById d deckId userId with
  | None => None
  | Some _ =>
      Some (db.orderBy_desc_updatedAt
              (db.select_cards (fun c => cardsTable.deckId c =? deckId) d))
  end.

Record DeckFields : Type := mkDeckFields {
  data_name : string;
  data_description : option string
}.

Definition createDeckForUser (now : Z) (d : Database) (userId : string)
           (data : DeckFields) : decksTable.row * Database :=
  db.insert_deck now userId (data_name data) (data_description data) d.

(** [const [updated] = ...returning(); return updated]: the result is the
    first returned row, [undefined] (here [None]) when the statement touched
    no row. *)
Definition updateDeckForUser (now : Z) (d : Database) (deckId : Z)
           (userId : string) (data : DeckFields)
  : Completion (option decksTable.row) * Database :=
  match getDeckById d deckId userId with
  | None => (Throw (Error not_found_deck), d)
  | Some _ =>
      let '(returned, d') :=
        db.update_decks (fun k => decksTable.id k =? deckId)
          (db.set_deck (data_name data) (data_description data) now) d in
      (Return (hd_error returned), d')
  end.

Definition deleteDeckForUser (d : Database) (deckId : Z) (userId : string)
  : Completion unit * Database :=
  match getDeckById d deckId userId with
  | None => (Throw (Error not_found_deck), d)
  | Some _ =>
      (Return tt, db.delete_decks (fun k => decksTable.id k =? deckId) d)
  end.

(** ** [src/db/queries/card-queries.ts] *)

(** [result[0]?.card || null] over the join filtered by card id and by the
    owner of the joined deck; a card joined with no deck has a null owner and
    fails the filter. *)
Definition owned_by (userId : string) (k : option decksTable.row) : bool :=
  match k with
  | Some deck => (decksTable.userId deck =? userId)%string
  | None => false
  end.

Definition cards_with_decks (d : Database)
  : list (cardsTable.row * option decksTable.row) :=
  db.leftJoin (fun c k => cardsTable.deckId c =? decksTable.id k) d.

Definition getCardById (d : Database) (cardId : Z) (userId : string)
  : option cardsTable.row :=
  match filter (fun r => (cardsTable.id (fst r) =? cardId)
                         && owned_by userId (snd r))
               (cards_with_decks d) with
  | r :: _ => Some (fst r)
  | [] => None
  end.

(** [result.map(r => ({ ...r.card, deckName: r.deck?.name }))] *)
Definition getAllUserCards (d : Database) (userId : string)
  : list (cardsTable.row * option string) :=
  map (fun r => (fst r, option_map decksTable.name (snd r)))
      (filter (fun r => owned_by userId (snd r)) (cards_with_decks d)).

Record CardFields : Type := mkCardFields {
  data_front : string;
  data_back : string
}.

Definition createCardForDeck (now : Z) (d : Database) (deckId : Z)
           (userId : string) (data : CardFields)
  : Completion (option cardsTable.row) * Database :=
  match getDeckById d deckId userId with
  | None => (Throw (Error not_found_deck), d)
  | Some _ =>
      let '(returned, d') :=
        db.insert_cards now deckId [(data_front data, data_back data)] d in
      (Return (hd_error returned), d')
  end.

Definition updateCardForUser (now : Z) (d : Database) (cardId : Z)
           (userId : string) (data : CardFields)
  : Completion (option cardsTable.row) * Database :=
  match getCardById d cardId userId with
  | None => (Throw (Error not_found_card), d)
  | Some _ =>
      let '(returned, d') :=
        db.update_cards (fun c => cardsTable.id c =? cardId)
          (db.set_card (data_front data) (data_back data) now) d in
      (Return (hd_error returned), d')
  end.

(** Resolves to [undefined]: the function has no [return]. *)
Definition deleteCardForUser (d : Database) (cardId : Z) (userId : string)
  : Completion unit * Database :=
  match getCardById d cardId userId with
  | None => (Throw (Error not_found_card), d)
  | Some _ =>
      (Return tt, db.delete_cards (fun c => cardsTable.id c =? cardId) d)
  end.

Definition deleteAllCardsInDeck (d : Database) (deckId : Z) (userId : string)
  : Completion unit * Database :=
  match getDeckById d deckId userId with
  | None => (Throw (Error not_found_deck), d)
  | Some _ =>
      (Return tt, db.delete_cards (fun c => cardsTable.deckId c =? deckId) d)
  end.

(** ** The calls as the driver runs them

    Both [id] columns are [integer()], 32 bits wide.  Every query function
    above that takes an id starts with a [select] whose [where] clause
    compares the id with such a column ([getDeckById] or [getCardById]);
    the driver binds the number as a parameter of that type, and for a
    number outside the type's range the database refuses the statement: the
    call throws the driver's error before any row is read or written. *)

Definition int4 (n : Z) : bool :=
  (-2147483648 <=? n) && (n <=? 2147483647).

(** The failing statement: the wording of the driver's error depends on it
    and on its parameters. *)
Inductive Select : Type :=
| deck_by_id
| card_by_id.

Module Pg.

Section Calls.

(** The driver's message for a refused statement. *)
Variable failed_query : Select -> Z -> string -> string.

Definition refuse {A : Type} (s : Select) (id : Z) (userId : string)
  : Completion A :=
  Throw (Error (failed_query s id userId)).

Definition getDeckById (d : Database) (deckId : Z) (userId : string)
  : Completion (option decksTable.row) :=
  if int4 deckId then Return (getDeckById d deckId userId)
  else refuse deck_by_id deckId userId.

Definition getDeckCards (d : Database) (deckId : Z) (userId : string)
  : Completion (option (list cardsTable.row)) :=
  if int4 deckId then Return (getDeckCards d deckId userId)
  else refuse deck_by_id deckId userId.

Definition getCardById (d : Database) (cardId : Z) (userId : string)
  : Completion (option cardsTable.row) :=
  if int4 cardId then Return (getCardById d cardId userId)
  else refuse card_by_id cardId userId.

Definition updateDeckForUser (now : Z) (d : Database) (deckId : Z)
           (userId : string) (data : DeckFields)
  : Completion (option decksTable.row) * Database :=
  if int4 deckId then updateDeckForUser now d deckId userId data
  else (refuse deck_by_id deckId userId, d).

Definition deleteDeckForUser (d : Database) (deckId : Z) (userId : string)
  : Completion unit * Database :=
  if int4 deckId then deleteDeckForUser d deckId userId
  else (refuse deck_by_id deckId userId, d).

Definition createCardForDeck (now : Z) (d : Database) (deckId : Z)
           (userId : string) (data : CardFields)
  : Completion (option cardsTable.row) * Database :=
  if int4 deckId then createCardForDeck now d deckId userId data
  else (refuse deck_by_id deckId userId, d).

Definition updateCardForUser (now : Z) (d : Database) (cardId : Z)
           (userId : string) (data : CardFields)
  : Completion (option cardsTable.row) * Database :=
  if int4 cardId then updateCardForUser now d cardId userId data
  else (refuse card_by_id cardId userId, d).

Definition deleteCardForUser (d : Database) (cardId : Z) (userId : string)
  : Completion unit * Database :=
  if int4 cardId then deleteCardForUser d cardId userId
  else (refuse card_by_id cardId userId, d).

Definition deleteAllCardsInDeck (d : Database) (deckId : Z)
           (userId : string) : Completion unit * Database :=
  if int4 deckId then deleteAllCardsInDeck d deckId userId
  else (refuse deck_by_id deckId userId, d).

End Calls.

End Pg.

(** ** Zod schemas

    A schema for a string or a number is the list of its checks, in the
    order the builder calls add them; each check yields the message of its
    issue when it fails.  [.length] of a string is its number of
    characters. *)

Definition ZodSchema (A : Type) : Type := list (A -> option string).

Definition issues {A : Type} (schema : ZodSchema A) (a : A) : list string :=
  flat_map (fun check => match check a with Some m => [m] | None => [] end)
           schema.

Module z.

Definition string : ZodSchema String.string := [].

Definition min (n : nat) (message : String.string)
           (s : ZodSchema String.string) : ZodSchema String.string :=
  s ++ [fun t => if (String.length t <? n)%nat then Some message else None].

Definition max (n : nat) (message : String.string)
           (s : ZodSchema String.string) : ZodSchema String.string :=
  s ++ [fun t => if (n <? String.length t)%nat then Some message else None].

Definition number : ZodSchema Z := [].

Definition positive (message : String.string) (s : ZodSchema Z)
  : ZodSchema Z :=
  s ++ [fun n => if 0 <? n then None else Some message].

Definition number_min (k : Z) (message : String.string) (s : ZodSchema Z)
  : ZodSchema Z :=
  s ++ [fun n => if n <? k then Some message else None].

Definition number_max (k : Z) (message : String.string) (s : ZodSchema Z)
  : ZodSchema Z :=
  s ++ [fun n => if k <? n then Some message else None].

(** [.optional()]: an absent value raises no issue. *)
Definition optional {A : Type} (s : ZodSchema A) : ZodSchema (option A) :=
  map (fun check o => match o with Some a => check a | None => None end) s.

(** [schema.parse]: the issues of all keys, in key order; any issue makes
    the call throw a [ZodError]. *)
Definition parse {A : Type} (found : list String.string) (value : A)
  : Completion A :=
  match found with
  | [] => Return value
  | _ :: _ => Throw (ZodError found)
  end.

End z.

(** The built-in issues whose text the sources leave to the library. *)
Inductive BuiltinIssue : Type :=
| too_small (bound : Z) (inclusive : bool)
| too_big (bound : Z) (inclusive : bool).

(** ** The server actions *)

Inductive Query : Type :=
| GetUserDeckCount
| GetDeckById
| CreateDeckForUser
| UpdateDeckForUser
| DeleteDeckForUser
| CreateCardForDeck
| UpdateCardForUser
| DeleteCardForUser
| CreateCardsForDeck.

Inductive Path : Type :=
| dashboard_path
| deck_path (deckId : Z).

(** What an action runs against: the database, the query functions called
    so far (oldest first) and the paths revalidated so far. *)
Record World : Type := mkWorld {
  database : Database;
  queries : list Query;
  revalidated : list Path
}.

Definition Action (A : Type) : Type := World -> Completion A * World.

Definition ret {A : Type} (a : A) : Action A := fun w => (Return a, w).

Definition throw {A : Type} (e : Thrown) : Action A := fun w => (Throw e, w).

Definition bind {A B : Type} (m : Action A) (k : A -> Action B) : Action B :=
  fun w =>
    match m w with
    | (Return a, w') => k a w'
    | (Throw e, w') => (Throw e, w')
    end.

Definition lift {A : Type} (c : Completion A) : Action A := fun w => (c, w).

Notation "x <- m ;; k" := (bind m (fun x => k))
  (at level 61, m at next level, right associativity).
Notation "m ;;; k" := (bind m (fun _ => k))
  (at level 61, right associativity).

(** A call to a function of [db/queries]. *)
Definition query {A : Type} (q : Query)
           (f : Database -> Completion A * Database) : Action A :=
  fun w =>
    let '(r, d') := f (database w) in
    (r, mkWorld d' (queries w ++ [q]) (revalidated w)).

(** A call to a function of [db/queries] that cannot throw. *)
Definition query_total {A : Type} (q : Query) (f : Database -> A * Database)
  : Action A :=
  query q (fun d => let '(a, d') := f d in (Return a, d')).

Definition query_read {A : Type} (q : Query) (f : Database -> A) : Action A :=
  query q (fun d => (Return (f d), d)).

Definition revalidatePath (p : Path) : Action unit :=
  fun w => (Return tt, mkWorld (database w) (queries w) (revalidated w ++ [p])).

(** The object an action resolves to: [{ success: true, data }] or
    [{ success: false, error }], the latter possibly with one more flag set
    ([isPremiumFeature], [needsDescription]). *)
Inductive ActionResult (A : Type) : Type :=
| Success (data : A)
| Failure (error : string) (flag : option string).
Arguments Success {A} data.
Arguments Failure {A} error flag.

(** Clerk's [auth()]: the verified user, if any, and the feature test. *)
Record Auth : Type := mkAuth {
  auth_userId : option string;
  has : string -> bool
}.

(** The [catch] block shared by the deck and card actions:
    [error.issues[0].message] for a [ZodError], [error.message] for any
    other [Error]. *)
Definition first_issue (found : list string) : string :=
  match found with
  | m :: _ => m
  | [] => ""
  end.

Definition try_catch {A : Type} (body : Action (ActionResult A))
  : World -> ActionResult A * World :=
  fun w =>
    match body w with
    | (Return r, w') => (r, w')
    | (Throw (ZodError found), w') => (Failure (first_issue found) None, w')
    | (Throw (Error m), w') => (Failure m None, w')
    end.

Record CreateDeckInput : Type := mkCreateDeckInput {
  create_deck_name : string;
  create_deck_description : option string
}.

Record UpdateDeckInput : Type := mkUpdateDeckInput {
  update_deck_id : Z;
  update_deck_name : string;
  update_deck_description : option string
}.

Record CreateCardInput : Type := mkCreateCardInput {
  create_card_deckId : Z;
  create_card_front : string;
  create_card_back : string
}.

Record UpdateCardInput : Type := mkUpdateCardInput {
  update_card_id : Z;
  update_card_front : string;
  update_card_back : string
}.

Record GenerateCardsInput : Type := mkGenerateCardsInput {
  generate_deckId : Z;
  generate_count : option Z
}.

(** What the generation collaborator is asked for; the fixed wording of the
    prompt around these two values is not represented. *)
Record GenerationRequest : Type := mkGenerationRequest {
  request_count : Z;
  request_topic : string
}.

Definition createDeckSchema_name : ZodSchema string :=
  z.max 255 "Deck name is too long" (z.min 1 "Deck name is required" z.string).

Definition createDeckSchema_description : ZodSchema (option string) :=
  z.optional (z.max 1000 "Description is too long" z.string).

Definition createDeckSchema_issues (input : CreateDeckInput) : list string :=
  issues createDeckSchema_name (create_deck_name input)
  ++ issues createDeckSchema_description (create_deck_description input).

Definition createCardSchema_front : ZodSchema string :=
  z.max 1000 "Question is too long" (z.min 1 "Question is required" z.string).

Definition createCardSchema_back : ZodSchema string :=
  z.max 1000 "Answer is too long" (z.min 1 "Answer is required" z.string).

Definition createCardSchema_issues (input : CreateCardInput) : list string :=
  issues (z.positive "Deck ID is required" z.number) (create_card_deckId input)
  ++ issues createCardSchema_front (create_card_front input)
  ++ issues createCardSchema_back (create_card_back input).

Definition updateCardSchema_issues (input : UpdateCardInput) : list string :=
  issues (z.positive "Card ID is required" z.number) (update_card_id input)
  ++ issues createCardSchema_front (update_card_front input)
  ++ issues createCardSchema_back (update_card_back input).

Definition deleteCardSchema_issues (id : Z) : list string :=
  issues (z.positive "Card ID is required" z.number) id.

(** [flashcardSchema], "simplified for OpenAI compatibility": both fields
    are [z.string()] with no further check. *)
Definition flashcardSchema_front : ZodSchema string := z.string.
Definition flashcardSchema_back : ZodSchema string := z.string.

Definition flashcardSchema_issues (cs : list CardFields) : list string :=
  flat_map (fun c => issues flashcardSchema_front (data_front c)
                     ++ issues flashcardSchema_back (data_back c)) cs.

(** [s.includes(t)] *)
Fixpoint includes (s t : string) : bool :=
  if String.prefix t s then true
  else match s with
       | EmptyString => false
       | String _ r => includes r t
       end.

(** [s.trim() === ""]: every character is white space. *)
Definition is_white_space (c : ascii) : bool :=
  let n := nat_of_ascii c in
  ((9 <=? n) && (n <=? 13) || (n =? 32) || (n =? 160))%nat.

Definition trims_to_empty (s : string) : bool :=
  forallb is_white_space (list_ascii_of_string s).

(** ** The batch insert behind the generation action *)

(** The two sides of a candidate under the checks of a manually entered
    card ([createCardSchema]). *)
Definition candidate_issues (c : CardFields) : list string :=
  issues createCardSchema_front (data_front c)
  ++ issues createCardSchema_back (data_back c).

(** What the store does to one [insert] statement: it runs it, or it fails
    while writing the row at some position, with an error of its own. *)
Inductive StoreFault : Type :=
| no_fault
| fails_at (row : nat) (message : string).

Definition fault_hits (fault : StoreFault) (rows : nat) : option string :=
  match fault with
  | no_fault => None
  | fails_at k m => if (k <? rows)%nat then Some m else None
  end.

(** Modelled from the spec: [createCardsForDeck] is imported by the AI
    generation action from [@/db/queries/card-queries], but the version of
    that file in the sources does not define it.  The spec describes it as
    the batch variant of card creation "with one ownership check and one
    bulk insert", used "when cards arrive from an external generation
    collaborator", and "all-or-nothing: either every candidate is persisted
    or none are (atomic batch)"; it has the core treat the generator's
    output "as untrusted input subject to the same field-length validation
    as manually entered cards", a validation error being "detected before
    any Store access" and "always checked before ownership"; an unowned
    deck gives the not-found-or-unauthorized condition.  So: the candidates
    are validated, then the deck's ownership is checked, then one statement
    inserts all rows; when the store fails that statement, at whichever row,
    no row is kept. *)
Definition createCardsForDeck (fault : StoreFault) (now : Z) (d : Database)
           (deckId : Z) (userId : string) (candidates : list CardFields)
  : Completion (list cardsTable.row) * Database :=
  match flat_map candidate_issues candidates with
  | m :: r => (Throw (ZodError (m :: r)), d)
  | [] =>
      match getDeckById d deckId userId with
      | None => (Throw (Error not_found_deck), d)
      | Some _ =>
          match fault_hits fault (List.length candidates) with
          | Some message => (Throw (Error message), d)
          | None =>
              let '(returned, d') :=
                db.insert_cards now deckId
                  (map (fun c => (data_front c, data_back c)) candidates) d in
              (Return returned, d')
          end
      end
  end.

Section Actions.

(** Texts and collaborators that live outside the repository: the
    messages Zod gives its built-in issues, the message of the engine's
    [TypeError] for reading a property of [undefined], and the card
    generator behind [generateObject]. *)
Variable zod_message : BuiltinIssue -> string.
Variable undefined_read_message : string -> string.
Variable generateObject : GenerationRequest -> Completion (list CardFields).

(** What the store does to the batch insert of this request. *)
Variable store_fault : StoreFault.

(** The request's clock: [new Date()] and [defaultNow()]. *)
Variable now : Z.

Definition id_schema : ZodSchema Z :=
  z.positive (zod_message (too_small 0 false)) z.number.

Definition updateDeckSchema_issues (input : UpdateDeckInput) : list string :=
  issues id_schema (update_deck_id input)
  ++ issues createDeckSchema_name (update_deck_name input)
  ++ issues createDeckSchema_description (update_deck_description input).

Definition deleteDeckSchema_issues (id : Z) : list string :=
  issues id_schema id.

(** [count: z.number().min(1).max(20).default(20)] *)
Definition count_schema : ZodSchema Z :=
  z.number_max 20 (zod_message (too_big 20 true))
    (z.number_min 1 (zod_message (too_small 1 true)) z.number).

Definition generateCardsSchema_issues (input : GenerateCardsInput)
  : list string :=
  issues id_schema (generate_deckId input)
  ++ issues (z.optional count_schema) (generate_count input).

Definition generateCardsSchema_parse (input : GenerateCardsInput)
  : Completion (Z * Z) :=
  z.parse (generateCardsSchema_issues input)
          (generate_deckId input,
           match generate_count input with Some n => n | None => 20 end).

(** [v.deckId] where [v] may be [undefined]. *)
Definition read_deckId (v : option cardsTable.row) : Action Z :=
  match v with
  | Some c => ret (cardsTable.deckId c)
  | None => throw (Error (undefined_read_message "deckId"))
  end.

(** *** Deck actions *)

(** Step 2 of [createDeck]: the deck limit of free users. *)
Definition deck_limit_reached (a : Auth) (userId : string) : Action bool :=
  if negb (has a "unlimited_decks") then
    deckCount <- query_read GetUserDeckCount
                   (fun d => getUserDeckCount d userId) ;;
    ret (3 <=? deckCount)
  else ret false.

Definition createDeck (a : Auth) (input : CreateDeckInput)
  : World -> ActionResult decksTable.row * World :=
  try_catch
    match auth_userId a with
    | None => ret (Failure "You must be logged in to create decks" None)
    | Some userId =>
        limited <- deck_limit_reached a userId ;;
        if limited : bool then
          ret (Failure
                 "Deck limit reached. Upgrade to Pro for unlimited decks."
                 None)
        else
          validated <- lift (z.parse (createDeckSchema_issues input) input) ;;
          deck <- query_total CreateDeckForUser
                    (fun d => createDeckForUser now d userId
                                (mkDeckFields
                                   (create_deck_name validated)
                                   (create_deck_description validated))) ;;
          revalidatePath dashboard_path ;;;
          ret (Success deck)
    end.

Definition updateDeck (a : Auth) (input : UpdateDeckInput)
  : World -> ActionResult (option decksTable.row) * World :=
  try_catch
    match auth_userId a with
    | None => ret (Failure "You must be logged in to update decks" None)
    | Some userId =>
        validated <- lift (z.parse (updateDeckSchema_issues input) input) ;;
        updated <- query UpdateDeckForUser
                     (fun d => updateDeckForUser now d
                                 (update_deck_id validated) userId
                                 (mkDeckFields
                                    (update_deck_name validated)
                                    (update_deck_description validated))) ;;
        revalidatePath dashboard_path ;;;
        revalidatePath (deck_path (update_deck_id validated)) ;;;
        ret (Success updated)
    end.

Definition deleteDeck (a : Auth) (id : Z)
  : World -> ActionResult unit * World :=
  try_catch
    match auth_userId a with
    | None => ret (Failure "You must be logged in to delete decks" None)
    | Some userId =>
        validated <- lift (z.parse (deleteDeckSchema_issues id) id) ;;
        query DeleteDeckForUser
          (fun d => deleteDeckForUser d validated userId) ;;;
        revalidatePath dashboard_path ;;;
        ret (Success tt)
    end.

(** *** Card actions *)

Definition createCard (a : Auth) (input : CreateCardInput)
  : World -> ActionResult (option cardsTable.row) * World :=
  try_catch
    match auth_userId a with
    | None => ret (Failure "You must be logged in to create cards" None)
    | Some userId =>
        validated <- lift (z.parse (createCardSchema_issues input) input) ;;
        card <- query CreateCardForDeck
                  (fun d => createCardForDeck now d
                              (create_card_deckId validated) userId
                              (mkCardFields (create_card_front validated)
                                          (create_card_back validated))) ;;
        revalidatePath dashboard_path ;;;
        revalidatePath (deck_path (create_card_deckId validated)) ;;;
        ret (Success card)
    end.

Definition updateCard (a : Auth) (input : UpdateCardInput)
  : World -> ActionResult (option cardsTable.row) * World :=
  try_catch
    match auth_userId a with
    | None => ret (Failure "You must be logged in to update cards" None)
    | Some userId =>
        validated <- lift (z.parse (updateCardSchema_issues input) input) ;;
        updated <- query UpdateCardForUser
                     (fun d => updateCardForUser now d
                                 (update_card_id validated) userId
                                 (mkCardFields (update_card_front validated)
                                             (update_card_back validated))) ;;
        revalidatePath dashboard_path ;;;
        deckId <- read_deckId updated ;;
        revalidatePath (deck_path deckId) ;;;
        ret (Success updated)
    end.

(** [const deleted = await deleteCardForUser(validated.id, userId)] binds
    [undefined], since the query function returns nothing; the template
    [`/decks/${deleted.deckId}`] then reads [deckId] from it. *)
Definition deleteCard (a : Auth) (id : Z)
  : World -> ActionResult unit * World :=
  try_catch
    match auth_userId a with
    | None => ret (Failure "You must be logged in to delete cards" None)
    | Some userId =>
        validated <- lift (z.parse (deleteCardSchema_issues id) id) ;;
        query DeleteCardForUser
          (fun d => deleteCardForUser d validated userId) ;;;
        let deleted : option cardsTable.row := None in
        revalidatePath dashboard_path ;;;
        deckId <- read_deckId deleted ;;
        revalidatePath (deck_path deckId) ;;;
        ret (Success tt)
    end.

(** *** AI generation action *)

Definition missing_description (k : decksTable.row) : bool :=
  match decksTable.description k with
  | None => true
  | Some t => (String.length t =? 0)%nat || trims_to_empty t
  end.

Definition topic_of (k : decksTable.row) : string :=
  (decksTable.name k ++ ". Context: "
   ++ match decksTable.description k with Some t => t | None => "" end)%string.

(** The [catch] block of [generateCardsWithAI]. *)
Definition generation_error (m : string) : string :=
  if includes m "rate limit" then
    "AI service is temporarily busy. Please try again in a moment."
  else if includes m "api key" || includes m "API key" then
    "AI service configuration error. Please contact support."
  else if (String.length m =? 0)%nat then
    "Failed to generate flashcards. Please try again."
  else m.

Definition try_catch_generation {A : Type} (body : Action (ActionResult A))
  : World -> ActionResult A * World :=
  fun w =>
    match body w with
    | (Return r, w') => (r, w')
    | (Throw (ZodError found), w') => (Failure (first_issue found) None, w')
    | (Throw (Error m), w') => (Failure (generation_error m) None, w')
    end.

(** On success the action returns the created cards and their number. *)
Definition generateCardsWithAI (a : Auth) (input : GenerateCardsInput)
  : World -> ActionResult (list cardsTable.row * Z) * World :=
  try_catch_generation
    match auth_userId a with
    | None =>
        ret (Failure "You must be logged in to generate flashcards" None)
    | Some userId =>
        if negb (has a "ai_flashcard_generation") then
          ret (Failure
                 "AI flashcard generation is only available for Pro subscribers."
                 (Some "isPremiumFeature"))
        else
          validated <- lift (generateCardsSchema_parse input) ;;
          deck <- query_read GetDeckById
                    (fun d => getDeckById d (fst validated) userId) ;;
          match deck with
          | None => ret (Failure not_found_deck None)
          | Some k =>
              if missing_description k then
                ret (Failure
                       "Please add a description to your deck first. AI needs context to generate relevant flashcards."
                       (Some "needsDescription"))
              else
                output <- lift (generateObject
                                  (mkGenerationRequest (snd validated)
                                                       (topic_of k))) ;;
                createdCards <- query CreateCardsForDeck
                                  (fun d => createCardsForDeck store_fault now d
                                              (fst validated) userId output) ;;
                revalidatePath (deck_path (fst validated)) ;;;
                revalidatePath dashboard_path ;;;
                ret (Success (createdCards,
                              Z.of_nat (List.length createdCards)))
          end
    end.

End Actions.

(** ** [src/app/dashboard/page.tsx] *)

(** [const canCreateMore = hasUnlimitedDecks || deckCount < 3] *)
Definition canCreateMore (hasUnlimitedDecks : bool) (deckCount : Z) : bool :=
  hasUnlimitedDecks || (deckCount <? 3).

(** ** The study session: the [FlashcardStudy] component *)

Module FlashcardStudy.

(** [interface CardData]: the rows [getDeckCards] returned. *)
Definition CardData : Type := cardsTable.row.

(** The six [useState] cells. *)
Record State : Type := mkState {
  currentIndex : Z;
  isFlipped : bool;
  studyCards : list CardData;
  isShuffled : bool;
  correctCount : Z;
  incorrectCount : Z
}.

Definition initial (cards : list CardData) : State :=
  mkState 0 false cards false 0 0.

Definition size (s : State) : Z := Z.of_nat (List.length (studyCards s)).

(** [useEffect(() => setIsFlipped(false), [currentIndex])]: after an
    update that changed [currentIndex], the card is shown front up. *)
Definition effect (before after : State) : State :=
  if currentIndex after =? currentIndex before then after
  else mkState (currentIndex after) false (studyCards after)
               (isShuffled after) (correctCount after)
               (incorrectCount after).

Definition handleFlip (s : State) : State :=
  effect s (mkState (currentIndex s) (negb (isFlipped s)) (studyCards s)
                    (isShuffled s) (correctCount s) (incorrectCount s)).

Definition handleNext (s : State) : State :=
  effect s
    (if currentIndex s <? size s - 1
     then mkState (currentIndex s + 1) (isFlipped s) (studyCards s)
                  (isShuffled s) (correctCount s) (incorrectCount s)
     else s).

Definition handlePrevious (s : State) : State :=
  effect s
    (if 0 <? currentIndex s
     then mkState (currentIndex s - 1) (isFlipped s) (studyCards s)
                  (isShuffled s) (correctCount s) (incorrectCount s)
     else s).

(** [const shuffled = [...studyCards].sort(() => Math.random() - 0.5)]:
    [shuffled] is the array the sort returned, some rearrangement of
    [studyCards] (see [step_shuffle]). *)
Definition handleShuffle (shuffled : list CardData) (s : State) : State :=
  effect s (mkState 0 false shuffled true 0 0).

Definition handleRestart (cards : list CardData) (s : State) : State :=
  effect s (mkState 0 false cards false 0 0).

Definition handleCorrect (s : State) : State :=
  effect s
    (mkState (if currentIndex s <? size s - 1
              then currentIndex s + 1 else currentIndex s)
             (isFlipped s) (studyCards s) (isShuffled s)
             (correctCount s + 1) (incorrectCount s)).

Definition handleIncorrect (s : State) : State :=
  effect s
    (mkState (if currentIndex s <? size s - 1
              then currentIndex s + 1 else currentIndex s)
             (isFlipped s) (studyCards s) (isShuffled s)
             (correctCount s) (incorrectCount s + 1)).

Inductive Event : Type :=
| flip | next | previous | shuffle | restart | markCorrect | markIncorrect.

Section Session.

(** The [cards] prop: the snapshot the page loaded. *)
Variable cards : list CardData.

Inductive step : State -> Event -> State -> Prop :=
| step_flip s : step s flip (handleFlip s)
| step_next s : step s next (handleNext s)
| step_previous s : step s previous (handlePrevious s)
| step_shuffle s shuffled :
    Permutation (studyCards s) shuffled ->
    step s shuffle (handleShuffle shuffled s)
| step_restart s : step s restart (handleRestart cards s)
| step_correct s : step s markCorrect (handleCorrect s)
| step_incorrect s : step s markIncorrect (handleIncorrect s).

(** [history h s]: the session reaches [s] by the events of [h], the
    latest first. *)
Inductive history : list Event -> State -> Prop :=
| history_start : history [] (initial cards)
| history_step h s e s' :
    history h s -> step s e s' -> history (e :: h) s'.

Definition reachable (s : State) : Prop := exists h, history h s.

End Session.

(** The marks given since the session was last reset by a shuffle or a
    restart (or since it started). *)
Fixpoint marks_since_reset (h : list Event) : Z :=
  match h with
  | [] => 0
  | markCorrect :: r | markIncorrect :: r => marks_since_reset r + 1
  | shuffle :: _ | restart :: _ => 0
  | _ :: r => marks_since_reset r
  end.

End FlashcardStudy.

(** ** The rest of the query layer, the pages and the generate button *)

(** [ORDER BY key DESC], by insertion, for rows of any shape. *)
Fixpoint insert_desc_by {A : Type} (key : A -> Z) (x : A) (l : list A)
  : list A :=
  match l with
  | [] => [x]
  | y :: r =>
      if key y <? key x then x :: y :: r else y :: insert_desc_by key x r
  end.

Definition orderBy_desc {A : Type} (key : A -> Z) (l : list A) : list A :=
  fold_right (insert_desc_by key) [] l.

(** [count(cardsTable.id)] in the group of one deck of
    [decksTable LEFT JOIN cardsTable ON decksTable.id = cardsTable.deckId]:
    the number of cards that reference the deck, 0 when the deck is joined
    with no card. *)
Definition cardCount (d : Database) (k : decksTable.row) : Z :=
  Z.of_nat
    (List.length
       (filter (fun c => decksTable.id k =? cardsTable.deckId c) (cards d))).

(** [getUserDecksWithCardCount]: the user's decks, each with its card count,
    latest [updatedAt] first.  The grouping key is the primary key, so every
    group is one deck. *)
Definition getUserDecksWithCardCount (d : Database) (userId : string)
  : list (decksTable.row * Z) :=
  orderBy_desc (fun r => decksTable.updatedAt (fst r))
    (map (fun k => (k, cardCount d k))
         (db.select_decks (fun k => decksTable.userId k =? userId)%string d)).

(** What a server component ends in: [redirect("/")], [notFound()] or the
    rendered view. *)
Inductive PageResult (V : Type) : Type :=
| redirect_home
| notFound
| rendered (view : V).
Arguments redirect_home {V}.
Arguments notFound {V}.
Arguments rendered {V} view.

(** [app/dashboard/page.tsx]: what the dashboard shows. *)
Record DashboardView : Type := mkDashboardView {
  dashboard_decks : list decksTable.row;
  dashboard_deckCount : Z;
  dashboard_hasUnlimitedDecks : bool;
  dashboard_canCreateMore : bool
}.

Definition DashboardPage (a : Auth) (d : Database)
  : PageResult DashboardView :=
  match auth_userId a with
  | None => redirect_home
  | Some userId =>
      let hasUnlimitedDecks := has a "unlimited_decks" in
      let decks := getUserDecks d userId in
      let deckCount := Z.of_nat (List.length decks) in
      rendered (mkDashboardView decks deckCount hasUnlimitedDecks
                                (canCreateMore hasUnlimitedDecks deckCount))
  end.

(** [!!deck.description && deck.description.trim() !== ""], the
    [hasDescription] prop the deck page hands to the generate button. *)
Definition hasDescription (k : decksTable.row) : bool :=
  match decksTable.description k with
  | None => false
  | Some t => negb (String.length t =? 0)%nat && negb (trims_to_empty t)
  end.

(** [app/decks/[deckId]/page.tsx].  The route parameter arrives already
    parsed: [deckId] is the number [parseInt] gave, [None] when it gave
    [NaN]. *)
Record DeckView : Type := mkDeckView {
  view_deck : decksTable.row;
  view_cards : option (list cardsTable.row);
  view_cardCount : Z;
  view_hasAIFeature : bool;
  view_hasDescription : bool
}.

Definition DeckPage (a : Auth) (deckId : option Z) (d : Database)
  : PageResult DeckView :=
  match auth_userId a with
  | None => redirect_home
  | Some userId =>
      let hasAIFeature := has a "ai_flashcard_generation" in
      match deckId with
      | None => notFound
      | Some deckId =>
          match getDeckById d deckId userId with
          | None => notFound
          | Some deck =>
              let cards := getDeckCards d deckId userId in
              rendered
                (mkDeckView deck cards
                   (match cards with
                    | Some l => Z.of_nat (List.length l)
                    | None => 0
                    end)
                   hasAIFeature (hasDescription deck))
          end
      end
  end.

(** [app/decks/[deckId]/study/page.tsx]: either the "no cards yet" notice
    or the [FlashcardStudy] component with its three props. *)
Inductive StudyView : Type :=
| no_cards_yet (deck : decksTable.row)
| study_session (cards : list cardsTable.row) (deckId : Z)
                (deckName : string).

Definition StudyPage (a : Auth) (deckId : option Z) (d : Database)
  : PageResult StudyView :=
  match auth_userId a with
  | None => redirect_home
  | Some userId =>
      match deckId with
      | None => notFound
      | Some deckId =>
          match getDeckById d deckId userId with
          | None => notFound
          | Some deck =>
              match getDeckCards d deckId userId with
              | None => rendered (no_cards_yet deck)
              | Some [] => rendered (no_cards_yet deck)
              | Some (c :: r) =>
                  rendered (study_session (c :: r) deckId
                                          (decksTable.name deck))
              end
          end
      end
  end.

(** [components/ai-generate-button.tsx], [handleGenerate]: what the user
    gets to see. *)
Inductive Feedback : Type :=
| push_pricing
| toast_error (message : string)
| toast_error_described (message description : string)
| toast_generated (count : Z).

Definition description_needed : string :=
  "Please add a description to your deck first. AI needs context to generate relevant flashcards.".

Definition flagged (flag : option string) (name : string) : bool :=
  match flag with
  | Some f => (f =? name)%string
  | None => false
  end.

Definition handleGenerate
           (generate : GenerateCardsInput -> World ->
                       ActionResult (list cardsTable.row * Z) * World)
           (deckId : Z) (hasAIFeature hasDescription : bool) (w : World)
  : list Feedback * World :=
  if negb hasAIFeature then ([push_pricing], w)
  else if negb hasDescription then ([toast_error description_needed], w)
  else
    let '(result, w') := generate (mkGenerateCardsInput deckId (Some 20)) w in
    match result with
    | Success (_, count) => ([toast_generated count], w')
    | Failure error flag =>
        if flagged flag "isPremiumFeature" then
          ([toast_error error; push_pricing], w')
        else if flagged flag "needsDescription" then
          ([toast_error_described
              error
              "Click the Edit button to add a description to your deck."],
           w')
        else ([toast_error error], w')
    end.

(** [const currentCard = studyCards[currentIndex]] and the completion box of
    [FlashcardStudy]. *)
Definition currentCard (s : FlashcardStudy.State) : option cardsTable.row :=
  if FlashcardStudy.currentIndex s <? 0 then None
  else nth_error (FlashcardStudy.studyCards s)
                 (Z.to_nat (FlashcardStudy.currentIndex s)).

Definition completion_shown (s : FlashcardStudy.State) : bool :=
  (FlashcardStudy.currentIndex s =? FlashcardStudy.size s - 1)
  && FlashcardStudy.isFlipped s.

(** * Vocabulary of the statements, and sample data *)

(** The deck has the given id and the given owner. *)
Definition deck_matches (deckId : Z) (userId : string) (k : decksTable.row)
  : Prop :=
  decksTable.id k = deckId /\ decksTable.userId k = userId.

(** What an update of the deck [deckId] may do to one stored deck: [id],
    [userId] and [createdAt] stay; a deck with another id stays whole; a deck
    with that id gets the new name, the new description when one is given,
    and the new [updatedAt]. *)
Definition deck_update_frame (now deckId : Z) (data : DeckFields)
           (old new : decksTable.row) : Prop :=
  decksTable.id new = decksTable.id old
  /\ decksTable.userId new = decksTable.userId old
  /\ decksTable.createdAt new = decksTable.createdAt old
  /\ (new = old
      \/ (decksTable.id old = deckId
          /\ decksTable.name new = data_name data
          /\ decksTable.description new
             = match data_description data with
               | Some t => Some t
               | None => decksTable.description old
               end
          /\ decksTable.updatedAt new = now)).

(** The same for an update of the card [cardId]: [id], [deckId] and
    [createdAt] stay. *)
Definition card_update_frame (now cardId : Z) (data : CardFields)
           (old new : cardsTable.row) : Prop :=
  cardsTable.id new = cardsTable.id old
  /\ cardsTable.deckId new = cardsTable.deckId old
  /\ cardsTable.createdAt new = cardsTable.createdAt old
  /\ (new = old
      \/ (cardsTable.id old = cardId
          /\ cardsTable.front new = data_front data
          /\ cardsTable.back new = data_back data
          /\ cardsTable.updatedAt new = now)).

(** ** Sample data *)

Definition deck_a : decksTable.row :=
  decksTable.mk 1 "user_a" "Spanish" (Some "Everyday Spanish words") 100 100.
Definition deck_b : decksTable.row :=
  decksTable.mk 2 "user_b" "History" None 110 110.
Definition card_1 : cardsTable.row := cardsTable.mk 1 1 "perro" "dog" 120 120.
Definition card_2 : cardsTable.row := cardsTable.mk 2 1 "gato" "cat" 130 130.
Definition card_3 : cardsTable.row :=
  cardsTable.mk 3 2 "1066" "Battle of Hastings" 140 140.

Definition sample_database : Database :=
  mkDatabase [deck_a; deck_b] [card_1; card_2; card_3] 3 4.

Definition sample_world : World := mkWorld sample_database [] [].

(** [user_a] on the free plan, and the same user with every feature. *)
Definition free_user_a : Auth := mkAuth (Some "user_a") (fun _ => false).
Definition pro_user_a : Auth := mkAuth (Some "user_a") (fun _ => true).

(** A free user who already owns three decks. *)
Definition full_database : Database :=
  mkDatabase
    [decksTable.mk 1 "user_c" "One" None 100 100;
     decksTable.mk 2 "user_c" "Two" None 101 101;
     decksTable.mk 3 "user_c" "Three" None 102 102]
    [] 4 1.
Definition free_user_c : Auth := mkAuth (Some "user_c") (fun _ => false).

(** The wording Node gives the [TypeError]. *)
Definition node_undefined_read (property : string) : string :=
  ("Cannot read properties of undefined (reading '" ++ property ++ "')")%string.

(** A stand-in for the library's wording of built-in issues, for the places
    that need some concrete text. *)
Definition sample_zod_message (i : BuiltinIssue) : string :=
  match i with
  | too_small _ _ => "Too small"
  | too_big _ _ => "Too big"
  end.

(** The answer of [createDeck] to a free user at the deck limit. *)
Definition limit_message : string :=
  "Deck limit reached. Upgrade to Pro for unlimited decks.".

(** The [values] of one candidate in the bulk insert. *)
Definition fields_of (c : CardFields) : string * string :=
  (data_front c, data_back c).

(** A created card carries the candidate's two sides and the target deck. *)
Definition persists (deckId : Z) (candidate : CardFields)
           (row : cardsTable.row) : Prop :=
  cardsTable.deckId row = deckId
  /\ cardsTable.front row = data_front candidate
  /\ cardsTable.back row = data_back candidate.

(** [c] repeated [n] times. *)
Fixpoint replicate (n : nat) (c : ascii) : string :=
  match n with
  | O => EmptyString
  | S m => String c (replicate m c)
  end.

Definition oversized : string := replicate 1001 "a"%char.

(** A side of a card as [createCardSchema] wants it: 1 to 1000 characters. *)
Definition valid_side (t : string) : Prop :=
  (1 <= String.length t <= 1000)%nat.

Definition valid_candidate (c : CardFields) : Prop :=
  valid_side (data_front c) /\ valid_side (data_back c).

(** The messages of [createCardSchema] for the two sides. *)
Definition side_messages : list string :=
  ["Question is required"; "Question is too long";
   "Answer is required"; "Answer is too long"].

(** Two candidates that pass, and a generator that answers with them. *)
Definition two_candidates : list CardFields :=
  [mkCardFields "hola" "hello"; mkCardFields "adios" "goodbye"].

Definition careful_generator (_ : GenerationRequest)
  : Completion (list CardFields) :=
  Return two_candidates.

(** A generator that answers with one candidate whose front is empty and
    whose back has 1001 characters. *)
Definition careless_generator (_ : GenerationRequest)
  : Completion (list CardFields) :=
  Return [mkCardFields "" oversized].

Import FlashcardStudy.

(** What every step keeps: the cards on the table are a rearrangement of
    the snapshot, and the two counters add up to the marks given since the
    last reset. *)
Definition session_invariant (cards : list CardData) (h : list Event)
           (s : State) : Prop :=
  Permutation cards (studyCards s)
  /\ correctCount s + incorrectCount s = marks_since_reset h
  /\ 0 <= correctCount s
  /\ 0 <= incorrectCount s.

(** The index the session shows after the events of [h] (latest first) over
    [n] cards; shown equal to [currentIndex] in [history_index]. *)
Fixpoint index_after (n : Z) (h : list Event) : Z :=
  match h with
  | [] => 0
  | e :: r =>
      let i := index_after n r in
      match e with
      | flip => i
      | next | markCorrect | markIncorrect => if i <? n - 1 then i + 1 else i
      | previous => if 0 <? i then i - 1 else i
      | shuffle | restart => 0
      end
  end.

(** The indices at which marks were given since the last reset. *)
Fixpoint marked_indices (n : Z) (h : list Event) : list Z :=
  match h with
  | [] => []
  | e :: r =>
      match e with
      | markCorrect | markIncorrect => index_after n r :: marked_indices n r
      | shuffle | restart => []
      | flip | next | previous => marked_indices n r
      end
  end.

(** The snapshot of the sample deck of [user_a]. *)
Definition two_cards : list CardData := [card_1; card_2].

(** ** Well-formed databases and what a user can see *)

(** The constraints the schema declares: both [id] columns are primary
    keys drawn from their identity sequences, and every card references a
    stored deck. *)
Definition well_formed (d : Database) : Prop :=
  NoDup (map decksTable.id (decks d))
  /\ NoDup (map cardsTable.id (cards d))
  /\ (forall k, In k (decks d) -> decksTable.id k < decks_identity d)
  /\ (forall c, In c (cards d) -> cardsTable.id c < cards_identity d)
  /\ (forall c, In c (cards d) ->
                exists k, In k (decks d)
                          /\ decksTable.id k = cardsTable.deckId c).

(** The card belongs to a deck of the user. *)
Definition owned_card (ds : list decksTable.row) (userId : string)
           (c : cardsTable.row) : bool :=
  existsb (fun k => (cardsTable.deckId c =? decksTable.id k)
                    && (decksTable.userId k =? userId)%string) ds.

(** The cards of the user's decks, in table order. *)
Definition user_cards (d : Database) (userId : string)
  : list cardsTable.row :=
  filter (owned_card (decks d) userId) (cards d).

(** Latest [updatedAt] first. *)
Definition sorted_desc {A : Type} (key : A -> Z) (l : list A) : Prop :=
  Sorted (fun x y => key y <= key x) l.

(** User [v] reads the same from [d'] as from [d]: the same decks, and for
    every id the same deck, the same cards of a deck and the same card. *)
Definition same_reads (d d' : Database) (v : string) : Prop :=
  getUserDecks d' v = getUserDecks d v
  /\ (forall i, getDeckById d' i v = getDeckById d i v)
  /\ (forall i, getDeckCards d' i v = getDeckCards d i v)
  /\ (forall i, getCardById d' i v = getCardById d i v).

(** * Properties *)

(** ** The query layer *)

Lemma first_of_filter {A : Type} (p : A -> bool) (l : list A) :
  match filter p l with
  | x :: _ => In x l /\ p x = true
  | [] => forall x, In x l -> p x = false
  end.
Proof.
  destruct (filter p l) as [|x r] eqn:E.
  - intros x Hx. destruct (p x) eqn:Px; [|reflexivity].
    assert (H : In x (filter p l)) by (apply filter_In; auto).
    rewrite E in H. destruct H.
  - apply filter_In. rewrite E. left. reflexivity.
Qed.

Lemma deck_filter_true deckId userId k :
  (decksTable.id k =? deckId) && (decksTable.userId k =? userId)%string = true
  <-> deck_matches deckId userId k.
Proof.
  unfold deck_matches.
  rewrite andb_true_iff, Z.eqb_eq, String.eqb_eq. reflexivity.
Qed.

Lemma getDeckById_Some d deckId userId k :
  getDeckById d deckId userId = Some k ->
  In k (decks d) /\ deck_matches deckId userId k.
Proof.
  unfold getDeckById, db.select_decks. intros H.
  match type of H with
  | context [filter ?p ?l] => pose proof (first_of_filter p l) as F
  end.
  destruct (filter _ (decks d)) as [|x r]; [discriminate|].
  injection H as <-. destruct F as [Hin Hp].
  split; [assumption | apply deck_filter_true; assumption].
Qed.

Lemma getDeckById_None d deckId userId :
  getDeckById d deckId userId = None ->
  forall k, In k (decks d) -> ~ deck_matches deckId userId k.
Proof.
  unfold getDeckById, db.select_decks. intros H k Hin Hm.
  match type of H with
  | context [filter ?p ?l] => pose proof (first_of_filter p l) as F
  end.
  destruct (filter _ (decks d)) as [|x r]; [|discriminate].
  apply deck_filter_true in Hm. rewrite (F k Hin) in Hm. discriminate.
Qed.

(** What the statement of [getDeckById] selects: a deck exactly when the
    table holds a deck with that id owned by that user; the deck it yields
    is such a deck; in every other case no row, which the function turns
    into [null]. *)
Lemma getDeckById_selects_the_owned_deck :
  forall (d : Database) (deckId : Z) (userId : string),
    ((exists k, getDeckById d deckId userId = Some k)
     <-> (exists k, In k (decks d) /\ decksTable.id k = deckId
                    /\ decksTable.userId k = userId))
    /\ (forall k, getDeckById d deckId userId = Some k ->
                  In k (decks d) /\ decksTable.id k = deckId
                  /\ decksTable.userId k = userId)
    /\ (getDeckById d deckId userId = None
        <-> ~ (exists k, In k (decks d) /\ decksTable.id k = deckId
                         /\ decksTable.userId k = userId)).
Proof.
  intros d deckId userId.
  assert (S : forall k, getDeckById d deckId userId = Some k ->
                        In k (decks d) /\ decksTable.id k = deckId
                        /\ decksTable.userId k = userId).
  { intros k H. apply getDeckById_Some in H. exact H. }
  assert (N : getDeckById d deckId userId = None ->
              ~ (exists k, In k (decks d) /\ decksTable.id k = deckId
                           /\ decksTable.userId k = userId)).
  { intros H [k [Hin Hm]]. exact (getDeckById_None _ _ _ H k Hin Hm). }
  split; [|split].
  - split.
    + intros [k H]. exists k. apply S. exact H.
    + intros E. destruct (getDeckById d deckId userId) as [k|] eqn:G.
      * exists k. reflexivity.
      * exfalso. apply N; [reflexivity | exact E].
  - exact S.
  - split; [exact N|].
    intros E. destruct (getDeckById d deckId userId) as [k|] eqn:G.
    + exfalso. apply E. exists k. apply S. reflexivity.
    + reflexivity.
Qed.

Lemma int4_range n : int4 n = true <-> -2147483648 <= n <= 2147483647.
Proof. unfold int4. rewrite andb_true_iff, !Z.leb_le. reflexivity. Qed.

(** C1, against the code.  For a deck id that fits the 32-bit [id] column
    the call of [getDeckById] returns, and returns a deck exactly when the
    table holds a deck with that id owned by that user, that deck, and
    [null] otherwise: a missing deck and a deck of somebody else give the
    same answer.  For a deck id outside that range the call does not return
    [null]: it throws the driver's error.  [2147483648], which the deck page
    gets from the route [/decks/2147483648], is such an id: no deck of the
    sample table has it, and the call throws. *)
Theorem getDeckById_throws_outside_the_id_range :
  forall (failed_query : Select -> Z -> string -> string),
    (forall (d : Database) (deckId : Z) (userId : string),
        int4 deckId = true ->
        exists o,
          Pg.getDeckById failed_query d deckId userId = Return o
          /\ o = getDeckById d deckId userId
          /\ ((exists k, o = Some k)
              <-> (exists k, In k (decks d) /\ decksTable.id k = deckId
                             /\ decksTable.userId k = userId))
          /\ (forall k, o = Some k ->
                        In k (decks d) /\ decksTable.id k = deckId
                        /\ decksTable.userId k = userId)
          /\ (o = None
              <-> ~ (exists k, In k (decks d) /\ decksTable.id k = deckId
                               /\ decksTable.userId k = userId)))
    /\ (forall (d : Database) (deckId : Z) (userId : string),
           int4 deckId = false ->
           Pg.getDeckById failed_query d deckId userId
           = Throw (Error (failed_query deck_by_id deckId userId)))
    /\ ~ (exists k, In k (decks sample_database)
                    /\ decksTable.id k = 2147483648
                    /\ decksTable.userId k = "user_a")
    /\ Pg.getDeckById failed_query sample_database 2147483648 "user_a"
       = Throw (Error (failed_query deck_by_id 2147483648 "user_a"))
    /\ Pg.getDeckById failed_query sample_database 2147483648 "user_a"
       <> Return None.
Proof.
  intros failed_query. split; [|split; [|split; [|split]]].
  - intros d deckId userId R.
    exists (getDeckById d deckId userId).
    split; [unfold Pg.getDeckById; rewrite R; reflexivity|].
    split; [reflexivity|].
    exact (getDeckById_selects_the_owned_deck d deckId userId).
  - intros d deckId userId R.
    unfold Pg.getDeckById, Pg.refuse. rewrite R. reflexivity.
  - intros [k [Hin [Hid _]]]. simpl in Hin.
    destruct Hin as [<-|[<-|[]]]; discriminate Hid.
  - reflexivity.
  - discriminate.
Qed.

Lemma joined_card_in_table d c k :
  In (c, k) (cards_with_decks d) -> In c (cards d).
Proof.
  unfold cards_with_decks, db.leftJoin. intros H.
  apply in_flat_map in H. destruct H as [c' [Hc' H]].
  destruct (filter _ (decks d)) as [|m ms].
  - destruct H as [H|[]]. injection H as -> _. exact Hc'.
  - apply in_map_iff in H. destruct H as [m' [H _]].
    injection H as -> _. exact Hc'.
Qed.

Lemma getCardById_in_table d cardId userId c :
  getCardById d cardId userId = Some c ->
  In c (cards d) /\ cardsTable.id c = cardId.
Proof.
  unfold getCardById. intros H.
  match type of H with
  | context [filter ?p ?l] => pose proof (first_of_filter p l) as F
  end.
  destruct (filter _ (cards_with_decks d)) as [|[c' k] r]; [discriminate|].
  injection H as <-. destruct F as [Hin Hp]. simpl in *.
  apply andb_true_iff in Hp. destruct Hp as [Hid _].
  split; [eapply joined_card_in_table; eassumption | apply Z.eqb_eq; exact Hid].
Qed.

(** C2. When [deleteDeckForUser] succeeds, the cascade of the foreign key
    has removed every card of that deck: no row of [cardsTable] has the
    deleted [deckId], [getDeckCards] for that deck is [null] for every
    user, and no user can fetch a card of that deck with [getCardById].
    Cards of other decks are kept. *)
Theorem deleteDeckForUser_cascades :
  forall (d d' : Database) (deckId : Z) (userId : string),
    deleteDeckForUser d deckId userId = (Return tt, d') ->
    (forall c, In c (cards d') -> cardsTable.deckId c <> deckId)
    /\ (forall u, getDeckById d' deckId u = None)
    /\ (forall u, getDeckCards d' deckId u = None)
    /\ (forall cardId u c, getCardById d' cardId u = Some c ->
                           cardsTable.deckId c <> deckId)
    /\ (forall c, In c (cards d) -> cardsTable.deckId c <> deckId ->
                  In c (cards d')).
Proof.
  intros d d' deckId userId H. unfold deleteDeckForUser in H.
  destruct (getDeckById d deckId userId) as [k|] eqn:G; [|discriminate].
  injection H as <-. apply getDeckById_Some in G. destruct G as [Hin [Hid _]].
  assert (C : forall c, In c (cards (db.delete_decks
                                      (fun k0 => decksTable.id k0 =? deckId) d)) ->
                        cardsTable.deckId c <> deckId).
  { intros c Hc E. unfold db.delete_decks in Hc. simpl in Hc.
    apply filter_In in Hc. destruct Hc as [_ Hc].
    apply negb_true_iff in Hc. unfold db.references_removed in Hc.
    assert (X : existsb (fun k0 => decksTable.id k0 =? cardsTable.deckId c)
                  (filter (fun k0 => decksTable.id k0 =? deckId) (decks d))
                = true).
    { apply existsb_exists. exists k. split.
      - apply filter_In. split; [exact Hin | apply Z.eqb_eq; exact Hid].
      - apply Z.eqb_eq. congruence. }
    congruence. }
  assert (D : forall u, getDeckById (db.delete_decks
                                      (fun k0 => decksTable.id k0 =? deckId) d)
                          deckId u = None).
  { intros u. destruct (getDeckById _ deckId u) as [k'|] eqn:G'; [|reflexivity].
    apply getDeckById_Some in G'. destruct G' as [Hin' [Hid' _]].
    unfold db.delete_decks in Hin'. simpl in Hin'.
    apply filter_In in Hin'. destruct Hin' as [_ Hn].
    apply negb_true_iff in Hn. apply Z.eqb_neq in Hn. contradiction. }
  split; [exact C|]. split; [exact D|]. split; [|split].
  - intros u. unfold getDeckCards. rewrite D. reflexivity.
  - intros cardId u c Hc. apply getCardById_in_table in Hc.
    apply C. apply Hc.
  - intros c Hc Hne. unfold db.delete_decks. simpl.
    apply filter_In. split; [exact Hc|].
    apply negb_true_iff. unfold db.references_removed.
    destruct (existsb _ _) eqn:X; [|reflexivity].
    apply existsb_exists in X. destruct X as [k' [Hk' E]].
    apply filter_In in Hk'. destruct Hk' as [_ Hk'].
    apply Z.eqb_eq in Hk'. apply Z.eqb_eq in E. congruence.
Qed.

Lemma deleteDeckForUser_owned d deckId userId k :
  getDeckById d deckId userId = Some k ->
  deleteDeckForUser d deckId userId
  = (Return tt, db.delete_decks (fun x => decksTable.id x =? deckId) d).
Proof. unfold deleteDeckForUser. intros ->. reflexivity. Qed.

Lemma deleteDeckForUser_cascades_witness :
  deleteDeckForUser sample_database 1 "user_a"
  = (Return tt, mkDatabase [deck_b] [card_3] 3 4)
  /\ (forall c, In c [card_3] -> cardsTable.deckId c <> 1)
  /\ (forall u, getDeckCards (mkDatabase [deck_b] [card_3] 3 4) 1 u = None).
Proof.
  split; [reflexivity|].
  pose proof (deleteDeckForUser_cascades
                sample_database (mkDatabase [deck_b] [card_3] 3 4) 1 "user_a"
                eq_refl) as H.
  split; [exact (proj1 H) | exact (proj1 (proj2 (proj2 H)))].
Defined.

Lemma Forall2_map_same {A : Type} (R : A -> A -> Prop) (f : A -> A)
      (l : list A) :
  (forall x, In x l -> R x (f x)) -> Forall2 R l (map f l).
Proof.
  induction l as [|x l IH]; intros H; simpl; constructor.
  - apply H. left. reflexivity.
  - apply IH. intros y Hy. apply H. right. exact Hy.
Qed.

Lemma Forall2_same {A : Type} (R : A -> A -> Prop) (l : list A) :
  (forall x, In x l -> R x x) -> Forall2 R l l.
Proof.
  intros H. rewrite <- (map_id l) at 2. apply Forall2_map_same. exact H.
Qed.

Lemma hd_error_map_filter {A : Type} (p : A -> bool) (f : A -> A)
      (l : list A) (u : A) :
  hd_error (map f (filter p l)) = Some u ->
  exists x, In x l /\ p x = true /\ u = f x.
Proof.
  pose proof (first_of_filter p l) as F.
  destruct (filter p l) as [|x r]; simpl; [discriminate|].
  intros H. injection H as <-. exists x. tauto.
Qed.

Lemma updateDeckForUser_frame now d deckId userId data :
  Forall2 (deck_update_frame now deckId data) (decks d)
          (decks (snd (updateDeckForUser now d deckId userId data)))
  /\ cards (snd (updateDeckForUser now d deckId userId data)) = cards d.
Proof.
  unfold updateDeckForUser.
  destruct (getDeckById d deckId userId); simpl.
  - split; [|reflexivity]. apply Forall2_map_same. intros x _.
    unfold deck_update_frame.
    destruct (decksTable.id x =? deckId) eqn:E; simpl.
    + apply Z.eqb_eq in E. repeat split; try reflexivity. right. tauto.
    + repeat split; try reflexivity. left. reflexivity.
  - split; [|reflexivity]. apply Forall2_same. intros x _.
    unfold deck_update_frame. repeat split; try reflexivity. left. reflexivity.
Qed.

Lemma updateCardForUser_frame now d cardId userId data :
  Forall2 (card_update_frame now cardId data) (cards d)
          (cards (snd (updateCardForUser now d cardId userId data)))
  /\ decks (snd (updateCardForUser now d cardId userId data)) = decks d.
Proof.
  unfold updateCardForUser.
  destruct (getCardById d cardId userId); simpl.
  - split; [|reflexivity]. apply Forall2_map_same. intros x _.
    unfold card_update_frame.
    destruct (cardsTable.id x =? cardId) eqn:E; simpl.
    + apply Z.eqb_eq in E. repeat split; try reflexivity. right. tauto.
    + repeat split; try reflexivity. left. reflexivity.
  - split; [|reflexivity]. apply Forall2_same. intros x _.
    unfold card_update_frame. repeat split; try reflexivity. left. reflexivity.
Qed.

Lemma updateDeckForUser_returns now d deckId userId data :
  match fst (updateDeckForUser now d deckId userId data) with
  | Return (Some u) =>
      exists old, In old (decks d) /\ decksTable.id old = deckId
                  /\ u = db.set_deck (data_name data) (data_description data)
                                     now old
  | Return None => False
  | Throw e =>
      e = Error not_found_deck /\ getDeckById d deckId userId = None
  end.
Proof.
  unfold updateDeckForUser.
  destruct (getDeckById d deckId userId) as [k|] eqn:G; simpl; [|tauto].
  apply getDeckById_Some in G. destruct G as [Hin [Hid _]].
  destruct (hd_error _) as [u|] eqn:H.
  - apply hd_error_map_filter in H. destruct H as [x [Hx [Px ->]]].
    exists x. apply Z.eqb_eq in Px. tauto.
  - assert (X : In k (filter (fun k0 => decksTable.id k0 =? deckId) (decks d))).
    { apply filter_In. split; [exact Hin | apply Z.eqb_eq; exact Hid]. }
    destruct (filter _ (decks d)); [destruct X | discriminate].
Qed.

Lemma updateCardForUser_returns now d cardId userId data :
  match fst (updateCardForUser now d cardId userId data) with
  | Return (Some u) =>
      exists old, In old (cards d) /\ cardsTable.id old = cardId
                  /\ u = db.set_card (data_front data) (data_back data) now old
  | Return None => False
  | Throw e =>
      e = Error not_found_card /\ getCardById d cardId userId = None
  end.
Proof.
  unfold updateCardForUser.
  destruct (getCardById d cardId userId) as [c|] eqn:G; simpl; [|tauto].
  apply getCardById_in_table in G. destruct G as [Hin Hid].
  destruct (hd_error _) as [u|] eqn:H.
  - apply hd_error_map_filter in H. destruct H as [x [Hx [Px ->]]].
    exists x. apply Z.eqb_eq in Px. tauto.
  - assert (X : In c (filter (fun c0 => cardsTable.id c0 =? cardId) (cards d))).
    { apply filter_In. split; [exact Hin | apply Z.eqb_eq; exact Hid]. }
    destruct (filter _ (cards d)); [destruct X | discriminate].
Qed.

(** C10. Updates touch content fields only.  [updateDeckForUser] maps the
    deck table row by row, keeping [id], [userId] and [createdAt] of every
    deck and writing [name], [description] and [updatedAt] only on the deck
    with the given id; it leaves the card table alone, and the deck it
    returns is a stored deck with those three fields rewritten.
    [updateCardForUser] does the same on the card table with [id], [deckId]
    and [createdAt] kept and [front], [back], [updatedAt] written, and
    leaves the deck table alone.  So no update moves a deck to another
    owner or a card to another deck. *)
Theorem updates_keep_identity_and_parent :
  forall (now : Z) (d : Database) (rowId : Z) (userId : string)
         (deckData : DeckFields) (cardData : CardFields),
    (Forall2 (deck_update_frame now rowId deckData) (decks d)
             (decks (snd (updateDeckForUser now d rowId userId deckData)))
     /\ cards (snd (updateDeckForUser now d rowId userId deckData)) = cards d
     /\ forall u,
         fst (updateDeckForUser now d rowId userId deckData) = Return (Some u) ->
         exists old, In old (decks d)
                     /\ decksTable.id u = decksTable.id old
                     /\ decksTable.userId u = decksTable.userId old
                     /\ decksTable.createdAt u = decksTable.createdAt old
                     /\ decksTable.name u = data_name deckData
                     /\ decksTable.updatedAt u = now)
    /\ (Forall2 (card_update_frame now rowId cardData) (cards d)
                (cards (snd (updateCardForUser now d rowId userId cardData)))
        /\ decks (snd (updateCardForUser now d rowId userId cardData)) = decks d
        /\ forall u,
            fst (updateCardForUser now d rowId userId cardData)
            = Return (Some u) ->
            exists old, In old (cards d)
                        /\ cardsTable.id u = cardsTable.id old
                        /\ cardsTable.deckId u = cardsTable.deckId old
                        /\ cardsTable.createdAt u = cardsTable.createdAt old
                        /\ cardsTable.front u = data_front cardData
                        /\ cardsTable.back u = data_back cardData
                        /\ cardsTable.updatedAt u = now).
Proof.
  intros now d rowId userId deckData cardData. split.
  - destruct (updateDeckForUser_frame now d rowId userId deckData) as [F C].
    split; [exact F|]. split; [exact C|].
    intros u H.
    pose proof (updateDeckForUser_returns now d rowId userId deckData) as R.
    rewrite H in R. destruct R as [old [Hin [_ ->]]].
    exists old. simpl. repeat split; try reflexivity. exact Hin.
  - destruct (updateCardForUser_frame now d rowId userId cardData) as [F C].
    split; [exact F|]. split; [exact C|].
    intros u H.
    pose proof (updateCardForUser_returns now d rowId userId cardData) as R.
    rewrite H in R. destruct R as [old [Hin [_ ->]]].
    exists old. simpl. repeat split; try reflexivity. exact Hin.
Qed.

(** ** The quota decision *)

(** C5. The quota decision is [true] exactly when the user has the
    unlimited entitlement or owns fewer than three decks; it does not depend
    on who the user is.  It is [false] at 3 decks without entitlement,
    [true] at 2 without, [true] at 99 with.  The gate inside [createDeck]
    stops the creation exactly when the decision is [false]. *)
Theorem canCreateMore_iff_entitled_or_below_three :
  (forall (hasUnlimitedDecks : bool) (deckCount : Z),
      canCreateMore hasUnlimitedDecks deckCount = true
      <-> (hasUnlimitedDecks = true \/ deckCount < 3))
  /\ canCreateMore false 3 = false
  /\ canCreateMore false 2 = true
  /\ canCreateMore true 99 = true
  /\ (forall (a : Auth) (userId : string) (w : World),
         fst (deck_limit_reached a userId w)
         = Return (negb (canCreateMore
                           (has a "unlimited_decks")
                           (getUserDeckCount (database w) userId)))).
Proof.
  split; [|repeat split].
  - intros e n. unfold canCreateMore.
    rewrite orb_true_iff, Z.ltb_lt. reflexivity.
  - intros a userId w. unfold deck_limit_reached, canCreateMore.
    destruct (has a "unlimited_decks"); simpl; [reflexivity|].
    unfold bind, query_read, query, ret. simpl.
    f_equal. rewrite Z.leb_antisym. reflexivity.
Qed.

(** ** The server actions *)

Lemma parse_rejects {A : Type} (found : list string) (value : A) :
  found <> [] -> z.parse found value = Throw (ZodError found).
Proof. destruct found; [congruence | reflexivity]. Qed.

Lemma positive_issues (message : string) (n : Z) :
  issues (z.positive message z.number) n
  = if 0 <? n then [] else [message].
Proof. unfold issues, z.positive. simpl. destruct (0 <? n); reflexivity. Qed.

Lemma deleteCardForUser_owned d cardId userId c :
  getCardById d cardId userId = Some c ->
  deleteCardForUser d cardId userId
  = (Return tt, db.delete_cards (fun x => cardsTable.id x =? cardId) d).
Proof. unfold deleteCardForUser. intros ->. reflexivity. Qed.

Lemma delete_cards_removes d cardId :
  forall c, In c (cards (db.delete_cards
                           (fun x => cardsTable.id x =? cardId) d)) ->
            cardsTable.id c <> cardId.
Proof.
  intros c H. unfold db.delete_cards in H. simpl in H.
  apply filter_In in H. destruct H as [_ H].
  apply negb_true_iff in H. apply Z.eqb_neq. exact H.
Qed.

(** C3. Deleting an owned card through the [deleteCard] action: the query
    [deleteCardForUser] succeeds and removes the card, but the action then
    reads [deckId] from the [undefined] that query resolved to; the
    [TypeError] lands in the [catch] block and the action answers
    [success: false] with the engine's message, after having revalidated
    the dashboard only. *)
Theorem deleteCard_owned_card_reports_failure :
  forall (undefined_read_message : string -> string) (a : Auth)
         (userId : string) (cardId : Z) (w : World) (c : cardsTable.row),
    auth_userId a = Some userId ->
    0 < cardId ->
    getCardById (database w) cardId userId = Some c ->
    deleteCardForUser (database w) cardId userId
    = (Return tt,
       db.delete_cards (fun x => cardsTable.id x =? cardId) (database w))
    /\ deleteCard undefined_read_message a cardId w
       = (Failure (undefined_read_message "deckId") None,
          mkWorld
            (db.delete_cards (fun x => cardsTable.id x =? cardId) (database w))
            (queries w ++ [DeleteCardForUser])
            (revalidated w ++ [dashboard_path]))
    /\ (forall x,
           In x (cards (database
                          (snd (deleteCard undefined_read_message a cardId w)))) ->
           cardsTable.id x <> cardId).
Proof.
  intros msg a userId cardId w c Ha Hpos Hc.
  assert (E : deleteCard msg a cardId w
              = (Failure (msg "deckId") None,
                 mkWorld
                   (db.delete_cards (fun x => cardsTable.id x =? cardId)
                                    (database w))
                   (queries w ++ [DeleteCardForUser])
                   (revalidated w ++ [dashboard_path]))).
  { unfold deleteCard, try_catch. rewrite Ha.
    unfold deleteCardSchema_issues. rewrite positive_issues.
    apply Z.ltb_lt in Hpos. rewrite Hpos.
    unfold bind, lift, query, revalidatePath, read_deckId, throw. simpl.
    rewrite (deleteCardForUser_owned _ _ _ _ Hc). reflexivity. }
  split; [apply (deleteCardForUser_owned _ _ _ _ Hc)|].
  split; [exact E|].
  rewrite E. simpl. apply delete_cards_removes.
Qed.

Lemma deleteCard_owned_card_reports_failure_witness :
  auth_userId free_user_a = Some "user_a"
  /\ 0 < 1
  /\ getCardById (database sample_world) 1 "user_a" = Some card_1
  /\ deleteCard node_undefined_read free_user_a 1 sample_world
     = (Failure "Cannot read properties of undefined (reading 'deckId')" None,
        mkWorld (mkDatabase [deck_a; deck_b] [card_2; card_3] 3 4)
                [DeleteCardForUser] [dashboard_path]).
Proof.
  split; [reflexivity|]. split; [reflexivity|]. split; [reflexivity|].
  exact (proj1 (proj2 (deleteCard_owned_card_reports_failure
                         node_undefined_read free_user_a "user_a" 1
                         sample_world card_1 eq_refl eq_refl eq_refl))).
Defined.

Lemma rejected_before_store {A B : Type} (found : list string) (input : A)
      (rest : A -> Action (ActionResult B)) (w : World) :
  found <> [] ->
  try_catch (validated <- lift (z.parse found input) ;; rest validated) w
  = (Failure (first_issue found) None, w).
Proof.
  intros H. unfold try_catch, bind, lift.
  rewrite (parse_rejects _ _ H). reflexivity.
Qed.

Lemma string_issues (lo hi : nat) (m_lo m_hi t : string) :
  issues (z.max hi m_hi (z.min lo m_lo z.string)) t
  = (if (String.length t <? lo)%nat then [m_lo] else [])
    ++ (if (hi <? String.length t)%nat then [m_hi] else []).
Proof.
  unfold issues, z.max, z.min, z.string. simpl.
  destruct (String.length t <? lo)%nat, (hi <? String.length t)%nat;
    reflexivity.
Qed.

(** The deck name passes exactly when it has 1 to 255 characters, a card
    side exactly when it has 1 to 1000. *)
Lemma createDeckSchema_name_accepts t :
  issues createDeckSchema_name t = []
  <-> (1 <= String.length t <= 255)%nat.
Proof.
  unfold createDeckSchema_name. rewrite string_issues.
  destruct (Nat.ltb_spec (String.length t) 1), (Nat.ltb_spec 255 (String.length t));
    simpl; split; intros X; try discriminate; try reflexivity; lia.
Qed.

Lemma createCardSchema_front_accepts t :
  issues createCardSchema_front t = []
  <-> (1 <= String.length t <= 1000)%nat.
Proof.
  unfold createCardSchema_front. rewrite string_issues.
  destruct (Nat.ltb_spec (String.length t) 1), (Nat.ltb_spec 1000 (String.length t));
    simpl; split; intros X; try discriminate; try reflexivity; lia.
Qed.

Lemma createCardSchema_back_accepts t :
  issues createCardSchema_back t = []
  <-> (1 <= String.length t <= 1000)%nat.
Proof.
  unfold createCardSchema_back. rewrite string_issues.
  destruct (Nat.ltb_spec (String.length t) 1), (Nat.ltb_spec 1000 (String.length t));
    simpl; split; intros X; try discriminate; try reflexivity; lia.
Qed.

(** C4, as the code has it.  For a signed-in caller, [updateDeck],
    [deleteDeck], [createCard], [updateCard] and [deleteCard] validate
    their input before anything else: when the schema raises an issue the
    action answers with the first issue's message and the world is
    untouched (no query function called, nothing revalidated).
    [createDeck] checks the deck limit first: with the unlimited
    entitlement it behaves like the others; without it the deck-count query
    runs before the validation, the answer is the limit message when the
    user owns three decks or more and the first issue's message otherwise.
    In every case a rejected [createDeck] leaves the database as it was. *)
Theorem validation_precedes_store_except_deck_limit :
  forall (zod_message : BuiltinIssue -> string)
         (undefined_read_message : string -> string)
         (now : Z) (a : Auth) (userId : string) (w : World),
    auth_userId a = Some userId ->
    (forall input,
        updateDeckSchema_issues zod_message input <> [] ->
        updateDeck zod_message now a input w
        = (Failure (first_issue (updateDeckSchema_issues zod_message input))
                   None, w))
    /\ (forall id,
           deleteDeckSchema_issues zod_message id <> [] ->
           deleteDeck zod_message a id w
           = (Failure (first_issue (deleteDeckSchema_issues zod_message id))
                      None, w))
    /\ (forall input,
           createCardSchema_issues input <> [] ->
           createCard now a input w
           = (Failure (first_issue (createCardSchema_issues input)) None, w))
    /\ (forall input,
           updateCardSchema_issues input <> [] ->
           updateCard undefined_read_message now a input w
           = (Failure (first_issue (updateCardSchema_issues input)) None, w))
    /\ (forall id,
           deleteCardSchema_issues id <> [] ->
           deleteCard undefined_read_message a id w
           = (Failure (first_issue (deleteCardSchema_issues id)) None, w))
    /\ (forall input,
           createDeckSchema_issues input <> [] ->
           database (snd (createDeck now a input w)) = database w
           /\ revalidated (snd (createDeck now a input w)) = revalidated w
           /\ (has a "unlimited_decks" = true ->
               createDeck now a input w
               = (Failure (first_issue (createDeckSchema_issues input)) None,
                  w))
           /\ (has a "unlimited_decks" = false ->
               queries (snd (createDeck now a input w))
               = queries w ++ [GetUserDeckCount]
               /\ fst (createDeck now a input w)
                  = if 3 <=? getUserDeckCount (database w) userId
                    then Failure limit_message None
                    else Failure (first_issue (createDeckSchema_issues input))
                                 None)).
Proof.
  intros zm um now a userId w Ha.
  split; [|split; [|split; [|split; [|split]]]].
  - intros input H. unfold updateDeck. rewrite Ha.
    apply rejected_before_store. exact H.
  - intros id H. unfold deleteDeck. rewrite Ha.
    apply rejected_before_store. exact H.
  - intros input H. unfold createCard. rewrite Ha.
    apply rejected_before_store. exact H.
  - intros input H. unfold updateCard. rewrite Ha.
    apply rejected_before_store. exact H.
  - intros id H. unfold deleteCard. rewrite Ha.
    apply rejected_before_store. exact H.
  - intros input H. unfold createDeck, deck_limit_reached. rewrite Ha.
    unfold try_catch, bind, lift, query_read, query, ret.
    rewrite (parse_rejects _ _ H).
    destruct (has a "unlimited_decks"); simpl.
    + repeat split; try reflexivity; discriminate.
    + destruct (3 <=? getUserDeckCount (database w) userId); simpl;
        repeat split; try reflexivity; discriminate.
Qed.

Lemma validation_precedes_store_except_deck_limit_witness :
  auth_userId free_user_a = Some "user_a"
  /\ updateDeck sample_zod_message 200 free_user_a
       (mkUpdateDeckInput 1 "" None) sample_world
     = (Failure "Deck name is required" None, sample_world).
Proof.
  split; [reflexivity|].
  apply (proj1 (validation_precedes_store_except_deck_limit
                  sample_zod_message node_undefined_read 200 free_user_a
                  "user_a" sample_world eq_refl)
               (mkUpdateDeckInput 1 "" None)).
  vm_compute. discriminate.
Defined.

(** C4, as stated, fails on [createDeck]: a free user who owns three decks
    and submits an empty name gets the limit message, not the validation
    message, and the deck-count query has run; with fewer decks the
    validation message comes back, still after the deck-count query. *)
Lemma createDeck_counts_decks_before_validating :
  createDeckSchema_issues (mkCreateDeckInput "" None)
  = ["Deck name is required"]
  /\ createDeck 200 free_user_c (mkCreateDeckInput "" None)
       (mkWorld full_database [] [])
     = (Failure limit_message None,
        mkWorld full_database [GetUserDeckCount] [])
  /\ createDeck 200 free_user_a (mkCreateDeckInput "" None) sample_world
     = (Failure "Deck name is required" None,
        mkWorld sample_database [GetUserDeckCount] []).
Proof. repeat split. Qed.

(** ** Batch creation and the generation flow *)

Lemma card_rows_persist now deckId (candidates : list CardFields) :
  forall next,
    Forall2 (persists deckId) candidates
            (db.card_rows now deckId next (map fields_of candidates)).
Proof.
  induction candidates as [|c r IH]; intros next; simpl; constructor.
  - unfold persists. simpl. tauto.
  - apply IH.
Qed.

Lemma flat_map_nil {A B : Type} (f : A -> list B) (l : list A) :
  flat_map f l = [] <-> Forall (fun a => f a = []) l.
Proof.
  induction l as [|a r IH]; simpl.
  - split; [constructor | reflexivity].
  - split.
    + intros H. apply app_eq_nil in H. destruct H as [Ha Hr].
      constructor; [exact Ha | apply IH; exact Hr].
    + intros H. inversion H as [|? ? Ha Hr]; subst.
      rewrite Ha. simpl. apply IH. exact Hr.
Qed.

Lemma candidate_issues_accepts c :
  candidate_issues c = [] <-> valid_candidate c.
Proof.
  unfold candidate_issues, valid_candidate, valid_side.
  rewrite <- createCardSchema_front_accepts, <- createCardSchema_back_accepts.
  split.
  - intros H. apply app_eq_nil in H. exact H.
  - intros [-> ->]. reflexivity.
Qed.

Lemma candidates_accepted (candidates : list CardFields) :
  flat_map candidate_issues candidates = []
  <-> Forall valid_candidate candidates.
Proof.
  rewrite flat_map_nil. split; intros H.
  - eapply Forall_impl; [|exact H].
    intros c Hc. apply candidate_issues_accepts. exact Hc.
  - eapply Forall_impl; [|exact H].
    intros c Hc. apply candidate_issues_accepts. exact Hc.
Qed.

Lemma candidate_issues_wording c m :
  In m (candidate_issues c) -> In m side_messages.
Proof.
  unfold candidate_issues, createCardSchema_front, createCardSchema_back.
  rewrite !string_issues. unfold side_messages.
  destruct (String.length (data_front c) <? 1)%nat,
           (1000 <? String.length (data_front c))%nat,
           (String.length (data_back c) <? 1)%nat,
           (1000 <? String.length (data_back c))%nat;
    simpl; intuition.
Qed.

Lemma first_issue_of_candidates (candidates : list CardFields) :
  flat_map candidate_issues candidates <> [] ->
  In (first_issue (flat_map candidate_issues candidates)) side_messages.
Proof.
  intros H.
  assert (I : In (first_issue (flat_map candidate_issues candidates))
                 (flat_map candidate_issues candidates)).
  { destruct (flat_map candidate_issues candidates) as [|m r];
      [congruence | left; reflexivity]. }
  apply in_flat_map in I. destruct I as [c [_ I]].
  exact (candidate_issues_wording c _ I).
Qed.

Lemma createCardsForDeck_keeps_on_throw fault now d deckId userId candidates
      e d' :
  createCardsForDeck fault now d deckId userId candidates = (Throw e, d') ->
  d' = d.
Proof.
  unfold createCardsForDeck.
  destruct (flat_map candidate_issues candidates);
    [|intros H; injection H as _ <-; reflexivity].
  destruct (getDeckById d deckId userId);
    [|intros H; injection H as _ <-; reflexivity].
  destruct (fault_hits fault (List.length candidates));
    [intros H; injection H as _ <-; reflexivity|].
  simpl. discriminate.
Qed.

(** C7. [createCardsForDeck] makes one ownership check and one bulk
    insert, and is all-or-nothing.  When it returns, every candidate passed
    validation, the deck is owned, the store ran the statement, and the card
    table grew by one row per candidate, in order, each row holding its
    candidate's sides and the target deck id.  When it throws (a candidate
    is invalid, the deck is not owned, or the store fails the statement at
    some row) the database is exactly as before: no row of the batch is
    kept, also not the rows before the one at which the store failed.  With
    two candidates and a store that fails at the second, the first is not
    kept either. *)
Theorem createCardsForDeck_all_or_nothing :
  (forall (fault : StoreFault) (now : Z) (d : Database) (deckId : Z)
          (userId : string) (candidates : list CardFields),
      match createCardsForDeck fault now d deckId userId candidates with
      | (Return rows, d') =>
          Forall valid_candidate candidates
          /\ (exists k, getDeckById d deckId userId = Some k)
          /\ fault_hits fault (List.length candidates) = None
          /\ (rows, d') = db.insert_cards now deckId
                            (map fields_of candidates) d
          /\ cards d' = cards d ++ rows
          /\ decks d' = decks d
          /\ Forall2 (persists deckId) candidates rows
      | (Throw e, d') =>
          d' = d
          /\ ((~ Forall valid_candidate candidates
               /\ e = ZodError (flat_map candidate_issues candidates))
              \/ (Forall valid_candidate candidates
                  /\ getDeckById d deckId userId = None
                  /\ e = Error not_found_deck)
              \/ (Forall valid_candidate candidates
                  /\ (exists k, getDeckById d deckId userId = Some k)
                  /\ exists row message,
                       fault = fails_at row message
                       /\ (row < List.length candidates)%nat
                       /\ e = Error message))
      end)
  /\ (forall (row : nat) (message : string) (now : Z) (d : Database)
             (deckId : Z) (userId : string) (candidates : list CardFields),
         (row < List.length candidates)%nat ->
         snd (createCardsForDeck (fails_at row message) now d deckId userId
                                 candidates) = d)
  /\ createCardsForDeck (fails_at 1 "connection terminated") 200
                        sample_database 1 "user_a" two_candidates
     = (Throw (Error "connection terminated"), sample_database)
  /\ createCardsForDeck no_fault 200 sample_database 1 "user_a" two_candidates
     = (Return [cardsTable.mk 4 1 "hola" "hello" 200 200;
                cardsTable.mk 5 1 "adios" "goodbye" 200 200],
        mkDatabase [deck_a; deck_b]
                   [card_1; card_2; card_3;
                    cardsTable.mk 4 1 "hola" "hello" 200 200;
                    cardsTable.mk 5 1 "adios" "goodbye" 200 200] 3 6).
Proof.
  assert (M : forall fault now d deckId userId candidates,
             match createCardsForDeck fault now d deckId userId candidates with
             | (Return rows, d') =>
                 Forall valid_candidate candidates
                 /\ (exists k, getDeckById d deckId userId = Some k)
                 /\ fault_hits fault (List.length candidates) = None
                 /\ (rows, d') = db.insert_cards now deckId
                                   (map fields_of candidates) d
                 /\ cards d' = cards d ++ rows
                 /\ decks d' = decks d
                 /\ Forall2 (persists deckId) candidates rows
             | (Throw e, d') =>
                 d' = d
                 /\ ((~ Forall valid_candidate candidates
                      /\ e = ZodError (flat_map candidate_issues candidates))
                     \/ (Forall valid_candidate candidates
                         /\ getDeckById d deckId userId = None
                         /\ e = Error not_found_deck)
                     \/ (Forall valid_candidate candidates
                         /\ (exists k, getDeckById d deckId userId = Some k)
                         /\ exists row message,
                              fault = fails_at row message
                              /\ (row < List.length candidates)%nat
                              /\ e = Error message))
             end).
  { intros fault now d deckId userId candidates. unfold createCardsForDeck.
    pose proof (candidates_accepted candidates) as V.
    destruct (flat_map candidate_issues candidates) as [|m r] eqn:I.
    - assert (Hv : Forall valid_candidate candidates)
        by (apply V; reflexivity).
      destruct (getDeckById d deckId userId) as [k|] eqn:G.
      + destruct (fault_hits fault (List.length candidates)) as [message|] eqn:F.
        * split; [reflexivity|]. right. right.
          split; [exact Hv|]. split; [exists k; reflexivity|].
          destruct fault as [|row text]; simpl in F; [discriminate|].
          destruct (Nat.ltb_spec row (List.length candidates));
            [|discriminate].
          injection F as ->. exists row, message. auto.
        * simpl. split; [exact Hv|]. split; [exists k; reflexivity|].
          split; [reflexivity|]. split; [reflexivity|].
          split; [reflexivity|]. split; [reflexivity|].
          apply card_rows_persist.
      + split; [reflexivity|]. right. left. auto.
    - split; [reflexivity|]. left. split; [|reflexivity].
      intros Hv. apply V in Hv. discriminate Hv. }
  split; [exact M|]. split; [|split; reflexivity].
  intros row message now d deckId userId candidates L.
  pose proof (M (fails_at row message) now d deckId userId candidates) as H.
  destruct (createCardsForDeck (fails_at row message) now d deckId userId
                               candidates) as [[rows|e] d'].
  - destruct H as [_ [_ [F _]]]. simpl in F.
    destruct (Nat.ltb_spec row (List.length candidates));
      [discriminate | lia].
  - simpl. exact (proj1 H).
Qed.

Lemma flashcardSchema_accepts_everything (output : list CardFields) :
  flashcardSchema_issues output = [].
Proof.
  unfold flashcardSchema_issues.
  induction output as [|c r IH]; simpl; [reflexivity | exact IH].
Qed.

(** What the action does once the generator has answered, by what
    [createCardsForDeck] does with the answer. *)
Lemma generateCardsWithAI_after_generation
      (zod_message : BuiltinIssue -> string)
      (generateObject : GenerationRequest -> Completion (list CardFields))
      (fault : StoreFault) (now : Z) (a : Auth) (userId : string)
      (input : GenerateCardsInput) (w : World) (k : decksTable.row)
      (output : list CardFields) :
  auth_userId a = Some userId ->
  has a "ai_flashcard_generation" = true ->
  generateCardsSchema_issues zod_message input = [] ->
  getDeckById (database w) (generate_deckId input) userId = Some k ->
  missing_description k = false ->
  generateObject
    (mkGenerationRequest
       (match generate_count input with Some n => n | None => 20 end)
       (topic_of k)) = Return output ->
  generateCardsWithAI zod_message generateObject fault now a input w
  = match createCardsForDeck fault now (database w) (generate_deckId input)
                             userId output with
    | (Return rows, d') =>
        (Success (rows, Z.of_nat (List.length rows)),
         mkWorld d' (queries w ++ [GetDeckById; CreateCardsForDeck])
                 (revalidated w ++ [deck_path (generate_deckId input);
                                    dashboard_path]))
    | (Throw (ZodError found), d') =>
        (Failure (first_issue found) None,
         mkWorld d' (queries w ++ [GetDeckById; CreateCardsForDeck])
                 (revalidated w))
    | (Throw (Error m), d') =>
        (Failure (generation_error m) None,
         mkWorld d' (queries w ++ [GetDeckById; CreateCardsForDeck])
                 (revalidated w))
    end.
Proof.
  intros Ha Hf Hv Hk Hd Hg.
  unfold generateCardsWithAI, try_catch_generation. rewrite Ha, Hf. simpl.
  unfold generateCardsSchema_parse. rewrite Hv.
  unfold bind, lift, query_read, query, revalidatePath, ret. simpl.
  rewrite Hk, Hd, Hg. simpl.
  destruct (createCardsForDeck fault now (database w) (generate_deckId input)
                               userId output) as [[rows|[found|m]] d'];
    simpl; rewrite <- ?app_assoc; reflexivity.
Qed.

(** C6.  The candidates the generator returns pass the same checks as the
    sides of a manually entered card before anything is stored.  The schema
    handed to the generator itself checks only that both sides are strings;
    the checks are those of [createCardsForDeck].  When a subscriber asks
    for cards for an owned deck that has a description and the generator
    returns candidates of which one has a side that is empty or longer than
    1000 characters, the action answers with a failure whose message is the
    first validation message, and the database is as before: no candidate
    is stored.  When every candidate passes and the store runs the insert,
    one card per candidate is stored and returned. *)
Theorem generated_candidates_are_validated_before_persisting :
  forall (zod_message : BuiltinIssue -> string)
         (generateObject : GenerationRequest -> Completion (list CardFields))
         (fault : StoreFault)
         (now : Z) (a : Auth) (userId : string) (input : GenerateCardsInput)
         (w : World) (k : decksTable.row) (output : list CardFields),
    auth_userId a = Some userId ->
    has a "ai_flashcard_generation" = true ->
    generateCardsSchema_issues zod_message input = [] ->
    getDeckById (database w) (generate_deckId input) userId = Some k ->
    missing_description k = false ->
    generateObject
      (mkGenerationRequest
         (match generate_count input with Some n => n | None => 20 end)
         (topic_of k)) = Return output ->
    (forall c, candidate_issues c = [] <-> valid_candidate c)
    /\ (forall deckId c,
           0 < deckId ->
           createCardSchema_issues
             (mkCreateCardInput deckId (data_front c) (data_back c))
           = candidate_issues c)
    /\ (~ Forall valid_candidate output ->
        In (first_issue (flat_map candidate_issues output)) side_messages
        /\ generateCardsWithAI zod_message generateObject fault now a input w
           = (Failure (first_issue (flat_map candidate_issues output)) None,
              mkWorld (database w)
                      (queries w ++ [GetDeckById; CreateCardsForDeck])
                      (revalidated w)))
    /\ (Forall valid_candidate output ->
        fault_hits fault (List.length output) = None ->
        let rows := db.card_rows now (generate_deckId input)
                      (cards_identity (database w)) (map fields_of output) in
        generateCardsWithAI zod_message generateObject fault now a input w
        = (Success (rows, Z.of_nat (List.length rows)),
           mkWorld
             (mkDatabase (decks (database w)) (cards (database w) ++ rows)
                         (decks_identity (database w))
                         (cards_identity (database w)
                          + Z.of_nat (List.length (map fields_of output))))
             (queries w ++ [GetDeckById; CreateCardsForDeck])
             (revalidated w ++ [deck_path (generate_deckId input);
                                dashboard_path]))
        /\ Forall2 (persists (generate_deckId input)) output rows).
Proof.
  intros zm gen fault now a userId input w k output Ha Hf Hv Hk Hd Hg.
  pose proof (generateCardsWithAI_after_generation
                zm gen fault now a userId input w k output
                Ha Hf Hv Hk Hd Hg) as E.
  split; [exact candidate_issues_accepts|].
  split; [|split].
  - intros deckId c Hp. unfold createCardSchema_issues, candidate_issues.
    cbn [create_card_deckId create_card_front create_card_back].
    rewrite positive_issues.
    apply Z.ltb_lt in Hp. rewrite Hp. reflexivity.
  - intros Hn.
    assert (I : flat_map candidate_issues output <> []).
    { intros I. apply Hn. apply candidates_accepted. exact I. }
    split; [apply first_issue_of_candidates; exact I|].
    rewrite E. unfold createCardsForDeck.
    destruct (flat_map candidate_issues output) as [|m r];
      [congruence|]. destruct w; reflexivity.
  - intros Hall Hfault rows.
    split; [|apply card_rows_persist].
    rewrite E. unfold createCardsForDeck.
    apply candidates_accepted in Hall. rewrite Hall, Hk, Hfault.
    reflexivity.
Qed.

Lemma generated_candidates_are_validated_before_persisting_witness :
  auth_userId pro_user_a = Some "user_a"
  /\ has pro_user_a "ai_flashcard_generation" = true
  /\ getDeckById (database sample_world) 1 "user_a" = Some deck_a
  /\ generateCardsWithAI sample_zod_message careless_generator no_fault 200
       pro_user_a (mkGenerateCardsInput 1 (Some 1)) sample_world
     = (Failure "Question is required" None,
        mkWorld sample_database [GetDeckById; CreateCardsForDeck] []).
Proof.
  split; [reflexivity|]. split; [reflexivity|]. split; [reflexivity|].
  refine (proj2 (proj1 (proj2 (proj2
            (generated_candidates_are_validated_before_persisting
               sample_zod_message careless_generator no_fault 200 pro_user_a
               "user_a" (mkGenerateCardsInput 1 (Some 1))
               sample_world deck_a [mkCardFields "" oversized]
               eq_refl eq_refl eq_refl eq_refl eq_refl eq_refl))) _)).
  intros H. inversion H as [|? ? [[F _] _] _]; subst.
  simpl in F. lia.
Defined.

(** ** The study session *)

Lemma effect_currentIndex before after :
  currentIndex (effect before after) = currentIndex after.
Proof.
  unfold effect.
  destruct (currentIndex after =? currentIndex before); reflexivity.
Qed.

Lemma effect_studyCards before after :
  studyCards (effect before after) = studyCards after.
Proof.
  unfold effect.
  destruct (currentIndex after =? currentIndex before); reflexivity.
Qed.

Lemma effect_correctCount before after :
  correctCount (effect before after) = correctCount after.
Proof.
  unfold effect.
  destruct (currentIndex after =? currentIndex before); reflexivity.
Qed.

Lemma effect_incorrectCount before after :
  incorrectCount (effect before after) = incorrectCount after.
Proof.
  unfold effect.
  destruct (currentIndex after =? currentIndex before); reflexivity.
Qed.

Lemma effect_keeps_front_up before after :
  isFlipped after = false -> isFlipped (effect before after) = false.
Proof.
  unfold effect. intros H.
  destruct (currentIndex after =? currentIndex before); simpl; auto.
Qed.

Ltac effect_fields :=
  rewrite ?effect_currentIndex, ?effect_studyCards, ?effect_correctCount,
    ?effect_incorrectCount.

Lemma history_invariant cards h s :
  history cards h s -> session_invariant cards h s.
Proof.
  induction 1 as [|h s e s' Hh IH Hstep].
  - unfold session_invariant. simpl. repeat split; try lia. reflexivity.
  - destruct IH as (P & C & C1 & C2).
    unfold session_invariant.
    destruct Hstep;
      unfold handleFlip, handleNext, handlePrevious, handleShuffle,
        handleRestart, handleCorrect, handleIncorrect;
      try (destruct (currentIndex s <? size s - 1));
      try (destruct (0 <? currentIndex s));
      effect_fields; simpl; repeat split; try lia; try assumption;
      try reflexivity.
    all: eapply Permutation_trans; eassumption.
Qed.

Lemma history_index cards h s :
  history cards h s ->
  currentIndex s = index_after (Z.of_nat (List.length cards)) h.
Proof.
  induction 1 as [|h s e s' Hh IH Hstep]; [reflexivity|].
  assert (L : size s = Z.of_nat (List.length cards)).
  { unfold size. apply history_invariant in Hh. destruct Hh as (P & _).
    rewrite (Permutation_length P). reflexivity. }
  destruct Hstep;
    unfold handleFlip, handleNext, handlePrevious, handleShuffle,
      handleRestart, handleCorrect, handleIncorrect;
    effect_fields; simpl; rewrite <- ?IH, <- ?L; try reflexivity.
  - destruct (currentIndex s <? size s - 1); reflexivity.
  - destruct (0 <? currentIndex s); reflexivity.
Qed.

Lemma index_after_in_range n h : 1 <= n -> 0 <= index_after n h < n.
Proof.
  intros Hn. induction h as [|e r IH]; simpl; [lia|].
  destruct e; try lia.
  - destruct (Z.ltb_spec (index_after n r) (n - 1)); lia.
  - destruct (Z.ltb_spec 0 (index_after n r)); lia.
  - destruct (Z.ltb_spec (index_after n r) (n - 1)); lia.
  - destruct (Z.ltb_spec (index_after n r) (n - 1)); lia.
Qed.

Lemma marked_indices_in_range n h :
  1 <= n -> Forall (fun i => 0 <= i < n) (marked_indices n h).
Proof.
  intros Hn. induction h as [|e r IH]; simpl; [constructor|].
  destruct e; try assumption; try constructor; try assumption;
    apply index_after_in_range; exact Hn.
Qed.

Lemma marked_indices_count n h :
  Z.of_nat (List.length (marked_indices n h)) = marks_since_reset h.
Proof.
  induction h as [|e r IH]; simpl; [reflexivity|].
  destruct e; simpl; try assumption; try reflexivity; lia.
Qed.

(** Distinct indices below [n] are at most [n] many. *)
Lemma distinct_indices_bounded (n : nat) (l : list Z) :
  NoDup l -> Forall (fun i => 0 <= i < Z.of_nat n) l ->
  (List.length l <= n)%nat.
Proof.
  intros D R.
  rewrite <- (length_seq n 0), <- (length_map Z.of_nat).
  apply NoDup_incl_length; [exact D|].
  intros i Hi. rewrite Forall_forall in R. specialize (R i Hi).
  apply in_map_iff. exists (Z.to_nat i). split; [lia|].
  apply in_seq. lia.
Qed.

(** C8, as the code has it.  In every state the session reaches, the table
    holds as many cards as the snapshot and [correctCount + incorrectCount]
    is the number of marks given since the last shuffle or restart (since
    the start when there was none).  Over a snapshot that is not empty, the
    sum is within the number of cards whenever no index was marked twice in
    the current pass; the handlers themselves put no cap on it. *)
Theorem counters_count_marks_since_reset :
  forall (cards : list CardData) (h : list Event) (s : State),
    history cards h s ->
    List.length (studyCards s) = List.length cards
    /\ correctCount s + incorrectCount s = marks_since_reset h
    /\ 0 <= correctCount s
    /\ 0 <= incorrectCount s
    /\ (cards <> [] ->
        NoDup (marked_indices (size s) h) ->
        correctCount s + incorrectCount s <= size s).
Proof.
  intros cards h s H. apply history_invariant in H.
  destruct H as (P & C & C1 & C2).
  split; [symmetry; apply Permutation_length; exact P|].
  repeat split; try assumption.
  intros Hne D. rewrite C, <- (marked_indices_count (size s) h).
  apply inj_le. apply distinct_indices_bounded; [exact D|].
  apply marked_indices_in_range. unfold size.
  rewrite <- (Permutation_length P).
  destruct cards; [congruence | simpl; lia].
Qed.

Lemma counters_count_marks_since_reset_witness :
  history two_cards [markCorrect; flip]
          (handleCorrect (handleFlip (initial two_cards)))
  /\ correctCount (handleCorrect (handleFlip (initial two_cards)))
     + incorrectCount (handleCorrect (handleFlip (initial two_cards)))
     = 1.
Proof.
  assert (H : history two_cards [markCorrect; flip]
                      (handleCorrect (handleFlip (initial two_cards)))).
  { eapply history_step; [eapply history_step; [apply history_start|]|];
      constructor. }
  split; [exact H|].
  exact (proj1 (proj2 (counters_count_marks_since_reset _ _ _ H))).
Defined.

(** From the spec's scenario: over three cards, [flip] then [markCorrect]
    leaves the session at index 1, front up, with one correct answer; at
    the last index [next] changes nothing. *)
Example flip_then_markCorrect :
  let s := handleCorrect (handleFlip (initial [card_1; card_2; card_3])) in
  currentIndex s = 1 /\ isFlipped s = false /\ correctCount s = 1
  /\ handleNext (handleNext (handleNext (initial [card_1; card_2; card_3])))
     = handleNext (handleNext (initial [card_1; card_2; card_3])).
Proof. repeat split. Qed.

(** C8, as stated, fails.  With two cards: flip, mark correct (the session
    moves to the last card, front up), flip, mark correct, mark correct.
    The last card stays revealed after the first of its two marks, so both
    are offered by the page; the counters then hold 3 for 2 cards. *)
Lemma marking_the_last_card_again_exceeds_the_deck :
  let s := handleCorrect
             (handleCorrect
                (handleFlip (handleCorrect (handleFlip (initial two_cards)))))
  in
  reachable two_cards s
  /\ isFlipped (handleFlip (initial two_cards)) = true
  /\ isFlipped (handleFlip (handleCorrect (handleFlip (initial two_cards))))
     = true
  /\ isFlipped (handleCorrect
                  (handleFlip (handleCorrect (handleFlip (initial two_cards)))))
     = true
  /\ correctCount s + incorrectCount s = 3
  /\ size s = 2
  /\ ~ (correctCount s + incorrectCount s <= size s).
Proof.
  split.
  - exists [markCorrect; markCorrect; flip; markCorrect; flip].
    repeat (eapply history_step; [|constructor]). apply history_start.
  - repeat split. apply Z.lt_nge. reflexivity.
Qed.

(** C9. From any state the session reaches, a shuffle is possible, and
    every state it leads to shows a rearrangement of the whole snapshot (the
    same cards, hence the same ids with the same multiplicities and the same
    set of ids), at index 0, front up, with both counters at 0. *)
Theorem shuffle_rearranges_snapshot_and_resets :
  forall (cards : list CardData) (s s' : State),
    reachable cards s ->
    step cards s shuffle s' ->
    Permutation cards (studyCards s')
    /\ Permutation (map cardsTable.id cards)
                   (map cardsTable.id (studyCards s'))
    /\ (forall i, In i (map cardsTable.id (studyCards s'))
                  <-> In i (map cardsTable.id cards))
    /\ currentIndex s' = 0
    /\ isFlipped s' = false
    /\ correctCount s' = 0
    /\ incorrectCount s' = 0
    /\ (exists s'', step cards s shuffle s'').
Proof.
  intros cards s s' [h H] Hstep.
  apply history_invariant in H. destruct H as (P & _).
  inversion Hstep as [| | |s0 shuffled Hperm| | |]; subst.
  assert (Q : Permutation cards
                (studyCards (handleShuffle shuffled s))).
  { unfold handleShuffle. effect_fields. simpl.
    eapply Permutation_trans; eassumption. }
  split; [exact Q|].
  split; [apply Permutation_map; exact Q|].
  split.
  { intros i. split; apply Permutation_in; apply Permutation_map;
      [symmetry|]; exact Q. }
  unfold handleShuffle.
  split; [effect_fields; reflexivity|].
  split; [apply effect_keeps_front_up; reflexivity|].
  split; [effect_fields; reflexivity|].
  split; [effect_fields; reflexivity|].
  exists (handleShuffle (studyCards s) s). constructor. reflexivity.
Qed.

Lemma shuffle_rearranges_snapshot_and_resets_witness :
  reachable two_cards (handleCorrect (handleFlip (initial two_cards)))
  /\ step two_cards (handleCorrect (handleFlip (initial two_cards))) shuffle
          (handleShuffle [card_2; card_1]
             (handleCorrect (handleFlip (initial two_cards))))
  /\ Permutation two_cards
       (studyCards
          (handleShuffle [card_2; card_1]
             (handleCorrect (handleFlip (initial two_cards))))).
Proof.
  assert (R : reachable two_cards
                (handleCorrect (handleFlip (initial two_cards)))).
  { exists [markCorrect; flip].
    repeat (eapply history_step; [|constructor]). apply history_start. }
  assert (S : step two_cards
                (handleCorrect (handleFlip (initial two_cards))) shuffle
                (handleShuffle [card_2; card_1]
                   (handleCorrect (handleFlip (initial two_cards))))).
  { constructor. apply perm_swap. }
  split; [exact R|]. split; [exact S|].
  exact (proj1 (shuffle_rearranges_snapshot_and_resets _ _ _ R S)).
Defined.

(** * Further properties of the query layer *)

(** ** Ordering *)

Lemma insert_desc_by_rearranges {A : Type} (key : A -> Z) (x : A)
      (l : list A) :
  Permutation (x :: l) (insert_desc_by key x l).
Proof.
  induction l as [|y r IH]; simpl; [reflexivity|].
  destruct (key y <? key x); [reflexivity|].
  eapply Permutation_trans; [apply perm_swap|].
  apply perm_skip. exact IH.
Qed.

Lemma orderBy_desc_rearranges {A : Type} (key : A -> Z) (l : list A) :
  Permutation l (orderBy_desc key l).
Proof.
  induction l as [|x r IH]; simpl; [reflexivity|].
  eapply Permutation_trans; [apply perm_skip; exact IH|].
  apply insert_desc_by_rearranges.
Qed.

Lemma insert_desc_by_sorted {A : Type} (key : A -> Z) (x : A) (l : list A) :
  sorted_desc key l -> sorted_desc key (insert_desc_by key x l).
Proof.
  unfold sorted_desc. induction l as [|y r IH]; intros S; simpl.
  - repeat constructor.
  - destruct (Z.ltb_spec (key y) (key x)) as [L|L].
    + constructor; [exact S|]. constructor. lia.
    + inversion S as [|? ? Sr Hd]; subst.
      constructor; [apply IH; exact Sr|].
      destruct r as [|y' r']; simpl.
      * constructor. lia.
      * destruct (key y' <? key x); constructor; [lia|].
        inversion Hd; subst. assumption.
Qed.

Lemma orderBy_desc_sorted {A : Type} (key : A -> Z) (l : list A) :
  sorted_desc key (orderBy_desc key l).
Proof.
  induction l as [|x r IH]; simpl.
  - constructor.
  - apply insert_desc_by_sorted. exact IH.
Qed.

Lemma card_order_is_orderBy_desc (l : list cardsTable.row) :
  db.orderBy_desc_updatedAt l = orderBy_desc cardsTable.updatedAt l.
Proof.
  unfold db.orderBy_desc_updatedAt, orderBy_desc.
  induction l as [|x r IH]; simpl; [reflexivity|].
  rewrite IH. generalize (fold_right (insert_desc_by cardsTable.updatedAt) [] r).
  intros m. induction m as [|y m IHm]; simpl; [reflexivity|].
  rewrite IHm. reflexivity.
Qed.

Lemma getDeckCards_of_owned_deck d deckId userId k :
  getDeckById d deckId userId = Some k ->
  exists l,
    getDeckCards d deckId userId = Some l
    /\ Permutation
         (filter (fun c => cardsTable.deckId c =? deckId) (cards d)) l
    /\ sorted_desc cardsTable.updatedAt l.
Proof.
  intros G. unfold getDeckCards. rewrite G.
  unfold db.select_cards. rewrite card_order_is_orderBy_desc.
  eexists. split; [reflexivity|].
  split; [apply orderBy_desc_rearranges | apply orderBy_desc_sorted].
Qed.

(** X1. For a deck the user owns, [getDeckCards] answers with a list (never
    [null]) that holds exactly the cards of that deck, each as often as the
    table does, latest [updatedAt] first; when the deck has no card the list
    is empty. *)
Theorem getDeckCards_lists_the_deck_latest_first :
  forall (d : Database) (deckId : Z) (userId : string) (k : decksTable.row),
    getDeckById d deckId userId = Some k ->
    exists l,
      getDeckCards d deckId userId = Some l
      /\ Permutation
           (filter (fun c => cardsTable.deckId c =? deckId) (cards d)) l
      /\ sorted_desc cardsTable.updatedAt l
      /\ (forall c, In c l <-> In c (cards d) /\ cardsTable.deckId c = deckId)
      /\ ((forall c, In c (cards d) -> cardsTable.deckId c <> deckId) ->
          l = []).
Proof.
  intros d deckId userId k G.
  destruct (getDeckCards_of_owned_deck d deckId userId k G) as [l (E & P & S)].
  exists l. split; [exact E|]. split; [exact P|]. split; [exact S|]. split.
  - intros c. split.
    + intros H. apply (Permutation_in _ (Permutation_sym P)) in H.
      apply filter_In in H. rewrite Z.eqb_eq in H. exact H.
    + intros H. apply (Permutation_in _ P). apply filter_In.
      rewrite Z.eqb_eq. exact H.
  - intros Hnone. apply Permutation_nil.
    destruct (filter (fun c => cardsTable.deckId c =? deckId) (cards d))
      as [|c r] eqn:Eo; [exact P|].
    exfalso.
    assert (Hc : In c (filter (fun c => cardsTable.deckId c =? deckId)
                              (cards d)))
      by (rewrite Eo; left; reflexivity).
    apply filter_In in Hc. destruct Hc as [Hin Hid].
    apply Z.eqb_eq in Hid. exact (Hnone c Hin Hid).
Qed.

Lemma getDeckCards_lists_the_deck_latest_first_witness :
  getDeckById sample_database 1 "user_a" = Some deck_a
  /\ exists l, getDeckCards sample_database 1 "user_a" = Some l
               /\ sorted_desc cardsTable.updatedAt l.
Proof.
  split; [reflexivity|].
  destruct (getDeckCards_lists_the_deck_latest_first
              sample_database 1 "user_a" deck_a eq_refl)
    as [l [E [_ [S _]]]].
  exists l. split; [exact E | exact S].
Defined.

(** ** Cards through their decks *)

Lemma filter_of_map {A B : Type} (p : B -> bool) (g : A -> B) (l : list A) :
  filter p (map g l) = map g (filter (fun x => p (g x)) l).
Proof.
  induction l as [|x r IH]; simpl; [reflexivity|].
  rewrite IH. destruct (p (g x)); reflexivity.
Qed.

Lemma existsb_of_filter {A : Type} (p q : A -> bool) (l : list A) :
  existsb (fun x => p x && q x) l = existsb q (filter p l).
Proof.
  induction l as [|x r IH]; simpl; [reflexivity|].
  rewrite IH. destruct (p x); simpl; reflexivity.
Qed.

Lemma existsb_false_filter_nil {A : Type} (q : A -> bool) (l : list A) :
  existsb q l = false -> filter q l = [].
Proof.
  induction l as [|x r IH]; simpl; [reflexivity|].
  destruct (q x); simpl; [discriminate | exact IH].
Qed.

Lemma existsb_true_filter_cons {A : Type} (q : A -> bool) (l : list A) :
  existsb q l = true -> exists x r, filter q l = x :: r.
Proof.
  intros H. destruct (filter q l) as [|x r] eqn:E; [|eauto].
  apply existsb_exists in H. destruct H as [x [Hin Hq]].
  assert (X : In x (filter q l)) by (apply filter_In; auto).
  rewrite E in X. destruct X.
Qed.

(** The rows the join gives one card [c], filtered by card id and owner. *)
Lemma joined_rows_of_card (ds : list decksTable.row) (cardId : Z)
      (userId : string) (c : cardsTable.row) :
  filter (fun r => (cardsTable.id (fst r) =? cardId)
                   && owned_by userId (snd r))
         (match filter (fun k => cardsTable.deckId c =? decksTable.id k) ds with
          | [] => [(c, None)]
          | ms => map (fun k => (c, Some k)) ms
          end)
  = map (fun k => (c, Some k))
        (filter (fun k => (cardsTable.id c =? cardId)
                          && (decksTable.userId k =? userId)%string)
                (filter (fun k => cardsTable.deckId c =? decksTable.id k) ds)).
Proof.
  destruct (filter (fun k => cardsTable.deckId c =? decksTable.id k) ds)
    as [|m ms].
  - simpl. rewrite andb_false_r. reflexivity.
  - rewrite filter_of_map. reflexivity.
Qed.

Lemma filter_nothing {A : Type} (l : list A) :
  filter (fun _ => false) l = [].
Proof. induction l; simpl; auto. Qed.

Lemma getCardById_first_of_user_cards d cardId userId :
  getCardById d cardId userId
  = hd_error (filter (fun c => cardsTable.id c =? cardId)
                     (user_cards d userId)).
Proof.
  unfold getCardById, cards_with_decks, db.leftJoin, user_cards.
  generalize (cards d) as cs. generalize (decks d) as ds. intros ds cs.
  induction cs as [|c cs IH]; [reflexivity|].
  simpl flat_map. rewrite filter_app, joined_rows_of_card.
  change (filter (owned_card ds userId) (c :: cs))
    with (if owned_card ds userId c
          then c :: filter (owned_card ds userId) cs
          else filter (owned_card ds userId) cs).
  assert (O : owned_card ds userId c
              = existsb (fun k => (decksTable.userId k =? userId)%string)
                  (filter (fun k => cardsTable.deckId c =? decksTable.id k)
                          ds)).
  { unfold owned_card. apply existsb_of_filter. }
  rewrite O. clear O.
  set (ms := filter (fun k => cardsTable.deckId c =? decksTable.id k) ds).
  destruct (cardsTable.id c =? cardId) eqn:Eid.
  - rewrite (filter_ext
               (fun k => true && (decksTable.userId k =? userId)%string)
               (fun k => (decksTable.userId k =? userId)%string))
      by (intros; reflexivity).
    destruct (existsb (fun k => (decksTable.userId k =? userId)%string) ms)
      eqn:Eo.
    + destruct (existsb_true_filter_cons _ _ Eo) as [x [r E]].
      rewrite E. simpl. rewrite Eid. reflexivity.
    + rewrite (existsb_false_filter_nil _ _ Eo). simpl. exact IH.
  - rewrite (filter_ext
               (fun k => false && (decksTable.userId k =? userId)%string)
               (fun _ => false))
      by (intros; reflexivity).
    rewrite filter_nothing. simpl app.
    destruct (existsb (fun k => (decksTable.userId k =? userId)%string) ms);
      simpl; rewrite ?Eid; exact IH.
Qed.

Lemma owned_card_spec ds userId c :
  owned_card ds userId c = true
  <-> exists k, In k ds /\ decksTable.id k = cardsTable.deckId c
                /\ decksTable.userId k = userId.
Proof.
  unfold owned_card. rewrite existsb_exists. split.
  - intros [k [Hin H]]. apply andb_true_iff in H. destruct H as [H1 H2].
    apply Z.eqb_eq in H1. apply String.eqb_eq in H2. exists k. auto.
  - intros [k [Hin [H1 H2]]]. exists k. split; [exact Hin|].
    apply andb_true_iff. split; [apply Z.eqb_eq; auto | apply String.eqb_eq; auto].
Qed.

(** What the statement of [getCardById] selects: a stored card with the
    requested id in a deck of the user, and no row exactly when there is no
    such card. *)
Lemma getCardById_selects_through_deck :
  forall (d : Database) (cardId : Z) (userId : string),
    (forall c, getCardById d cardId userId = Some c ->
               In c (cards d) /\ cardsTable.id c = cardId
               /\ exists k, In k (decks d)
                            /\ decksTable.id k = cardsTable.deckId c
                            /\ decksTable.userId k = userId)
    /\ (getCardById d cardId userId = None
        <-> ~ (exists c k, In c (cards d) /\ cardsTable.id c = cardId
                           /\ In k (decks d)
                           /\ decksTable.id k = cardsTable.deckId c
                           /\ decksTable.userId k = userId)).
Proof.
  intros d cardId userId. rewrite getCardById_first_of_user_cards.
  pose proof (first_of_filter (fun c => cardsTable.id c =? cardId)
                              (user_cards d userId)) as F.
  destruct (filter _ (user_cards d userId)) as [|x r]; simpl.
  - split; [discriminate|]. split; [|reflexivity].
    intros _ [c [k [Hc [Hid [Hk [Hd Hu]]]]]].
    assert (X : In c (user_cards d userId)).
    { apply filter_In. split; [exact Hc|]. apply owned_card_spec. eauto. }
    apply F in X. apply Z.eqb_neq in X. contradiction.
  - destruct F as [Hin Hid]. apply filter_In in Hin.
    destruct Hin as [Hin Ho]. apply owned_card_spec in Ho.
    apply Z.eqb_eq in Hid. split.
    + intros c E. injection E as <-. auto.
    + split; [discriminate|]. intros N. exfalso. apply N.
      destruct Ho as [k Hk]. exists x, k. tauto.
Qed.

(** X2. [getCardById] resolves ownership through the card's deck.  For a
    card id that fits the 32-bit [id] column the call returns: the card it
    yields is stored, has the requested id and belongs to a deck of the
    user; it yields [null] exactly when no stored card with that id belongs
    to a deck of the user (so a card of somebody else looks like a missing
    card).  For a card id outside that range the call throws the driver's
    error instead. *)
Theorem getCardById_scoped_through_deck :
  forall (failed_query : Select -> Z -> string -> string)
         (d : Database) (cardId : Z) (userId : string),
    (int4 cardId = true ->
     exists o,
       Pg.getCardById failed_query d cardId userId = Return o
       /\ o = getCardById d cardId userId
       /\ (forall c, o = Some c ->
                     In c (cards d) /\ cardsTable.id c = cardId
                     /\ exists k, In k (decks d)
                                  /\ decksTable.id k = cardsTable.deckId c
                                  /\ decksTable.userId k = userId)
       /\ (o = None
           <-> ~ (exists c k, In c (cards d) /\ cardsTable.id c = cardId
                              /\ In k (decks d)
                              /\ decksTable.id k = cardsTable.deckId c
                              /\ decksTable.userId k = userId)))
    /\ (int4 cardId = false ->
        Pg.getCardById failed_query d cardId userId
        = Throw (Error (failed_query card_by_id cardId userId))).
Proof.
  intros failed_query d cardId userId. unfold Pg.getCardById, Pg.refuse.
  split; intros R; rewrite R; [|reflexivity].
  exists (getCardById d cardId userId).
  split; [reflexivity|]. split; [reflexivity|].
  exact (getCardById_selects_through_deck d cardId userId).
Qed.

Lemma joined_with_deck d c k :
  In (c, Some k) (cards_with_decks d)
  <-> In c (cards d) /\ In k (decks d)
      /\ cardsTable.deckId c = decksTable.id k.
Proof.
  unfold cards_with_decks, db.leftJoin. rewrite in_flat_map. split.
  - intros [c' [Hc' H]].
    destruct (filter (fun k0 => cardsTable.deckId c' =? decksTable.id k0)
                     (decks d)) as [|m ms] eqn:E.
    + destruct H as [H|[]]. discriminate.
    + apply in_map_iff in H. destruct H as [k' [H Hk']].
      injection H as -> ->. rewrite <- E in Hk'.
      apply filter_In in Hk'. rewrite Z.eqb_eq in Hk'. tauto.
  - intros (Hc & Hk & Hid). exists c. split; [exact Hc|].
    assert (X : In k (filter (fun k0 => cardsTable.deckId c =? decksTable.id k0)
                             (decks d))).
    { apply filter_In. rewrite Z.eqb_eq. auto. }
    destruct (filter _ (decks d)) as [|m ms]; [destruct X|].
    apply in_map_iff. exists k. auto.
Qed.

Lemma filter_unique_id (x : Z) (ds : list decksTable.row) :
  NoDup (map decksTable.id ds) ->
  filter (fun k => x =? decksTable.id k) ds = []
  \/ exists k, filter (fun k => x =? decksTable.id k) ds = [k].
Proof.
  induction ds as [|k r IH]; simpl; intros N; [left; reflexivity|].
  inversion N as [|? ? Hnotin Nr]; subst.
  destruct (Z.eqb_spec x (decksTable.id k)) as [E|E].
  - right. exists k. f_equal.
    destruct (filter (fun k0 => x =? decksTable.id k0) r) as [|y t] eqn:F;
      [reflexivity|].
    exfalso. apply Hnotin.
    assert (Y : In y (filter (fun k0 => x =? decksTable.id k0) r))
      by (rewrite F; left; reflexivity).
    apply filter_In in Y. destruct Y as [Y1 Y2]. apply Z.eqb_eq in Y2.
    rewrite <- E, Y2. apply in_map. exact Y1.
  - apply IH. exact Nr.
Qed.

(** X3. [getAllUserCards] returns a card together with a deck name exactly
    when the card is stored and the name is that of a stored deck of the
    user which the card references.  When deck ids are unique, as the
    primary key makes them, the cards returned are the cards of the user's
    decks, each once, in table order. *)
Theorem getAllUserCards_lists_cards_of_own_decks :
  forall (d : Database) (userId : string),
    (forall c n,
        In (c, n) (getAllUserCards d userId)
        <-> In c (cards d)
            /\ exists k, In k (decks d)
                         /\ decksTable.id k = cardsTable.deckId c
                         /\ decksTable.userId k = userId
                         /\ n = Some (decksTable.name k))
    /\ (NoDup (map decksTable.id (decks d)) ->
        map fst (getAllUserCards d userId) = user_cards d userId).
Proof.
  intros d userId. split.
  - intros c n. unfold getAllUserCards. rewrite in_map_iff. split.
    + intros [[c' o] [E H]]. simpl in E. injection E as -> <-.
      apply filter_In in H. destruct H as [Hin Ho]. simpl in Ho.
      destruct o as [k|]; [|discriminate].
      apply joined_with_deck in Hin. destruct Hin as (Hc & Hk & Hid).
      apply String.eqb_eq in Ho. split; [exact Hc|].
      exists k. simpl. auto.
    + intros [Hc [k (Hk & Hid & Hu & ->)]].
      exists (c, Some k). split; [reflexivity|].
      apply filter_In. split.
      * apply joined_with_deck. auto.
      * simpl. apply String.eqb_eq. exact Hu.
  - intros N. unfold getAllUserCards, cards_with_decks, db.leftJoin, user_cards.
    rewrite map_map. simpl.
    generalize (cards d) as cs. intros cs.
    induction cs as [|c cs IH]; [reflexivity|].
    simpl flat_map. rewrite filter_app, map_app, IH.
    change (filter (owned_card (decks d) userId) (c :: cs))
      with (if owned_card (decks d) userId c
            then c :: filter (owned_card (decks d) userId) cs
            else filter (owned_card (decks d) userId) cs).
    assert (O : owned_card (decks d) userId c
                = existsb (fun k => (decksTable.userId k =? userId)%string)
                    (filter (fun k => cardsTable.deckId c =? decksTable.id k)
                            (decks d))).
    { unfold owned_card. apply existsb_of_filter. }
    rewrite O. clear O.
    destruct (filter_unique_id (cardsTable.deckId c) (decks d) N) as [E|[k E]];
      rewrite E; simpl.
    + reflexivity.
    + destruct (decksTable.userId k =? userId)%string; reflexivity.
Qed.

(** ** Decks with their card counts *)

Lemma cardCount_is_deck_size d k :
  cardCount d k
  = Z.of_nat (List.length
                (filter (fun c => cardsTable.deckId c =? decksTable.id k)
                        (cards d))).
Proof.
  unfold cardCount. do 2 f_equal. apply filter_ext.
  intros c. apply Z.eqb_sym.
Qed.

(** X4. [getUserDecksWithCardCount] lists the decks of the user, each as
    often as [getUserDecks] does, latest [updatedAt] first, and the count
    beside a deck is the number of cards [getDeckCards] returns for it. *)
Theorem getUserDecksWithCardCount_counts_and_orders :
  forall (d : Database) (userId : string),
    Permutation (getUserDecks d userId)
                (map fst (getUserDecksWithCardCount d userId))
    /\ sorted_desc (fun r => decksTable.updatedAt (fst r))
                   (getUserDecksWithCardCount d userId)
    /\ (forall k n,
           In (k, n) (getUserDecksWithCardCount d userId) ->
           In k (decks d) /\ decksTable.userId k = userId
           /\ exists l, getDeckCards d (decksTable.id k) userId = Some l
                        /\ n = Z.of_nat (List.length l)).
Proof.
  intros d userId. unfold getUserDecksWithCardCount.
  set (key := fun r : decksTable.row * Z => decksTable.updatedAt (fst r)).
  set (rows := map (fun k => (k, cardCount d k))
                   (db.select_decks
                      (fun k => (decksTable.userId k =? userId)%string) d)).
  pose proof (orderBy_desc_rearranges key rows) as P.
  split; [|split].
  - apply (Permutation_map fst) in P.
    unfold rows in P at 1. rewrite map_map in P. simpl in P.
    rewrite map_id in P. exact P.
  - apply orderBy_desc_sorted.
  - intros k n H. apply (Permutation_in _ (Permutation_sym P)) in H.
    unfold rows in H. apply in_map_iff in H. destruct H as [k' [E H]].
    injection E as -> <-. unfold db.select_decks in H.
    apply filter_In in H. destruct H as [Hin Hu].
    apply String.eqb_eq in Hu. split; [exact Hin|]. split; [exact Hu|].
    destruct (getDeckById d (decksTable.id k) userId) as [k0|] eqn:G.
    + destruct (getDeckCards_of_owned_deck _ _ _ _ G) as [l (E & Pl & _)].
      exists l. split; [exact E|].
      rewrite cardCount_is_deck_size, (Permutation_length Pl). reflexivity.
    + exfalso. apply (getDeckById_None _ _ _ G k Hin).
      split; [reflexivity | exact Hu].
Qed.

(** ** The schema's constraints are kept by every write *)

Lemma NoDup_map_filter {A : Type} (key : A -> Z) (p : A -> bool)
      (l : list A) :
  NoDup (map key l) -> NoDup (map key (filter p l)).
Proof.
  induction l as [|x r IH]; simpl; intros N; [constructor|].
  inversion N as [|? ? Hnotin Nr]; subst.
  destruct (p x); simpl; [|apply IH; exact Nr].
  constructor; [|apply IH; exact Nr].
  intros H. apply Hnotin. apply in_map_iff in H.
  destruct H as [y [E Hy]]. apply filter_In in Hy.
  rewrite <- E. apply in_map. tauto.
Qed.

Lemma map_key_kept {A : Type} (key : A -> Z) (f : A -> A) (l : list A) :
  (forall x, key (f x) = key x) -> map key (map f l) = map key l.
Proof.
  intros H. rewrite map_map. apply map_ext. exact H.
Qed.

Lemma NoDup_map_snoc {A : Type} (key : A -> Z) (l : list A) (x : A) :
  NoDup (map key l) -> (forall y, In y l -> key y < key x) ->
  NoDup (map key (l ++ [x])).
Proof.
  intros N H. rewrite map_app. apply NoDup_app; [exact N| |].
  - simpl. constructor; [intros [] | constructor].
  - intros a Ha [E|[]]. apply in_map_iff in Ha.
    destruct Ha as [y [Ey Hy]]. specialize (H y Hy). lia.
Qed.

Lemma update_keeps_deck_id (b : bool) name description now (x : decksTable.row) :
  decksTable.id (if b then db.set_deck name description now x else x)
  = decksTable.id x.
Proof. destruct b; reflexivity. Qed.

Lemma update_keeps_deck_owner (b : bool) name description now (x : decksTable.row) :
  decksTable.userId
    (if b then db.set_deck name description now x else x)
  = decksTable.userId x.
Proof. destruct b; reflexivity. Qed.

Lemma update_keeps_card_id (b : bool) front back now (x : cardsTable.row) :
  cardsTable.id (if b then db.set_card front back now x else x)
  = cardsTable.id x.
Proof. destruct b; reflexivity. Qed.

Lemma update_keeps_card_deck (b : bool) front back now (x : cardsTable.row) :
  cardsTable.deckId (if b then db.set_card front back now x else x)
  = cardsTable.deckId x.
Proof. destruct b; reflexivity. Qed.

Lemma createDeckForUser_well_formed now d userId data :
  well_formed d -> well_formed (snd (createDeckForUser now d userId data)).
Proof.
  intros (N1 & N2 & I1 & I2 & F). unfold createDeckForUser, db.insert_deck.
  unfold well_formed. simpl. repeat split.
  - apply NoDup_map_snoc; [exact N1|]. simpl. exact I1.
  - exact N2.
  - intros k Hk. apply in_app_or in Hk. destruct Hk as [Hk|[<-|[]]].
    + specialize (I1 k Hk). lia.
    + simpl. lia.
  - exact I2.
  - intros c Hc. destruct (F c Hc) as [k [Hk E]].
    exists k. split; [apply in_or_app; left; exact Hk | exact E].
Qed.

Lemma updateDeckForUser_well_formed now d deckId userId data :
  well_formed d ->
  well_formed (snd (updateDeckForUser now d deckId userId data)).
Proof.
  intros W. unfold updateDeckForUser.
  destruct (getDeckById d deckId userId); [|exact W].
  destruct W as (N1 & N2 & I1 & I2 & F). unfold well_formed. simpl.
  repeat split.
  - rewrite map_key_kept; [exact N1|].
    intros x. apply update_keeps_deck_id.
  - exact N2.
  - intros k Hk. apply in_map_iff in Hk. destruct Hk as [x [<- Hx]].
    rewrite update_keeps_deck_id. apply I1. exact Hx.
  - exact I2.
  - intros c Hc. destruct (F c Hc) as [k [Hk E]].
    eexists. split; [apply in_map; exact Hk|].
    rewrite update_keeps_deck_id. exact E.
Qed.

Lemma deleteDeckForUser_well_formed d deckId userId :
  well_formed d -> well_formed (snd (deleteDeckForUser d deckId userId)).
Proof.
  intros W. unfold deleteDeckForUser.
  destruct (getDeckById d deckId userId); [|exact W].
  destruct W as (N1 & N2 & I1 & I2 & F).
  unfold well_formed, db.delete_decks. simpl. repeat split.
  - apply NoDup_map_filter. exact N1.
  - apply NoDup_map_filter. exact N2.
  - intros k Hk. apply filter_In in Hk. apply I1. tauto.
  - intros c Hc. apply filter_In in Hc. apply I2. tauto.
  - intros c Hc. apply filter_In in Hc. destruct Hc as [Hc Hr].
    destruct (F c Hc) as [k [Hk E]]. exists k. split; [|exact E].
    apply filter_In. split; [exact Hk|].
    destruct (decksTable.id k =? deckId) eqn:Ek; [|reflexivity].
    exfalso. apply negb_true_iff in Hr. unfold db.references_removed in Hr.
    assert (X : existsb (fun k0 => decksTable.id k0 =? cardsTable.deckId c)
                  (filter (fun k0 => decksTable.id k0 =? deckId) (decks d))
                = true).
    { apply existsb_exists. exists k. split.
      - apply filter_In. auto.
      - apply Z.eqb_eq. exact E. }
    congruence.
Qed.

Lemma createCardForDeck_well_formed now d deckId userId data :
  well_formed d ->
  well_formed (snd (createCardForDeck now d deckId userId data)).
Proof.
  intros W. unfold createCardForDeck.
  destruct (getDeckById d deckId userId) as [k|] eqn:G; [|exact W].
  apply getDeckById_Some in G. destruct G as [Hk [Hid _]].
  destruct W as (N1 & N2 & I1 & I2 & F). unfold well_formed. simpl.
  repeat split.
  - exact N1.
  - apply NoDup_map_snoc; [exact N2|]. simpl. exact I2.
  - exact I1.
  - intros c Hc. apply in_app_or in Hc. destruct Hc as [Hc|[<-|[]]].
    + specialize (I2 c Hc). lia.
    + simpl. lia.
  - intros c Hc. apply in_app_or in Hc. destruct Hc as [Hc|[<-|[]]].
    + apply F. exact Hc.
    + exists k. simpl. auto.
Qed.

Lemma updateCardForUser_well_formed now d cardId userId data :
  well_formed d ->
  well_formed (snd (updateCardForUser now d cardId userId data)).
Proof.
  intros W. unfold updateCardForUser.
  destruct (getCardById d cardId userId); [|exact W].
  destruct W as (N1 & N2 & I1 & I2 & F). unfold well_formed. simpl.
  repeat split.
  - exact N1.
  - rewrite map_key_kept; [exact N2|].
    intros x. apply update_keeps_card_id.
  - exact I1.
  - intros c Hc. apply in_map_iff in Hc. destruct Hc as [x [<- Hx]].
    rewrite update_keeps_card_id. apply I2. exact Hx.
  - intros c Hc. apply in_map_iff in Hc. destruct Hc as [x [<- Hx]].
    rewrite update_keeps_card_deck. apply F. exact Hx.
Qed.

Lemma delete_cards_well_formed w d :
  well_formed d -> well_formed (db.delete_cards w d).
Proof.
  intros (N1 & N2 & I1 & I2 & F). unfold well_formed, db.delete_cards. simpl.
  repeat split.
  - exact N1.
  - apply NoDup_map_filter. exact N2.
  - exact I1.
  - intros c Hc. apply filter_In in Hc. apply I2. tauto.
  - intros c Hc. apply filter_In in Hc. apply F. tauto.
Qed.

(** X5. The constraints of the schema survive every write of the query
    layer: on a database where deck ids and card ids are unique and below
    their identity counters and every card references a stored deck, the
    same holds after [createDeckForUser], [updateDeckForUser],
    [deleteDeckForUser], [createCardForDeck], [updateCardForUser],
    [deleteCardForUser] and [deleteAllCardsInDeck], whether the call
    succeeds or throws.  In particular no write leaves a card without its
    deck. *)
Theorem writes_keep_schema_constraints :
  forall (d : Database),
    well_formed d ->
    forall (now rowId : Z) (userId : string)
           (deckData : DeckFields) (cardData : CardFields),
      well_formed (snd (createDeckForUser now d userId deckData))
      /\ well_formed (snd (updateDeckForUser now d rowId userId deckData))
      /\ well_formed (snd (deleteDeckForUser d rowId userId))
      /\ well_formed (snd (createCardForDeck now d rowId userId cardData))
      /\ well_formed (snd (updateCardForUser now d rowId userId cardData))
      /\ well_formed (snd (deleteCardForUser d rowId userId))
      /\ well_formed (snd (deleteAllCardsInDeck d rowId userId)).
Proof.
  intros d W now rowId userId deckData cardData.
  split; [apply createDeckForUser_well_formed; exact W|].
  split; [apply updateDeckForUser_well_formed; exact W|].
  split; [apply deleteDeckForUser_well_formed; exact W|].
  split; [apply createCardForDeck_well_formed; exact W|].
  split; [apply updateCardForUser_well_formed; exact W|].
  split.
  - unfold deleteCardForUser.
    destruct (getCardById d rowId userId); [|exact W].
    apply delete_cards_well_formed. exact W.
  - unfold deleteAllCardsInDeck.
    destruct (getDeckById d rowId userId); [|exact W].
    apply delete_cards_well_formed. exact W.
Qed.

Lemma sample_database_well_formed : well_formed sample_database.
Proof.
  unfold well_formed, sample_database. simpl. repeat split.
  - repeat constructor; simpl; intuition discriminate.
  - repeat constructor; simpl; intuition discriminate.
  - intros k [<-|[<-|[]]]; reflexivity.
  - intros c [<-|[<-|[<-|[]]]]; reflexivity.
  - intros c [<-|[<-|[<-|[]]]]; simpl;
      [exists deck_a | exists deck_a | exists deck_b]; simpl; auto.
Defined.

Lemma writes_keep_schema_constraints_witness :
  well_formed sample_database
  /\ well_formed (snd (deleteDeckForUser sample_database 1 "user_a")).
Proof.
  split; [exact sample_database_well_formed|].
  exact (proj1 (proj2 (proj2 (writes_keep_schema_constraints
                                sample_database sample_database_well_formed
                                0 1 "user_a" (mkDeckFields "" None)
                                (mkCardFields "" ""))))).
Defined.

(** ** Reading back what was written *)

Lemma filter_none {A : Type} (p : A -> bool) (l : list A) :
  (forall x, In x l -> p x = false) -> filter p l = [].
Proof.
  intros H. induction l as [|x r IH]; simpl; [reflexivity|].
  rewrite (H x (or_introl eq_refl)). apply IH.
  intros y Hy. apply H. right. exact Hy.
Qed.

Lemma filter_andb {A : Type} (p q : A -> bool) (l : list A) :
  filter (fun x => p x && q x) l = filter p (filter q l).
Proof.
  induction l as [|x r IH]; simpl; [reflexivity|].
  destruct (q x); simpl; rewrite ?andb_false_r, ?andb_true_r, IH;
    reflexivity.
Qed.

Lemma filter_swap {A : Type} (p q : A -> bool) (l : list A) :
  filter p (filter q l) = filter q (filter p l).
Proof.
  rewrite <- !filter_andb. apply filter_ext. intros x. apply andb_comm.
Qed.

Lemma filter_absorb {A : Type} (p q : A -> bool) (l : list A) :
  (forall x, In x l -> p x = true -> q x = true) ->
  filter p (filter q l) = filter p l.
Proof.
  intros H. rewrite <- filter_andb. apply filter_ext_in.
  intros x Hx. destruct (p x) eqn:P; [|reflexivity].
  rewrite (H x Hx P). reflexivity.
Qed.

Lemma hd_error_map {A B : Type} (f : A -> B) (l : list A) :
  hd_error (map f l) = option_map f (hd_error l).
Proof. destruct l; reflexivity. Qed.

Lemma unique_by_key {A : Type} (key : A -> Z) (l : list A) (a b : A) :
  NoDup (map key l) -> In a l -> In b l -> key a = key b -> a = b.
Proof.
  induction l as [|x r IH]; simpl; intros N Ha Hb E; [destruct Ha|].
  inversion N as [|? ? Hnotin Nr]; subst.
  destruct Ha as [<-|Ha], Hb as [<-|Hb]; auto.
  - exfalso. apply Hnotin. rewrite E. apply in_map. exact Hb.
  - exfalso. apply Hnotin. rewrite <- E. apply in_map. exact Ha.
Qed.

Lemma filter_of_unique_key {A : Type} (key : A -> Z) (l : list A) (a : A) :
  NoDup (map key l) -> In a l ->
  filter (fun x => key x =? key a) l = [a].
Proof.
  induction l as [|x r IH]; simpl; intros N Ha; [destruct Ha|].
  inversion N as [|? ? Hnotin Nr]; subst.
  destruct Ha as [<-|Ha].
  - rewrite Z.eqb_refl. f_equal. apply filter_none.
    intros y Hy. apply Z.eqb_neq. intros E. apply Hnotin.
    rewrite <- E. apply in_map. exact Hy.
  - destruct (Z.eqb_spec (key x) (key a)) as [E|E]; [|apply IH; assumption].
    exfalso. apply Hnotin. rewrite E. apply in_map. exact Ha.
Qed.

Lemma remove_of_unique_key {A : Type} (key : A -> Z) (l : list A) (a : A) :
  NoDup (map key l) -> In a l ->
  Permutation l (a :: filter (fun x => negb (key x =? key a)) l).
Proof.
  induction l as [|x r IH]; simpl; intros N Ha; [destruct Ha|].
  inversion N as [|? ? Hnotin Nr]; subst.
  destruct Ha as [<-|Ha].
  - rewrite Z.eqb_refl. simpl. apply perm_skip.
    rewrite (filter_ext_in _ (fun _ => true)).
    + clear. induction r; simpl; auto.
    + intros y Hy. apply negb_true_iff. apply Z.eqb_neq. intros E.
      apply Hnotin. rewrite <- E. apply in_map. exact Hy.
  - destruct (Z.eqb_spec (key x) (key a)) as [E|E]; simpl.
    + exfalso. apply Hnotin. rewrite E. apply in_map. exact Ha.
    + eapply Permutation_trans; [apply perm_skip; apply IH; assumption|].
      apply perm_swap.
Qed.

Lemma getDeckById_first_of_user_decks d deckId userId :
  getDeckById d deckId userId
  = hd_error (filter (fun k => decksTable.id k =? deckId)
                     (getUserDecks d userId)).
Proof.
  unfold getDeckById, getUserDecks, db.select_decks.
  rewrite filter_andb. destruct (filter _ (filter _ (decks d))); reflexivity.
Qed.

Lemma getUserDeckCount_after_insert d userId (k : decksTable.row) ds c i j :
  decks d = ds ->
  getUserDeckCount (mkDatabase (ds ++ [k]) c i j) userId
  = getUserDeckCount d userId
    + (if (decksTable.userId k =? userId)%string then 1 else 0).
Proof.
  intros <-. unfold getUserDeckCount, getUserDecks, db.select_decks. simpl.
  rewrite filter_app, length_app. simpl.
  destruct (decksTable.userId k =? userId)%string; simpl; lia.
Qed.

(** X6. On a well-formed database, the deck [createDeckForUser] returns
    carries the given name and description, the caller as owner and the
    request time in both timestamps; the caller reads it back with
    [getDeckById], nobody else does; it starts with no card; the caller's
    deck count grows by one, and lookups of every other deck id are as
    before. *)
Theorem createDeckForUser_round_trip :
  forall (now : Z) (d : Database) (userId : string) (data : DeckFields),
    well_formed d ->
    let k := fst (createDeckForUser now d userId data) in
    let d' := snd (createDeckForUser now d userId data) in
    k = decksTable.mk (decks_identity d) userId (data_name data)
                      (data_description data) now now
    /\ getDeckById d' (decksTable.id k) userId = Some k
    /\ (forall other, other <> userId ->
                      getDeckById d' (decksTable.id k) other = None)
    /\ getDeckCards d' (decksTable.id k) userId = Some []
    /\ getUserDeckCount d' userId = getUserDeckCount d userId + 1
    /\ (forall i v, i <> decksTable.id k ->
                    getDeckById d' i v = getDeckById d i v).
Proof.
  intros now d userId data (N1 & N2 & I1 & I2 & F) k d'.
  assert (Old : forall v,
             filter (fun x => (decksTable.id x =? decks_identity d)
                              && (decksTable.userId x =? v)%string) (decks d)
             = []).
  { intros v. apply filter_none. intros x Hx.
    apply andb_false_iff. left. apply Z.eqb_neq.
    specialize (I1 x Hx). lia. }
  assert (Own : getDeckById d' (decksTable.id k) userId = Some k).
  { unfold getDeckById, db.select_decks. subst d' k. simpl.
    rewrite filter_app, Old. simpl.
    rewrite Z.eqb_refl, String.eqb_refl. reflexivity. }
  split; [reflexivity|]. split; [exact Own|]. split; [|split; [|split]].
  - intros other Hne. unfold getDeckById, db.select_decks. subst d' k. simpl.
    rewrite filter_app, Old. simpl. rewrite Z.eqb_refl. simpl.
    destruct (String.eqb_spec userId other) as [E|E]; [congruence|reflexivity].
  - unfold getDeckCards. rewrite Own. unfold db.select_cards.
    subst d' k. simpl. rewrite filter_none; [reflexivity|].
    intros c Hc. apply Z.eqb_neq. destruct (F c Hc) as [x [Hx E]].
    specialize (I1 x Hx). lia.
  - subst d'. unfold createDeckForUser, db.insert_deck. simpl.
    rewrite (getUserDeckCount_after_insert d userId _ (decks d)) by reflexivity.
    simpl. rewrite String.eqb_refl. reflexivity.
  - intros i v Hne. unfold getDeckById, db.select_decks. subst d' k. simpl.
    rewrite filter_app. simpl.
    destruct (Z.eqb_spec (decks_identity d) i) as [E|E]; [simpl in Hne; congruence|].
    simpl. rewrite app_nil_r. reflexivity.
Qed.

Lemma createDeckForUser_round_trip_witness :
  well_formed sample_database
  /\ getDeckById (snd (createDeckForUser 200 sample_database "user_b"
                                          (mkDeckFields "Maths" None)))
                 3 "user_b"
     = Some (decksTable.mk 3 "user_b" "Maths" None 200 200).
Proof.
  split; [exact sample_database_well_formed|].
  exact (proj1 (proj2 (createDeckForUser_round_trip
                         200 sample_database "user_b"
                         (mkDeckFields "Maths" None)
                         sample_database_well_formed))).
Defined.

Lemma owned_card_of_owner d deckId userId k c :
  getDeckById d deckId userId = Some k ->
  cardsTable.deckId c = deckId ->
  owned_card (decks d) userId c = true.
Proof.
  intros G E. apply getDeckById_Some in G. destruct G as [Hk [Hid Hu]].
  apply owned_card_spec. exists k. rewrite E. auto.
Qed.

(** X7. On a well-formed database, [createCardForDeck] on an owned deck
    returns the new card, which holds the given sides, the deck id and the
    request time; the owner reads it back with [getCardById] and finds it in
    [getDeckCards] of that deck; the decks and the lookups of every other
    card id are as before. *)
Theorem createCardForDeck_round_trip :
  forall (now : Z) (d : Database) (deckId : Z) (userId : string)
         (data : CardFields) (k : decksTable.row),
    well_formed d ->
    getDeckById d deckId userId = Some k ->
    let c := cardsTable.mk (cards_identity d) deckId (data_front data)
                           (data_back data) now now in
    let d' := snd (createCardForDeck now d deckId userId data) in
    fst (createCardForDeck now d deckId userId data) = Return (Some c)
    /\ decks d' = decks d
    /\ cards d' = cards d ++ [c]
    /\ getCardById d' (cardsTable.id c) userId = Some c
    /\ (exists l, getDeckCards d' deckId userId = Some l /\ In c l)
    /\ (forall i v, i <> cardsTable.id c ->
                    getCardById d' i v = getCardById d i v).
Proof.
  intros now d deckId userId data k (N1 & N2 & I1 & I2 & F) G c d'.
  assert (E : createCardForDeck now d deckId userId data
              = (Return (Some c),
                 mkDatabase (decks d) (cards d ++ [c]) (decks_identity d)
                            (cards_identity d + 1))).
  { unfold createCardForDeck. rewrite G. reflexivity. }
  subst d'. rewrite E. simpl.
  set (d' := mkDatabase (decks d) (cards d ++ [c]) (decks_identity d)
                        (cards_identity d + 1)).
  assert (V : forall v, user_cards d' v
                        = user_cards d v
                          ++ (if owned_card (decks d) v c then [c] else [])).
  { intros v. unfold user_cards, d'. simpl. rewrite filter_app. simpl.
    destruct (owned_card (decks d) v c); reflexivity. }
  split; [reflexivity|]. split; [reflexivity|]. split; [reflexivity|].
  split; [|split].
  - rewrite getCardById_first_of_user_cards, V, filter_app.
    rewrite (owned_card_of_owner d deckId userId k c G eq_refl). simpl.
    rewrite Z.eqb_refl. rewrite filter_none; [reflexivity|].
    intros x Hx. apply filter_In in Hx. destruct Hx as [Hx _].
    apply Z.eqb_neq. specialize (I2 x Hx). lia.
  - assert (G' : getDeckById d' deckId userId = Some k) by exact G.
    destruct (getDeckCards_of_owned_deck d' deckId userId k G')
      as [l (El & P & _)].
    exists l. split; [exact El|]. apply (Permutation_in _ P).
    apply filter_In. split.
    + unfold d'. simpl. apply in_or_app. right. left. reflexivity.
    + simpl. apply Z.eqb_refl.
  - intros i v Hne. rewrite !getCardById_first_of_user_cards, V, filter_app.
    rewrite (filter_none _ (if owned_card (decks d) v c then [c] else [])).
    + rewrite app_nil_r. reflexivity.
    + intros x Hx. destruct (owned_card (decks d) v c); [|destruct Hx].
      destruct Hx as [<-|[]]. apply Z.eqb_neq. simpl in *. congruence.
Qed.

Lemma createCardForDeck_round_trip_witness :
  well_formed sample_database
  /\ getDeckById sample_database 1 "user_a" = Some deck_a
  /\ getCardById (snd (createCardForDeck 200 sample_database 1 "user_a"
                                          (mkCardFields "sol" "sun")))
                 4 "user_a"
     = Some (cardsTable.mk 4 1 "sol" "sun" 200 200).
Proof.
  split; [exact sample_database_well_formed|]. split; [reflexivity|].
  exact (proj1 (proj2 (proj2 (proj2
           (createCardForDeck_round_trip
              200 sample_database 1 "user_a" (mkCardFields "sol" "sun")
              deck_a sample_database_well_formed eq_refl))))).
Defined.

Lemma getDeckById_after_update now d deckId data i v :
  getDeckById
    (snd (db.update_decks (fun k => decksTable.id k =? deckId)
            (db.set_deck (data_name data) (data_description data) now) d))
    i v
  = option_map
      (fun x => if decksTable.id x =? deckId
                then db.set_deck (data_name data) (data_description data) now x
                else x)
      (getDeckById d i v).
Proof.
  unfold getDeckById, db.select_decks, db.update_decks. simpl.
  rewrite filter_of_map.
  rewrite (filter_ext _ (fun k => (decksTable.id k =? i)
                                  && (decksTable.userId k =? v)%string)).
  - destruct (filter _ (decks d)); reflexivity.
  - intros x. rewrite update_keeps_deck_id, update_keeps_deck_owner.
    reflexivity.
Qed.

(** X8. On a well-formed database, [updateDeckForUser] on an owned deck
    returns that deck with the new name, the new description when one is
    given and [updatedAt] set to the request time, owner and [createdAt]
    kept; the owner reads exactly this deck back with [getDeckById]; the
    lookups of every other deck id and the owner's deck count are as
    before. *)
Theorem updateDeckForUser_round_trip :
  forall (now : Z) (d : Database) (deckId : Z) (userId : string)
         (data : DeckFields) (k : decksTable.row),
    well_formed d ->
    getDeckById d deckId userId = Some k ->
    let k' := db.set_deck (data_name data) (data_description data) now k in
    let d' := snd (updateDeckForUser now d deckId userId data) in
    fst (updateDeckForUser now d deckId userId data) = Return (Some k')
    /\ getDeckById d' deckId userId = Some k'
    /\ decksTable.name k' = data_name data
    /\ decksTable.updatedAt k' = now
    /\ decksTable.userId k' = userId
    /\ decksTable.createdAt k' = decksTable.createdAt k
    /\ (forall i v, i <> deckId -> getDeckById d' i v = getDeckById d i v)
    /\ (forall v, getUserDeckCount d' v = getUserDeckCount d v).
Proof.
  intros now d deckId userId data k (N1 & _) G k' d'.
  pose proof (getDeckById_Some _ _ _ _ G) as [Hk [Hid Hu]].
  subst d'. unfold updateDeckForUser. rewrite G.
  change (snd (let '(returned, d'0) :=
                 db.update_decks (fun k0 => decksTable.id k0 =? deckId)
                   (db.set_deck (data_name data) (data_description data) now) d
               in (Return (hd_error returned), d'0)))
    with (snd (db.update_decks (fun k0 => decksTable.id k0 =? deckId)
                 (db.set_deck (data_name data) (data_description data) now) d)).
  split; [|split; [|split; [|split; [|split; [|split; [|split]]]]]].
  - simpl. rewrite <- Hid.
    rewrite (filter_of_unique_key decksTable.id (decks d) k N1 Hk).
    reflexivity.
  - rewrite getDeckById_after_update, G. simpl.
    rewrite Hid, Z.eqb_refl. reflexivity.
  - reflexivity.
  - reflexivity.
  - exact Hu.
  - reflexivity.
  - intros i v Hne. rewrite getDeckById_after_update.
    destruct (getDeckById d i v) as [x|] eqn:Gx; [|reflexivity].
    apply getDeckById_Some in Gx. destruct Gx as [_ [Hx _]]. simpl.
    destruct (Z.eqb_spec (decksTable.id x) deckId); [congruence|reflexivity].
  - intros v. unfold getUserDeckCount, getUserDecks, db.select_decks,
      db.update_decks. simpl.
    rewrite filter_of_map, length_map. do 2 f_equal.
    apply filter_ext. intros x. rewrite update_keeps_deck_owner. reflexivity.
Qed.

Lemma updateDeckForUser_round_trip_witness :
  well_formed sample_database
  /\ getDeckById sample_database 1 "user_a" = Some deck_a
  /\ getDeckById (snd (updateDeckForUser 200 sample_database 1 "user_a"
                                          (mkDeckFields "Castellano" None)))
                 1 "user_a"
     = Some (decksTable.mk 1 "user_a" "Castellano"
                           (Some "Everyday Spanish words") 100 200).
Proof.
  split; [exact sample_database_well_formed|]. split; [reflexivity|].
  exact (proj1 (proj2 (updateDeckForUser_round_trip
                         200 sample_database 1 "user_a"
                         (mkDeckFields "Castellano" None) deck_a
                         sample_database_well_formed eq_refl))).
Defined.

Lemma owned_card_by_deck ds v (x y : cardsTable.row) :
  cardsTable.deckId x = cardsTable.deckId y ->
  owned_card ds v x = owned_card ds v y.
Proof. unfold owned_card. intros ->. reflexivity. Qed.

Lemma getCardById_after_update now d cardId data i v :
  getCardById
    (snd (db.update_cards (fun c => cardsTable.id c =? cardId)
            (db.set_card (data_front data) (data_back data) now) d))
    i v
  = option_map
      (fun x => if cardsTable.id x =? cardId
                then db.set_card (data_front data) (data_back data) now x
                else x)
      (getCardById d i v).
Proof.
  rewrite !getCardById_first_of_user_cards.
  unfold user_cards, db.update_cards. simpl.
  rewrite filter_of_map, filter_of_map, hd_error_map.
  rewrite (filter_ext
             (fun x => owned_card (decks d) v
                         (if cardsTable.id x =? cardId
                          then db.set_card (data_front data) (data_back data)
                                           now x
                          else x))
             (owned_card (decks d) v))
    by (intros x; apply owned_card_by_deck; apply update_keeps_card_deck).
  rewrite (filter_ext
             (fun x => cardsTable.id
                         (if cardsTable.id x =? cardId
                          then db.set_card (data_front data) (data_back data)
                                           now x
                          else x) =? i)
             (fun x => cardsTable.id x =? i))
    by (intros x; rewrite update_keeps_card_id; reflexivity).
  reflexivity.
Qed.

(** X9. On a well-formed database, [updateCardForUser] on a card of an
    owned deck returns that card with the new sides and [updatedAt] set to
    the request time, its deck and [createdAt] kept; the owner reads exactly
    this card back with [getCardById]; the lookups of every other card id
    are as before. *)
Theorem updateCardForUser_round_trip :
  forall (now : Z) (d : Database) (cardId : Z) (userId : string)
         (data : CardFields) (c : cardsTable.row),
    well_formed d ->
    getCardById d cardId userId = Some c ->
    let c' := db.set_card (data_front data) (data_back data) now c in
    let d' := snd (updateCardForUser now d cardId userId data) in
    fst (updateCardForUser now d cardId userId data) = Return (Some c')
    /\ getCardById d' cardId userId = Some c'
    /\ cardsTable.front c' = data_front data
    /\ cardsTable.back c' = data_back data
    /\ cardsTable.updatedAt c' = now
    /\ cardsTable.deckId c' = cardsTable.deckId c
    /\ (forall i v, i <> cardId -> getCardById d' i v = getCardById d i v).
Proof.
  intros now d cardId userId data c (_ & N2 & _) G c' d'.
  pose proof (getCardById_in_table _ _ _ _ G) as [Hc Hid].
  subst d'. unfold updateCardForUser. rewrite G.
  change (snd (let '(returned, d'0) :=
                 db.update_cards (fun c0 => cardsTable.id c0 =? cardId)
                   (db.set_card (data_front data) (data_back data) now) d
               in (Return (hd_error returned), d'0)))
    with (snd (db.update_cards (fun c0 => cardsTable.id c0 =? cardId)
                 (db.set_card (data_front data) (data_back data) now) d)).
  split; [|split; [|split; [|split; [|split; [|split]]]]];
    try reflexivity.
  - simpl. rewrite <- Hid.
    rewrite (filter_of_unique_key cardsTable.id (cards d) c N2 Hc).
    reflexivity.
  - rewrite getCardById_after_update, G. simpl.
    rewrite Hid, Z.eqb_refl. reflexivity.
  - intros i v Hne. rewrite getCardById_after_update.
    destruct (getCardById d i v) as [x|] eqn:Gx; [|reflexivity].
    apply getCardById_in_table in Gx. destruct Gx as [_ Hx]. simpl.
    destruct (Z.eqb_spec (cardsTable.id x) cardId); [congruence|reflexivity].
Qed.

Lemma updateCardForUser_round_trip_witness :
  well_formed sample_database
  /\ getCardById sample_database 2 "user_a" = Some card_2
  /\ getCardById (snd (updateCardForUser 200 sample_database 2 "user_a"
                                          (mkCardFields "el gato" "the cat")))
                 2 "user_a"
     = Some (cardsTable.mk 2 1 "el gato" "the cat" 130 200).
Proof.
  split; [exact sample_database_well_formed|]. split; [reflexivity|].
  exact (proj1 (proj2 (updateCardForUser_round_trip
                         200 sample_database 2 "user_a"
                         (mkCardFields "el gato" "the cat") card_2
                         sample_database_well_formed eq_refl))).
Defined.

(** ** Deleting *)

Lemma getCardById_after_delete d (q : cardsTable.row -> bool) i v :
  (forall x, cardsTable.id x = i -> q x = false) ->
  getCardById (db.delete_cards q d) i v = getCardById d i v.
Proof.
  intros H. rewrite !getCardById_first_of_user_cards.
  unfold user_cards, db.delete_cards. simpl. f_equal.
  rewrite (filter_swap (owned_card (decks d) v) (fun c => negb (q c))).
  apply filter_absorb.
  intros x _ Hx. apply Z.eqb_eq in Hx. rewrite (H x Hx). reflexivity.
Qed.

Lemma no_card_with_deleted_id d cardId v :
  getCardById (db.delete_cards (fun x => cardsTable.id x =? cardId) d)
              cardId v = None.
Proof.
  destruct (getCardById _ cardId v) as [x|] eqn:G; [|reflexivity].
  apply getCardById_in_table in G. destruct G as [Hin Hid].
  apply delete_cards_removes in Hin. contradiction.
Qed.

(** X10. On a well-formed database, [deleteCardForUser] on a card of an
    owned deck removes that card and nothing else: the card table is the old
    one without it, the decks are untouched, every other card id resolves as
    before, the deleted id resolves to [null] for every user, and deleting
    it once more throws the not-found error and changes nothing. *)
Theorem deleteCardForUser_removes_one_card :
  forall (d : Database) (cardId : Z) (userId : string) (c : cardsTable.row),
    well_formed d ->
    getCardById d cardId userId = Some c ->
    let d' := snd (deleteCardForUser d cardId userId) in
    fst (deleteCardForUser d cardId userId) = Return tt
    /\ Permutation (cards d) (c :: cards d')
    /\ decks d' = decks d
    /\ (forall v, getCardById d' cardId v = None)
    /\ (forall i v, i <> cardId -> getCardById d' i v = getCardById d i v)
    /\ (forall v, deleteCardForUser d' cardId v
                  = (Throw (Error not_found_card), d')).
Proof.
  intros d cardId userId c (_ & N2 & _) G d'.
  pose proof (getCardById_in_table _ _ _ _ G) as [Hc Hid].
  subst d'. rewrite (deleteCardForUser_owned _ _ _ _ G). simpl.
  split; [reflexivity|]. split; [|split; [reflexivity|split; [|split]]].
  - rewrite <- Hid.
    apply (remove_of_unique_key cardsTable.id (cards d) c N2 Hc).
  - intros v. apply no_card_with_deleted_id.
  - intros i v Hne. apply getCardById_after_delete.
    intros x Hx. apply Z.eqb_neq. congruence.
  - intros v. unfold deleteCardForUser.
    rewrite no_card_with_deleted_id. reflexivity.
Qed.

Lemma deleteCardForUser_removes_one_card_witness :
  well_formed sample_database
  /\ getCardById sample_database 1 "user_a" = Some card_1
  /\ Permutation (cards sample_database)
                 (card_1 :: cards (snd (deleteCardForUser sample_database 1
                                                          "user_a"))).
Proof.
  split; [exact sample_database_well_formed|]. split; [reflexivity|].
  exact (proj1 (proj2 (deleteCardForUser_removes_one_card
                         sample_database 1 "user_a" card_1
                         sample_database_well_formed eq_refl))).
Defined.

Lemma references_removed_by_id d deckId k c :
  In k (decks d) -> decksTable.id k = deckId ->
  db.references_removed
    (filter (fun x => decksTable.id x =? deckId) (decks d)) c
  = (cardsTable.deckId c =? deckId).
Proof.
  intros Hk Hid. unfold db.references_removed.
  destruct (Z.eqb_spec (cardsTable.deckId c) deckId) as [E|E].
  - apply existsb_exists. exists k. split.
    + apply filter_In. split; [exact Hk | apply Z.eqb_eq; exact Hid].
    + apply Z.eqb_eq. congruence.
  - destruct (existsb _ _) eqn:X; [|reflexivity].
    apply existsb_exists in X. destruct X as [x [Hx Ex]].
    apply filter_In in Hx. destruct Hx as [_ Hx].
    apply Z.eqb_eq in Hx. apply Z.eqb_eq in Ex. congruence.
Qed.

Lemma getDeckById_when_decks_filtered (ds : list decksTable.row)
      (q : decksTable.row -> bool) cs cs' n m n' m' i v :
  (forall x, decksTable.id x = i -> q x = true) ->
  getDeckById (mkDatabase (filter q ds) cs n m) i v
  = getDeckById (mkDatabase ds cs' n' m') i v.
Proof.
  intros H. unfold getDeckById, db.select_decks. simpl.
  rewrite filter_absorb; [reflexivity|].
  intros x _ Hx. apply andb_true_iff in Hx. destruct Hx as [Hx _].
  apply Z.eqb_eq in Hx. apply H. exact Hx.
Qed.

Lemma getDeckCards_by_parts d d' i v :
  getDeckById d' i v = getDeckById d i v ->
  filter (fun c => cardsTable.deckId c =? i) (cards d')
  = filter (fun c => cardsTable.deckId c =? i) (cards d) ->
  getDeckCards d' i v = getDeckCards d i v.
Proof.
  intros G C. unfold getDeckCards, db.select_cards. rewrite G, C.
  reflexivity.
Qed.

(** X11. On a well-formed database, [deleteDeckForUser] on an owned deck
    removes that deck and exactly the cards that reference it: the deck
    table is the old one without the deck, the card table the old one
    without the cards of that deck, the owner's deck count drops by one,
    every other deck id resolves as before with the same cards, and deleting
    the deck once more throws the not-found error and changes nothing. *)
Theorem deleteDeckForUser_removes_deck_and_its_cards :
  forall (d : Database) (deckId : Z) (userId : string) (k : decksTable.row),
    well_formed d ->
    getDeckById d deckId userId = Some k ->
    let d' := snd (deleteDeckForUser d deckId userId) in
    fst (deleteDeckForUser d deckId userId) = Return tt
    /\ Permutation (decks d) (k :: decks d')
    /\ cards d'
       = filter (fun c => negb (cardsTable.deckId c =? deckId)) (cards d)
    /\ getUserDeckCount d' userId = getUserDeckCount d userId - 1
    /\ (forall i v, i <> deckId ->
                    getDeckById d' i v = getDeckById d i v
                    /\ getDeckCards d' i v = getDeckCards d i v)
    /\ (forall v, deleteDeckForUser d' deckId v
                  = (Throw (Error not_found_deck), d')).
Proof.
  intros d deckId userId k (N1 & _) G d'.
  pose proof (getDeckById_Some _ _ _ _ G) as [Hk [Hid Hu]].
  subst d'. rewrite (deleteDeckForUser_owned _ _ _ _ G). simpl.
  assert (C : filter
                (fun c => negb (db.references_removed
                                  (filter (fun x => decksTable.id x =? deckId)
                                          (decks d)) c))
                (cards d)
              = filter (fun c => negb (cardsTable.deckId c =? deckId))
                       (cards d)).
  { apply filter_ext. intros c.
    rewrite (references_removed_by_id d deckId k c Hk Hid). reflexivity. }
  assert (Gone : forall v,
             getDeckById (db.delete_decks
                            (fun x => decksTable.id x =? deckId) d)
                         deckId v = None).
  { intros v. destruct (getDeckById _ deckId v) as [x|] eqn:Gx;
      [|reflexivity].
    apply getDeckById_Some in Gx. destruct Gx as [Hx [Ex _]].
    unfold db.delete_decks in Hx. simpl in Hx. apply filter_In in Hx.
    destruct Hx as [_ Hx]. apply negb_true_iff in Hx.
    apply Z.eqb_neq in Hx. contradiction. }
  split; [reflexivity|]. split; [|split; [exact C|split; [|split]]].
  - rewrite <- Hid.
    apply (remove_of_unique_key decksTable.id (decks d) k N1 Hk).
  - unfold getUserDeckCount, getUserDecks, db.select_decks, db.delete_decks.
    cbn [decks].
    assert (Hk' : In k (filter (fun x => (decksTable.userId x =? userId)%string)
                               (decks d))).
    { apply filter_In. split; [exact Hk | apply String.eqb_eq; exact Hu]. }
    pose proof (remove_of_unique_key
                  decksTable.id _ k
                  (NoDup_map_filter decksTable.id _ (decks d) N1) Hk') as P.
    rewrite (Permutation_length P). cbn [List.length].
    rewrite Nat2Z.inj_succ, filter_swap, Hid. lia.
  - intros i v Hne.
    assert (Gi : getDeckById (db.delete_decks
                                (fun x => decksTable.id x =? deckId) d) i v
                 = getDeckById d i v).
    { destruct d as [ds cs n m]. unfold db.delete_decks. simpl.
      apply getDeckById_when_decks_filtered.
      intros x Hx. apply negb_true_iff. apply Z.eqb_neq. congruence. }
    split; [exact Gi|].
    apply getDeckCards_by_parts; [exact Gi|].
    unfold db.delete_decks. simpl. rewrite C. apply filter_absorb.
    intros x _ Hx. apply Z.eqb_eq in Hx. apply negb_true_iff.
    apply Z.eqb_neq. congruence.
  - intros v. unfold deleteDeckForUser. rewrite Gone. reflexivity.
Qed.

Lemma deleteDeckForUser_removes_deck_and_its_cards_witness :
  well_formed sample_database
  /\ getDeckById sample_database 1 "user_a" = Some deck_a
  /\ deleteDeckForUser (snd (deleteDeckForUser sample_database 1 "user_a"))
                       1 "user_a"
     = (Throw (Error not_found_deck),
        snd (deleteDeckForUser sample_database 1 "user_a")).
Proof.
  split; [exact sample_database_well_formed|]. split; [reflexivity|].
  exact (proj2 (proj2 (proj2 (proj2 (proj2
           (deleteDeckForUser_removes_deck_and_its_cards
              sample_database 1 "user_a" deck_a
              sample_database_well_formed eq_refl))))) "user_a").
Defined.

(** X12. [deleteAllCardsInDeck] on an owned deck empties that deck and
    touches nothing else: the deck table is unchanged, the card table is the
    old one without the cards of that deck, [getDeckCards] of the deck is
    the empty list (not [null]: the deck is still there), and every other
    deck lists the same cards as before. *)
Theorem deleteAllCardsInDeck_empties_one_deck :
  forall (d : Database) (deckId : Z) (userId : string) (k : decksTable.row),
    getDeckById d deckId userId = Some k ->
    let d' := snd (deleteAllCardsInDeck d deckId userId) in
    fst (deleteAllCardsInDeck d deckId userId) = Return tt
    /\ decks d' = decks d
    /\ cards d'
       = filter (fun c => negb (cardsTable.deckId c =? deckId)) (cards d)
    /\ getDeckCards d' deckId userId = Some []
    /\ (forall i v, i <> deckId ->
                    getDeckCards d' i v = getDeckCards d i v).
Proof.
  intros d deckId userId k G d'. subst d'.
  unfold deleteAllCardsInDeck. rewrite G. simpl.
  split; [reflexivity|]. split; [reflexivity|]. split; [reflexivity|].
  split.
  - unfold getDeckCards.
    change (getDeckById (db.delete_cards
                           (fun c => cardsTable.deckId c =? deckId) d)
                        deckId userId)
      with (getDeckById d deckId userId).
    rewrite G. unfold db.select_cards, db.delete_cards. simpl.
    rewrite filter_none; [reflexivity|].
    intros c Hc. apply filter_In in Hc. destruct Hc as [_ Hc].
    apply negb_true_iff in Hc. exact Hc.
  - intros i v Hne. apply getDeckCards_by_parts; [reflexivity|].
    unfold db.delete_cards. simpl. apply filter_absorb.
    intros x _ Hx. apply Z.eqb_eq in Hx. apply negb_true_iff.
    apply Z.eqb_neq. congruence.
Qed.

Lemma deleteAllCardsInDeck_empties_one_deck_witness :
  getDeckById sample_database 1 "user_a" = Some deck_a
  /\ getDeckCards (snd (deleteAllCardsInDeck sample_database 1 "user_a"))
                  1 "user_a" = Some [].
Proof.
  split; [reflexivity|].
  exact (proj1 (proj2 (proj2 (proj2
           (deleteAllCardsInDeck_empties_one_deck
              sample_database 1 "user_a" deck_a eq_refl))))).
Defined.

(** ** Refusals *)

Lemma getDeckById_none_when_not_owned d deckId userId :
  ~ (exists k, In k (decks d) /\ decksTable.id k = deckId
               /\ decksTable.userId k = userId) ->
  getDeckById d deckId userId = None.
Proof.
  intros N. destruct (getDeckById d deckId userId) as [k|] eqn:G;
    [|reflexivity].
  exfalso. apply N. exists k. apply getDeckById_Some in G. exact G.
Qed.

Lemma getCardById_owner d cardId userId c :
  getCardById d cardId userId = Some c ->
  In c (cards d) /\ cardsTable.id c = cardId
  /\ owned_card (decks d) userId c = true.
Proof.
  rewrite getCardById_first_of_user_cards. intros H.
  pose proof (first_of_filter (fun x => cardsTable.id x =? cardId)
                              (user_cards d userId)) as F.
  destruct (filter _ (user_cards d userId)) as [|x r]; [discriminate|].
  injection H as <-. destruct F as [Hin Hid].
  apply filter_In in Hin. apply Z.eqb_eq in Hid. tauto.
Qed.

Lemma getCardById_none_when_not_owned d cardId userId :
  ~ (exists c k, In c (cards d) /\ cardsTable.id c = cardId
                 /\ In k (decks d)
                 /\ decksTable.id k = cardsTable.deckId c
                 /\ decksTable.userId k = userId) ->
  getCardById d cardId userId = None.
Proof.
  intros N. destruct (getCardById d cardId userId) as [c|] eqn:G;
    [|reflexivity].
  exfalso. apply N. apply getCardById_owner in G.
  destruct G as (Hc & Hid & Ho). apply owned_card_spec in Ho.
  destruct Ho as [k Hk]. exists c, k. tauto.
Qed.

(** X13. A write aimed at a deck that is missing or belongs to somebody
    else throws "Deck not found or unauthorized" and leaves the database as
    it was, in [updateDeckForUser], [deleteDeckForUser],
    [createCardForDeck] and [deleteAllCardsInDeck] alike; a write aimed at a
    card that is missing or lies in somebody else's deck throws "Card not
    found or unauthorized" and leaves the database as it was, in
    [updateCardForUser] and [deleteCardForUser].  The caller cannot tell a
    missing row from a foreign one.  This is so for every id that fits the
    32-bit [id] column; for an id outside that range each of the six writes
    throws the driver's error for its ownership query instead, and the
    database is as it was. *)
Theorem writes_refuse_missing_and_foreign_rows_alike :
  forall (failed_query : Select -> Z -> string -> string)
         (now : Z) (d : Database) (rowId : Z) (userId : string)
         (deckData : DeckFields) (cardData : CardFields),
    (int4 rowId = true ->
     (~ (exists k, In k (decks d) /\ decksTable.id k = rowId
                   /\ decksTable.userId k = userId) ->
      Pg.updateDeckForUser failed_query now d rowId userId deckData
      = (Throw (Error "Deck not found or unauthorized"), d)
      /\ Pg.deleteDeckForUser failed_query d rowId userId
         = (Throw (Error "Deck not found or unauthorized"), d)
      /\ Pg.createCardForDeck failed_query now d rowId userId cardData
         = (Throw (Error "Deck not found or unauthorized"), d)
      /\ Pg.deleteAllCardsInDeck failed_query d rowId userId
         = (Throw (Error "Deck not found or unauthorized"), d))
     /\ (~ (exists c k, In c (cards d) /\ cardsTable.id c = rowId
                        /\ In k (decks d)
                        /\ decksTable.id k = cardsTable.deckId c
                        /\ decksTable.userId k = userId) ->
         Pg.updateCardForUser failed_query now d rowId userId cardData
         = (Throw (Error "Card not found or unauthorized"), d)
         /\ Pg.deleteCardForUser failed_query d rowId userId
            = (Throw (Error "Card not found or unauthorized"), d)))
    /\ (int4 rowId = false ->
        Pg.updateDeckForUser failed_query now d rowId userId deckData
        = (Throw (Error (failed_query deck_by_id rowId userId)), d)
        /\ Pg.deleteDeckForUser failed_query d rowId userId
           = (Throw (Error (failed_query deck_by_id rowId userId)), d)
        /\ Pg.createCardForDeck failed_query now d rowId userId cardData
           = (Throw (Error (failed_query deck_by_id rowId userId)), d)
        /\ Pg.deleteAllCardsInDeck failed_query d rowId userId
           = (Throw (Error (failed_query deck_by_id rowId userId)), d)
        /\ Pg.updateCardForUser failed_query now d rowId userId cardData
           = (Throw (Error (failed_query card_by_id rowId userId)), d)
        /\ Pg.deleteCardForUser failed_query d rowId userId
           = (Throw (Error (failed_query card_by_id rowId userId)), d)).
Proof.
  intros failed_query now d rowId userId deckData cardData.
  unfold Pg.updateDeckForUser, Pg.deleteDeckForUser, Pg.createCardForDeck,
    Pg.deleteAllCardsInDeck, Pg.updateCardForUser, Pg.deleteCardForUser,
    Pg.refuse.
  split; intros R; rewrite R; [|repeat split].
  split.
  - intros N. apply getDeckById_none_when_not_owned in N.
    unfold updateDeckForUser, deleteDeckForUser, createCardForDeck,
      deleteAllCardsInDeck. rewrite N. repeat split.
  - intros N. apply getCardById_none_when_not_owned in N.
    unfold updateCardForUser, deleteCardForUser. rewrite N. repeat split.
Qed.

(** ** One user's writes and another user's reads *)

Lemma cards_of_owned_deck_are_user_cards d i v k :
  getDeckById d i v = Some k ->
  filter (fun c => cardsTable.deckId c =? i) (cards d)
  = filter (fun c => cardsTable.deckId c =? i) (user_cards d v).
Proof.
  intros G. unfold user_cards. symmetry. apply filter_absorb.
  intros x _ Hx. apply Z.eqb_eq in Hx.
  exact (owned_card_of_owner d i v k x G Hx).
Qed.

Lemma reads_follow_views d d' v :
  getUserDecks d' v = getUserDecks d v ->
  user_cards d' v = user_cards d v ->
  same_reads d d' v.
Proof.
  intros D C.
  assert (G : forall i, getDeckById d' i v = getDeckById d i v).
  { intros i. rewrite !getDeckById_first_of_user_decks, D. reflexivity. }
  split; [exact D|]. split; [exact G|]. split.
  - intros i. unfold getDeckCards, db.select_cards. rewrite G.
    destruct (getDeckById d i v) as [k|] eqn:Gi; [|reflexivity].
    assert (Gi' : getDeckById d' i v = Some k) by (rewrite G; exact Gi).
    rewrite (cards_of_owned_deck_are_user_cards d' i v k Gi').
    rewrite (cards_of_owned_deck_are_user_cards d i v k Gi).
    rewrite C. reflexivity.
  - intros i. rewrite !getCardById_first_of_user_cards, C. reflexivity.
Qed.

Lemma same_reads_refl d v : same_reads d d v.
Proof. apply reads_follow_views; reflexivity. Qed.

Section Isolation.

Variable d : Database.
Variables userId other : string.
Hypothesis W : well_formed d.
Hypothesis Hother : other <> userId.

Lemma foreign_deck_has_other_id deckId k :
  getDeckById d deckId userId = Some k ->
  forall x, In x (decks d) -> decksTable.userId x = other ->
            decksTable.id x <> deckId.
Proof.
  intros G x Hx Hu E. apply getDeckById_Some in G.
  destruct G as [Hk [Hid Hku]]. destruct W as (N1 & _).
  assert (X : x = k).
  { apply (unique_by_key decksTable.id (decks d)); auto. congruence. }
  subst x. congruence.
Qed.

Lemma foreign_card_in_other_deck deckId k :
  getDeckById d deckId userId = Some k ->
  forall c, owned_card (decks d) other c = true ->
            cardsTable.deckId c <> deckId.
Proof.
  intros G c Ho E. apply owned_card_spec in Ho.
  destruct Ho as [x (Hx & Hid & Hu)].
  apply (foreign_deck_has_other_id deckId k G x Hx Hu). congruence.
Qed.

Lemma foreign_card_has_other_id cardId c0 :
  getCardById d cardId userId = Some c0 ->
  forall c, In c (cards d) -> owned_card (decks d) other c = true ->
            cardsTable.id c <> cardId.
Proof.
  intros G c Hc Ho E. apply getCardById_owner in G.
  destruct G as (Hc0 & Hid0 & Ho0). destruct W as (N1 & N2 & _).
  assert (X : c = c0).
  { apply (unique_by_key cardsTable.id (cards d)); auto. congruence. }
  subst c. apply owned_card_spec in Ho. apply owned_card_spec in Ho0.
  destruct Ho as [x (Hx & Hxi & Hxu)]. destruct Ho0 as [y (Hy & Hyi & Hyu)].
  assert (Y : x = y).
  { apply (unique_by_key decksTable.id (decks d)); auto. congruence. }
  subst x. congruence.
Qed.

Lemma createDeckForUser_isolated now data :
  same_reads d (snd (createDeckForUser now d userId data)) other.
Proof.
  apply reads_follow_views.
  - unfold getUserDecks, db.select_decks, createDeckForUser, db.insert_deck.
    simpl. rewrite filter_app. simpl.
    destruct (String.eqb_spec userId other) as [E|E]; [congruence|].
    apply app_nil_r.
  - unfold user_cards, createDeckForUser, db.insert_deck. simpl.
    apply filter_ext. intros c. unfold owned_card.
    rewrite existsb_app. simpl.
    destruct (String.eqb_spec userId other) as [E|E]; [congruence|].
    rewrite andb_false_r. simpl. apply orb_false_r.
Qed.

Lemma existsb_same {A : Type} (p q : A -> bool) (l : list A) :
  (forall x, p x = q x) -> existsb p l = existsb q l.
Proof.
  intros H. induction l as [|x r IH]; simpl; [reflexivity|].
  rewrite H, IH. reflexivity.
Qed.

Lemma existsb_of_map {A B : Type} (p : B -> bool) (f : A -> B) (l : list A) :
  existsb p (map f l) = existsb (fun x => p (f x)) l.
Proof. induction l as [|x r IH]; simpl; [reflexivity | rewrite IH; reflexivity]. Qed.

Lemma updateDeckForUser_isolated now deckId data :
  same_reads d (snd (updateDeckForUser now d deckId userId data)) other.
Proof.
  unfold updateDeckForUser.
  destruct (getDeckById d deckId userId) as [k|] eqn:G;
    [|apply same_reads_refl].
  apply reads_follow_views.
  - unfold getUserDecks, db.select_decks. simpl.
    rewrite filter_of_map.
    rewrite (filter_ext _ (fun x => (decksTable.userId x =? other)%string))
      by (intros x; rewrite update_keeps_deck_owner; reflexivity).
    rewrite <- (map_id (filter _ (decks d))) at 2.
    apply map_ext_in. intros x Hx. apply filter_In in Hx.
    destruct Hx as [Hx Hu]. apply String.eqb_eq in Hu.
    destruct (Z.eqb_spec (decksTable.id x) deckId) as [E|E]; [|reflexivity].
    exfalso. exact (foreign_deck_has_other_id deckId k G x Hx Hu E).
  - unfold user_cards. simpl. apply filter_ext. intros c.
    unfold owned_card. rewrite existsb_of_map.
    apply existsb_same. intros x.
    rewrite update_keeps_deck_id, update_keeps_deck_owner. reflexivity.
Qed.

Lemma owned_card_among_kept (q : decksTable.row -> bool) c :
  (forall x, In x (decks d) -> decksTable.userId x = other -> q x = true) ->
  owned_card (filter q (decks d)) other c = owned_card (decks d) other c.
Proof.
  intros H. unfold owned_card.
  destruct (existsb _ (decks d)) eqn:E.
  - apply existsb_exists in E. destruct E as [x [Hx Px]].
    apply existsb_exists. exists x. split; [|exact Px].
    apply filter_In. split; [exact Hx|]. apply H; [exact Hx|].
    apply andb_true_iff in Px. destruct Px as [_ Px].
    apply String.eqb_eq. exact Px.
  - destruct (existsb _ (filter q (decks d))) eqn:E'; [|reflexivity].
    apply existsb_exists in E'. destruct E' as [x [Hx Px]].
    apply filter_In in Hx. destruct Hx as [Hx _].
    assert (X : existsb (fun k => (cardsTable.deckId c =? decksTable.id k)
                                  && (decksTable.userId k =? other)%string)
                  (decks d) = true)
      by (apply existsb_exists; eauto).
    congruence.
Qed.

Lemma deleteDeckForUser_isolated deckId :
  same_reads d (snd (deleteDeckForUser d deckId userId)) other.
Proof.
  unfold deleteDeckForUser.
  destruct (getDeckById d deckId userId) as [k|] eqn:G;
    [|apply same_reads_refl].
  pose proof (getDeckById_Some _ _ _ _ G) as [Hk [Hid _]].
  assert (Kept : forall x, In x (decks d) -> decksTable.userId x = other ->
                           negb (decksTable.id x =? deckId) = true).
  { intros x Hx Hu. apply negb_true_iff. apply Z.eqb_neq.
    exact (foreign_deck_has_other_id deckId k G x Hx Hu). }
  apply reads_follow_views.
  - unfold getUserDecks, db.select_decks, db.delete_decks. simpl.
    apply filter_absorb. intros x Hx Hu. apply String.eqb_eq in Hu.
    apply Kept; assumption.
  - unfold user_cards, db.delete_decks. simpl.
    rewrite (filter_ext _ (owned_card (decks d) other))
      by (intros c; apply owned_card_among_kept; exact Kept).
    apply filter_absorb. intros c _ Ho.
    rewrite (references_removed_by_id d deckId k c Hk Hid).
    apply negb_true_iff. apply Z.eqb_neq.
    exact (foreign_card_in_other_deck deckId k G c Ho).
Qed.

Lemma createCardForDeck_isolated now deckId data :
  same_reads d (snd (createCardForDeck now d deckId userId data)) other.
Proof.
  unfold createCardForDeck.
  destruct (getDeckById d deckId userId) as [k|] eqn:G;
    [|apply same_reads_refl].
  apply reads_follow_views; [reflexivity|].
  unfold user_cards. simpl. rewrite filter_app. simpl.
  destruct (owned_card (decks d) other _) eqn:Ho; [|apply app_nil_r].
  exfalso. exact (foreign_card_in_other_deck deckId k G _ Ho eq_refl).
Qed.

Lemma updateCardForUser_isolated now cardId data :
  same_reads d (snd (updateCardForUser now d cardId userId data)) other.
Proof.
  unfold updateCardForUser.
  destruct (getCardById d cardId userId) as [c0|] eqn:G;
    [|apply same_reads_refl].
  apply reads_follow_views; [reflexivity|].
  unfold user_cards. simpl. rewrite filter_of_map.
  rewrite (filter_ext _ (owned_card (decks d) other))
    by (intros x; apply owned_card_by_deck; apply update_keeps_card_deck).
  rewrite <- (map_id (filter _ (cards d))) at 2.
  apply map_ext_in. intros x Hx. apply filter_In in Hx.
  destruct Hx as [Hx Ho].
  destruct (Z.eqb_spec (cardsTable.id x) cardId) as [E|E]; [|reflexivity].
  exfalso. exact (foreign_card_has_other_id cardId c0 G x Hx Ho E).
Qed.

Lemma deleteCardForUser_isolated cardId :
  same_reads d (snd (deleteCardForUser d cardId userId)) other.
Proof.
  unfold deleteCardForUser.
  destruct (getCardById d cardId userId) as [c0|] eqn:G;
    [|apply same_reads_refl].
  apply reads_follow_views; [reflexivity|].
  unfold user_cards, db.delete_cards. simpl.
  apply filter_absorb. intros x Hx Ho.
  apply negb_true_iff. apply Z.eqb_neq.
  exact (foreign_card_has_other_id cardId c0 G x Hx Ho).
Qed.

Lemma deleteAllCardsInDeck_isolated deckId :
  same_reads d (snd (deleteAllCardsInDeck d deckId userId)) other.
Proof.
  unfold deleteAllCardsInDeck.
  destruct (getDeckById d deckId userId) as [k|] eqn:G;
    [|apply same_reads_refl].
  apply reads_follow_views; [reflexivity|].
  unfold user_cards, db.delete_cards. simpl.
  apply filter_absorb. intros x _ Ho.
  apply negb_true_iff. apply Z.eqb_neq.
  exact (foreign_card_in_other_deck deckId k G x Ho).
Qed.

End Isolation.

(** X14. On a well-formed database, whatever one user writes through the
    query layer, every other user reads the same as before: the same list
    of decks and, for every id, the same deck, the same cards of a deck and
    the same card.  This holds for all seven writes, whether they succeed
    or throw. *)
Theorem writes_leave_other_users_reads_unchanged :
  forall (d : Database) (userId other : string),
    well_formed d ->
    other <> userId ->
    forall (now rowId : Z) (deckData : DeckFields) (cardData : CardFields),
      same_reads d (snd (createDeckForUser now d userId deckData)) other
      /\ same_reads d (snd (updateDeckForUser now d rowId userId deckData))
                    other
      /\ same_reads d (snd (deleteDeckForUser d rowId userId)) other
      /\ same_reads d (snd (createCardForDeck now d rowId userId cardData))
                    other
      /\ same_reads d (snd (updateCardForUser now d rowId userId cardData))
                    other
      /\ same_reads d (snd (deleteCardForUser d rowId userId)) other
      /\ same_reads d (snd (deleteAllCardsInDeck d rowId userId)) other.
Proof.
  intros d userId other W Hne now rowId deckData cardData.
  split; [apply createDeckForUser_isolated; assumption|].
  split; [apply updateDeckForUser_isolated; assumption|].
  split; [apply deleteDeckForUser_isolated; assumption|].
  split; [apply createCardForDeck_isolated; assumption|].
  split; [apply updateCardForUser_isolated; assumption|].
  split; [apply deleteCardForUser_isolated; assumption|].
  apply deleteAllCardsInDeck_isolated; assumption.
Qed.

Lemma writes_leave_other_users_reads_unchanged_witness :
  well_formed sample_database
  /\ "user_b" <> "user_a"
  /\ same_reads sample_database
                (snd (deleteDeckForUser sample_database 1 "user_a")) "user_b".
Proof.
  assert (N : "user_b" <> "user_a") by discriminate.
  split; [exact sample_database_well_formed|]. split; [exact N|].
  exact (proj1 (proj2 (proj2 (writes_leave_other_users_reads_unchanged
                                sample_database "user_a" "user_b"
                                sample_database_well_formed N
                                0 1 (mkDeckFields "" None)
                                (mkCardFields "" ""))))).
Defined.

(** * Further properties of the server actions *)

(** X15. For a caller who is not signed in, every server action answers
    with its "You must be logged in" message and leaves the world as it
    was: no query function is called, nothing is revalidated, and the
    generator is not consulted. *)
Theorem anonymous_callers_are_turned_away :
  forall (zod_message : BuiltinIssue -> string)
         (undefined_read_message : string -> string)
         (generateObject : GenerationRequest -> Completion (list CardFields))
         (now : Z) (a : Auth) (w : World),
    auth_userId a = None ->
    (forall input,
        createDeck now a input w
        = (Failure "You must be logged in to create decks" None, w))
    /\ (forall input,
           updateDeck zod_message now a input w
           = (Failure "You must be logged in to update decks" None, w))
    /\ (forall id,
           deleteDeck zod_message a id w
           = (Failure "You must be logged in to delete decks" None, w))
    /\ (forall input,
           createCard now a input w
           = (Failure "You must be logged in to create cards" None, w))
    /\ (forall input,
           updateCard undefined_read_message now a input w
           = (Failure "You must be logged in to update cards" None, w))
    /\ (forall id,
           deleteCard undefined_read_message a id w
           = (Failure "You must be logged in to delete cards" None, w))
    /\ (forall fault input,
           generateCardsWithAI zod_message generateObject fault now a input w
           = (Failure "You must be logged in to generate flashcards" None,
              w)).
Proof.
  intros zm um gen now a w Ha.
  unfold createDeck, updateDeck, deleteDeck, createCard, updateCard,
    deleteCard, generateCardsWithAI.
  rewrite Ha. repeat split.
Qed.

Lemma anonymous_callers_are_turned_away_witness :
  auth_userId (mkAuth None (fun _ => true)) = None
  /\ deleteDeck sample_zod_message (mkAuth None (fun _ => true)) 1
                sample_world
     = (Failure "You must be logged in to delete decks" None, sample_world).
Proof.
  split; [reflexivity|].
  exact (proj1 (proj2 (proj2 (anonymous_callers_are_turned_away
                                sample_zod_message node_undefined_read
                                careless_generator 0
                                (mkAuth None (fun _ => true)) sample_world
                                eq_refl))) 1).
Defined.

Lemma createDeck_at_the_limit now a userId input w :
  auth_userId a = Some userId ->
  has a "unlimited_decks" = false ->
  3 <= getUserDeckCount (database w) userId ->
  createDeck now a input w
  = (Failure limit_message None,
     mkWorld (database w) (queries w ++ [GetUserDeckCount]) (revalidated w)).
Proof.
  intros Ha Hf Hc. unfold createDeck, deck_limit_reached, try_catch.
  rewrite Ha, Hf. simpl. unfold bind, query_read, query, ret. simpl.
  apply Z.leb_le in Hc. rewrite Hc. reflexivity.
Qed.

Lemma createDeck_below_the_limit now a userId input w :
  auth_userId a = Some userId ->
  (has a "unlimited_decks" = true
   \/ getUserDeckCount (database w) userId < 3) ->
  createDeckSchema_issues input = [] ->
  createDeck now a input w
  = (Success (fst (createDeckForUser now (database w) userId
                     (mkDeckFields (create_deck_name input)
                                   (create_deck_description input)))),
     mkWorld
       (snd (createDeckForUser now (database w) userId
               (mkDeckFields (create_deck_name input)
                             (create_deck_description input))))
       (queries w
        ++ (if has a "unlimited_decks" then [] else [GetUserDeckCount])
        ++ [CreateDeckForUser])
       (revalidated w ++ [dashboard_path])).
Proof.
  intros Ha Hq Hv. unfold createDeck, deck_limit_reached, try_catch.
  rewrite Ha, Hv.
  destruct (has a "unlimited_decks") eqn:Hf; simpl.
  - reflexivity.
  - destruct Hq as [Hq|Hq]; [discriminate|].
    unfold bind, query_read, query, ret. simpl.
    apply Z.leb_gt in Hq. rewrite Hq. simpl.
    rewrite <- app_assoc. reflexivity.
Qed.

(** X16. [createDeck] for a signed-in caller.  A free user who owns three
    decks or more is refused with the limit message whatever the input, and
    the database is untouched.  Otherwise a valid input creates one deck
    with the given name and description, owned by the caller, returns it
    and revalidates the dashboard.  So a free user's deck count never passes
    three through this action, and the dashboard offers the create dialog
    exactly when the action's limit check would pass on the same
    database. *)
Theorem createDeck_enforces_the_deck_limit :
  forall (now : Z) (a : Auth) (userId : string) (input : CreateDeckInput)
         (w : World),
    auth_userId a = Some userId ->
    let out := createDeck now a input w in
    let count := getUserDeckCount (database w) userId in
    (has a "unlimited_decks" = false -> 3 <= count ->
     fst out = Failure limit_message None
     /\ database (snd out) = database w)
    /\ ((has a "unlimited_decks" = true \/ count < 3) ->
        createDeckSchema_issues input = [] ->
        fst out
        = Success (decksTable.mk (decks_identity (database w)) userId
                                 (create_deck_name input)
                                 (create_deck_description input) now now)
        /\ decks (database (snd out))
           = decks (database w)
             ++ [decksTable.mk (decks_identity (database w)) userId
                               (create_deck_name input)
                               (create_deck_description input) now now]
        /\ cards (database (snd out)) = cards (database w)
        /\ revalidated (snd out) = revalidated w ++ [dashboard_path])
    /\ (has a "unlimited_decks" = false -> count <= 3 ->
        getUserDeckCount (database (snd out)) userId <= 3)
    /\ (exists view,
           DashboardPage a (database w) = rendered view
           /\ dashboard_deckCount view = count
           /\ (dashboard_canCreateMore view = false
               <-> fst out = Failure limit_message None
                   /\ has a "unlimited_decks" = false /\ 3 <= count)).
Proof.
  intros now a userId input w Ha out count.
  assert (L : has a "unlimited_decks" = false -> 3 <= count ->
              out = (Failure limit_message None,
                     mkWorld (database w) (queries w ++ [GetUserDeckCount])
                             (revalidated w))).
  { intros Hf Hc. apply (createDeck_at_the_limit now a userId); assumption. }
  split; [|split; [|split]].
  - intros Hf Hc. rewrite (L Hf Hc). split; reflexivity.
  - intros Hq Hv. subst out.
    rewrite (createDeck_below_the_limit now a userId input w Ha Hq Hv).
    simpl. repeat split.
  - intros Hf Hc. destruct (Z.eq_dec count 3) as [E|E].
    + rewrite (L Hf); [simpl; fold count; lia | lia].
    + subst out. unfold createDeck, deck_limit_reached, try_catch.
      rewrite Ha, Hf. simpl. unfold bind, query_read, query, ret, lift. simpl.
      fold count. assert (Hlt : count < 3) by lia.
      apply Z.leb_gt in Hlt. rewrite Hlt. simpl.
      destruct (createDeckSchema_issues input) as [|m r]; simpl.
      * unfold query_total, query, revalidatePath, createDeckForUser,
          db.insert_deck. simpl.
        rewrite (getUserDeckCount_after_insert
                   (database w) userId _ (decks (database w)))
          by reflexivity.
        simpl. rewrite String.eqb_refl. fold count.
        apply Z.leb_gt in Hlt. lia.
      * fold count. lia.
  - unfold DashboardPage. rewrite Ha. eexists. split; [reflexivity|].
    simpl. split; [reflexivity|].
    fold (getUserDeckCount (database w) userId). fold count.
    unfold canCreateMore. split.
    + intros H. apply orb_false_iff in H. destruct H as [Hf Hc].
      apply Z.ltb_ge in Hc. rewrite (L Hf Hc). auto.
    + intros (_ & Hf & Hc). rewrite Hf. simpl. apply Z.ltb_ge. exact Hc.
Qed.

Lemma createDeck_enforces_the_deck_limit_witness :
  auth_userId free_user_c = Some "user_c"
  /\ database (snd (createDeck 200 free_user_c
                               (mkCreateDeckInput "Four" None)
                               (mkWorld full_database [] [])))
     = full_database.
Proof.
  split; [reflexivity|].
  refine (proj2 (proj1 (createDeck_enforces_the_deck_limit
                          200 free_user_c "user_c"
                          (mkCreateDeckInput "Four" None)
                          (mkWorld full_database [] []) eq_refl)
                       eq_refl _)).
  vm_compute. discriminate.
Defined.

(** X17. For a signed-in caller, valid input and an owned row, the actions
    [updateDeck], [deleteDeck], [createCard] and [updateCard] answer with
    success: they call their query function once, hand back the row it
    returned (nothing for a deletion), and revalidate the dashboard and,
    except for [deleteDeck], the page of the deck concerned. *)
Theorem owner_actions_succeed :
  forall (zod_message : BuiltinIssue -> string)
         (undefined_read_message : string -> string)
         (now : Z) (a : Auth) (userId : string) (w : World),
    auth_userId a = Some userId ->
    (forall input k,
        updateDeckSchema_issues zod_message input = [] ->
        getDeckById (database w) (update_deck_id input) userId = Some k ->
        exists updated,
          updateDeck zod_message now a input w
          = (Success (Some updated),
             mkWorld
               (snd (updateDeckForUser now (database w)
                       (update_deck_id input) userId
                       (mkDeckFields (update_deck_name input)
                                     (update_deck_description input))))
               (queries w ++ [UpdateDeckForUser])
               (revalidated w ++ [dashboard_path]
                              ++ [deck_path (update_deck_id input)]))
          /\ decksTable.id updated = update_deck_id input
          /\ decksTable.name updated = update_deck_name input)
    /\ (forall id k,
           deleteDeckSchema_issues zod_message id = [] ->
           getDeckById (database w) id userId = Some k ->
           deleteDeck zod_message a id w
           = (Success tt,
              mkWorld (snd (deleteDeckForUser (database w) id userId))
                      (queries w ++ [DeleteDeckForUser])
                      (revalidated w ++ [dashboard_path])))
    /\ (forall input k,
           createCardSchema_issues input = [] ->
           getDeckById (database w) (create_card_deckId input) userId
           = Some k ->
           createCard now a input w
           = (Success
                (Some (cardsTable.mk (cards_identity (database w))
                                     (create_card_deckId input)
                                     (create_card_front input)
                                     (create_card_back input) now now)),
              mkWorld
                (snd (createCardForDeck now (database w)
                        (create_card_deckId input) userId
                        (mkCardFields (create_card_front input)
                                      (create_card_back input))))
                (queries w ++ [CreateCardForDeck])
                (revalidated w ++ [dashboard_path]
                               ++ [deck_path (create_card_deckId input)])))
    /\ (forall input c,
           updateCardSchema_issues input = [] ->
           getCardById (database w) (update_card_id input) userId = Some c ->
           exists updated,
             updateCard undefined_read_message now a input w
             = (Success (Some updated),
                mkWorld
                  (snd (updateCardForUser now (database w)
                          (update_card_id input) userId
                          (mkCardFields (update_card_front input)
                                        (update_card_back input))))
                  (queries w ++ [UpdateCardForUser])
                  (revalidated w ++ [dashboard_path]
                                 ++ [deck_path (cardsTable.deckId updated)]))
             /\ cardsTable.id updated = update_card_id input
             /\ cardsTable.front updated = update_card_front input
             /\ cardsTable.back updated = update_card_back input).
Proof.
  intros zm um now a userId w Ha. split; [|split; [|split]].
  - intros input k Hv G.
    pose proof (updateDeckForUser_returns
                  now (database w) (update_deck_id input) userId
                  (mkDeckFields (update_deck_name input)
                                (update_deck_description input))) as R.
    unfold updateDeck, try_catch. rewrite Ha, Hv.
    unfold bind, lift, query, revalidatePath, ret. simpl.
    destruct (updateDeckForUser _ _ _ _ _) as [r d'] eqn:E. simpl in *.
    destruct r as [[u|]|e]; [|destruct R|destruct R as [_ R]; congruence].
    destruct R as [old (_ & Hid & ->)].
    exists (db.set_deck (update_deck_name input)
                        (update_deck_description input) now old).
    rewrite <- app_assoc. split; [reflexivity|].
    simpl. auto.
  - intros id k Hv G. unfold deleteDeck, try_catch. rewrite Ha, Hv.
    unfold bind, lift, query, revalidatePath, ret. simpl.
    rewrite (deleteDeckForUser_owned _ _ _ _ G). reflexivity.
  - intros input k Hv G. unfold createCard, try_catch. rewrite Ha, Hv.
    unfold bind, lift, query, revalidatePath, ret. simpl.
    unfold createCardForDeck. rewrite G. simpl.
    rewrite <- app_assoc. reflexivity.
  - intros input c Hv G.
    pose proof (updateCardForUser_returns
                  now (database w) (update_card_id input) userId
                  (mkCardFields (update_card_front input)
                                (update_card_back input))) as R.
    unfold updateCard, try_catch. rewrite Ha, Hv.
    unfold bind, lift, query, revalidatePath, ret, read_deckId. simpl.
    destruct (updateCardForUser _ _ _ _ _) as [r d'] eqn:E. simpl in *.
    destruct r as [[u|]|e]; [|destruct R|destruct R as [_ R]; congruence].
    destruct R as [old (_ & Hid & ->)].
    exists (db.set_card (update_card_front input) (update_card_back input)
                        now old).
    simpl. rewrite <- app_assoc. split; [reflexivity|]. auto.
Qed.

Lemma owner_actions_succeed_witness :
  auth_userId free_user_a = Some "user_a"
  /\ deleteDeck sample_zod_message free_user_a 1 sample_world
     = (Success tt,
        mkWorld (mkDatabase [deck_b] [card_3] 3 4) [DeleteDeckForUser]
                [dashboard_path]).
Proof.
  split; [reflexivity|].
  exact (proj1 (proj2 (owner_actions_succeed
                         sample_zod_message node_undefined_read 200
                         free_user_a "user_a" sample_world eq_refl))
               1 deck_a eq_refl eq_refl).
Defined.

(** X18. For a signed-in caller and valid input whose id fits the 32-bit
    [id] column, an action aimed at a deck or card the caller does not own,
    or that does not exist, answers with the query layer's
    not-found-or-unauthorized message: the database is untouched and
    nothing is revalidated. *)
Theorem actions_report_rows_not_owned :
  forall (zod_message : BuiltinIssue -> string)
         (undefined_read_message : string -> string)
         (now : Z) (a : Auth) (userId : string) (w : World),
    auth_userId a = Some userId ->
    (forall input,
        updateDeckSchema_issues zod_message input = [] ->
        int4 (update_deck_id input) = true ->
        getDeckById (database w) (update_deck_id input) userId = None ->
        updateDeck zod_message now a input w
        = (Failure "Deck not found or unauthorized" None,
           mkWorld (database w) (queries w ++ [UpdateDeckForUser])
                   (revalidated w)))
    /\ (forall id,
           deleteDeckSchema_issues zod_message id = [] ->
           int4 id = true ->
           getDeckById (database w) id userId = None ->
           deleteDeck zod_message a id w
           = (Failure "Deck not found or unauthorized" None,
              mkWorld (database w) (queries w ++ [DeleteDeckForUser])
                      (revalidated w)))
    /\ (forall input,
           createCardSchema_issues input = [] ->
           int4 (create_card_deckId input) = true ->
           getDeckById (database w) (create_card_deckId input) userId = None ->
           createCard now a input w
           = (Failure "Deck not found or unauthorized" None,
              mkWorld (database w) (queries w ++ [CreateCardForDeck])
                      (revalidated w)))
    /\ (forall input,
           updateCardSchema_issues input = [] ->
           int4 (update_card_id input) = true ->
           getCardById (database w) (update_card_id input) userId = None ->
           updateCard undefined_read_message now a input w
           = (Failure "Card not found or unauthorized" None,
              mkWorld (database w) (queries w ++ [UpdateCardForUser])
                      (revalidated w)))
    /\ (forall id,
           deleteCardSchema_issues id = [] ->
           int4 id = true ->
           getCardById (database w) id userId = None ->
           deleteCard undefined_read_message a id w
           = (Failure "Card not found or unauthorized" None,
              mkWorld (database w) (queries w ++ [DeleteCardForUser])
                      (revalidated w))).
Proof.
  intros zm um now a userId w Ha.
  split; [|split; [|split; [|split]]]; intros input Hv _ G.
  - unfold updateDeck, try_catch. rewrite Ha, Hv.
    unfold bind, lift, query. simpl.
    unfold updateDeckForUser. rewrite G. reflexivity.
  - unfold deleteDeck, try_catch. rewrite Ha, Hv.
    unfold bind, lift, query. simpl.
    unfold deleteDeckForUser. rewrite G. reflexivity.
  - unfold createCard, try_catch. rewrite Ha, Hv.
    unfold bind, lift, query. simpl.
    unfold createCardForDeck. rewrite G. reflexivity.
  - unfold updateCard, try_catch. rewrite Ha, Hv.
    unfold bind, lift, query. simpl.
    unfold updateCardForUser. rewrite G. reflexivity.
  - unfold deleteCard, try_catch. rewrite Ha, Hv.
    unfold bind, lift, query. simpl.
    unfold deleteCardForUser. rewrite G. reflexivity.
Qed.

Lemma actions_report_rows_not_owned_witness :
  auth_userId free_user_a = Some "user_a"
  /\ int4 2 = true
  /\ deleteDeck sample_zod_message free_user_a 2 sample_world
     = (Failure "Deck not found or unauthorized" None,
        mkWorld sample_database [DeleteDeckForUser] []).
Proof.
  split; [reflexivity|]. split; [reflexivity|].
  exact (proj1 (proj2 (actions_report_rows_not_owned
                         sample_zod_message node_undefined_read 200
                         free_user_a "user_a" sample_world eq_refl))
               2 eq_refl eq_refl eq_refl).
Defined.

(** X19. [generateCardsWithAI] stops before it writes.  For a signed-in
    caller: without the generation feature it answers with the premium
    notice and calls no query function; with the feature, invalid input is
    answered with the first issue, again without any query; a deck that is
    missing or not owned gives the not-found message; a deck without a
    usable description gives the description notice; and an [Error] thrown
    by the generator is answered with its mapped message.  In the last three
    cases only [getDeckById] has run, and in all five the database is as it
    was.  The not-found answer is that of a deck id that fits the 32-bit
    [id] column. *)
Theorem generation_stops_before_writing :
  forall (zod_message : BuiltinIssue -> string)
         (generateObject : GenerationRequest -> Completion (list CardFields))
         (fault : StoreFault)
         (now : Z) (a : Auth) (userId : string) (input : GenerateCardsInput)
         (w : World),
    auth_userId a = Some userId ->
    let run := generateCardsWithAI zod_message generateObject fault now a
                                   input w in
    let looked_up := mkWorld (database w) (queries w ++ [GetDeckById])
                             (revalidated w) in
    (has a "ai_flashcard_generation" = false ->
     run = (Failure
              "AI flashcard generation is only available for Pro subscribers."
              (Some "isPremiumFeature"), w))
    /\ (has a "ai_flashcard_generation" = true ->
        (generateCardsSchema_issues zod_message input <> [] ->
         run = (Failure
                  (first_issue (generateCardsSchema_issues zod_message input))
                  None, w))
        /\ (generateCardsSchema_issues zod_message input = [] ->
            (int4 (generate_deckId input) = true ->
             getDeckById (database w) (generate_deckId input) userId = None ->
             run = (Failure "Deck not found or unauthorized" None, looked_up))
            /\ (forall k,
                   getDeckById (database w) (generate_deckId input) userId
                   = Some k ->
                   (missing_description k = true ->
                    run = (Failure description_needed
                                   (Some "needsDescription"), looked_up))
                   /\ (missing_description k = false ->
                       forall m,
                         generateObject
                           (mkGenerationRequest
                              (match generate_count input with
                               | Some n => n
                               | None => 20
                               end)
                              (topic_of k)) = Throw (Error m) ->
                         run = (Failure (generation_error m) None,
                                looked_up))))).
Proof.
  intros zm gen fault now a userId input w Ha run looked_up.
  subst run looked_up.
  unfold generateCardsWithAI, try_catch_generation. rewrite Ha.
  split.
  - intros Hf. rewrite Hf. reflexivity.
  - intros Hf. rewrite Hf. simpl. unfold generateCardsSchema_parse. split.
    + intros Hv. unfold bind, lift. rewrite (parse_rejects _ _ Hv).
      reflexivity.
    + intros Hv. rewrite Hv.
      unfold bind, lift, query_read, query, ret. simpl. split.
      * intros _ G. rewrite G. reflexivity.
      * intros k G. rewrite G. split.
        -- intros Hd. rewrite Hd. reflexivity.
        -- intros Hd m Hg. rewrite Hd, Hg. reflexivity.
Qed.

Lemma generation_stops_before_writing_witness :
  auth_userId free_user_a = Some "user_a"
  /\ generateCardsWithAI sample_zod_message careless_generator no_fault 200
       free_user_a (mkGenerateCardsInput 1 None) sample_world
     = (Failure
          "AI flashcard generation is only available for Pro subscribers."
          (Some "isPremiumFeature"), sample_world).
Proof.
  split; [reflexivity|].
  exact (proj1 (generation_stops_before_writing
                  sample_zod_message careless_generator no_fault 200
                  free_user_a
                  "user_a" (mkGenerateCardsInput 1 None) sample_world eq_refl)
               eq_refl).
Defined.

(** ** The messages for generator failures *)

Lemma prefix_iff_starts (t s : string) :
  String.prefix t s = true <-> exists b, s = (t ++ b)%string.
Proof.
  revert s. induction t as [|x t IH]; intros s.
  - split; [intros _; exists s; reflexivity | intros _; destruct s; reflexivity].
  - destruct s as [|y s]; simpl.
    + split; [discriminate | intros [b H]; discriminate].
    + destruct (ascii_dec x y) as [->|N].
      * rewrite IH. split; intros [b H]; exists b; [rewrite H|]; congruence.
      * split; [discriminate | intros [b H]; congruence].
Qed.

Lemma includes_unfold (s t : string) :
  includes s t
  = if String.prefix t s then true
    else match s with
         | EmptyString => false
         | String _ r => includes r t
         end.
Proof. destruct s; reflexivity. Qed.

Lemma includes_iff_substring (s t : string) :
  includes s t = true <-> exists a b, s = (a ++ t ++ b)%string.
Proof.
  induction s as [|y s IH]; rewrite includes_unfold.
  - destruct (String.prefix t "") eqn:P.
    + split; [|reflexivity]. intros _. apply prefix_iff_starts in P.
      destruct P as [b P]. exists "", b. exact P.
    + split; [discriminate|]. intros [a [b H]].
      destruct a; [|discriminate]. simpl in H.
      assert (X : String.prefix t "" = true)
        by (apply prefix_iff_starts; exists b; exact H).
      congruence.
  - destruct (String.prefix t (String y s)) eqn:P.
    + split; [|reflexivity]. intros _. apply prefix_iff_starts in P.
      destruct P as [b P]. exists "", b. exact P.
    + rewrite IH. split.
      * intros [a [b H]]. exists (String y a), b. simpl. congruence.
      * intros [a [b H]]. destruct a as [|z a].
        -- simpl in H.
           assert (X : String.prefix t (String y s) = true)
             by (apply prefix_iff_starts; exists b; exact H).
           congruence.
        -- simpl in H. injection H as _ H. exists a, b. exact H.
Qed.

(** X20. How [generateCardsWithAI] words a generator failure: a message
    that contains "rate limit" becomes the busy notice; otherwise one that
    contains "api key" or "API key" becomes the configuration notice;
    otherwise the message is passed on as it is, or replaced by the general
    notice when it is empty.  The wording shown is never empty. *)
Theorem generation_error_wording :
  forall (m : string),
    let contains t := exists a b, m = (a ++ t ++ b)%string in
    (contains "rate limit" ->
     generation_error m
     = "AI service is temporarily busy. Please try again in a moment.")
    /\ (~ contains "rate limit" ->
        (contains "api key" \/ contains "API key") ->
        generation_error m
        = "AI service configuration error. Please contact support.")
    /\ (~ contains "rate limit" -> ~ contains "api key" ->
        ~ contains "API key" ->
        generation_error m
        = if (String.length m =? 0)%nat
          then "Failed to generate flashcards. Please try again."
          else m)
    /\ generation_error m <> "".
Proof.
  intros m contains. unfold generation_error.
  destruct (includes m "rate limit") eqn:R;
    destruct (includes m "api key") eqn:K1;
    destruct (includes m "API key") eqn:K2; simpl;
    repeat match goal with
           | H : includes _ _ = true |- _ =>
               apply includes_iff_substring in H
           | H : includes m ?t = false |- _ =>
               assert (~ contains t)
                 by (intros X; apply includes_iff_substring in X; congruence);
               clear H
           end;
    (split; [|split; [|split]]);
    try (intros; reflexivity);
    try (intros; tauto);
    try discriminate.
  destruct m; simpl; discriminate.
Qed.

(** ** What the schemas accept *)

Lemma optional_description_issues (o : option string) :
  issues createDeckSchema_description o
  = match o with
    | Some t => if (1000 <? String.length t)%nat
                then ["Description is too long"] else []
    | None => []
    end.
Proof.
  unfold issues, createDeckSchema_description, z.optional, z.max, z.string.
  simpl. destruct o as [t|]; [|reflexivity].
  destruct (1000 <? String.length t)%nat; reflexivity.
Qed.

Lemma app_nil_both {A : Type} (l r : list A) :
  l ++ r = [] <-> l = [] /\ r = [].
Proof.
  split.
  - intros H. apply app_eq_nil in H. exact H.
  - intros [-> ->]. reflexivity.
Qed.

Lemma positive_accepts (message : string) (n : Z) :
  issues (z.positive message z.number) n = [] <-> 0 < n.
Proof.
  rewrite positive_issues. destruct (Z.ltb_spec 0 n); split; intros;
    try reflexivity; try discriminate; lia.
Qed.

(** X21. What the input schemas accept.  A deck input passes exactly when
    the name has 1 to 255 characters and the description, when present, has
    at most 1000.  A card input passes exactly when its deck or card id is
    positive and each side has 1 to 1000 characters.  For a deck input the
    message reported first is the one about the name whenever the name is
    wrong. *)
Theorem schemas_accept_exactly :
  (forall input : CreateDeckInput,
      createDeckSchema_issues input = []
      <-> (1 <= String.length (create_deck_name input) <= 255)%nat
          /\ match create_deck_description input with
             | Some t => (String.length t <= 1000)%nat
             | None => True
             end)
  /\ (forall input : CreateCardInput,
         createCardSchema_issues input = []
         <-> 0 < create_card_deckId input
             /\ (1 <= String.length (create_card_front input) <= 1000)%nat
             /\ (1 <= String.length (create_card_back input) <= 1000)%nat)
  /\ (forall input : UpdateCardInput,
         updateCardSchema_issues input = []
         <-> 0 < update_card_id input
             /\ (1 <= String.length (update_card_front input) <= 1000)%nat
             /\ (1 <= String.length (update_card_back input) <= 1000)%nat)
  /\ (forall input : CreateDeckInput,
         (String.length (create_deck_name input) = 0%nat ->
          first_issue (createDeckSchema_issues input)
          = "Deck name is required")
         /\ ((255 < String.length (create_deck_name input))%nat ->
             first_issue (createDeckSchema_issues input)
             = "Deck name is too long")).
Proof.
  split; [|split; [|split]].
  - intros input. unfold createDeckSchema_issues.
    rewrite app_nil_both, createDeckSchema_name_accepts,
      optional_description_issues.
    destruct (create_deck_description input) as [t|]; [|tauto].
    destruct (Nat.ltb_spec 1000 (String.length t)); split;
      intros [H1 H2]; split; auto; try discriminate; lia.
  - intros input. unfold createCardSchema_issues.
    rewrite !app_nil_both, positive_accepts, createCardSchema_front_accepts,
      createCardSchema_back_accepts. tauto.
  - intros input. unfold updateCardSchema_issues.
    rewrite !app_nil_both, positive_accepts, createCardSchema_front_accepts,
      createCardSchema_back_accepts. tauto.
  - intros input. unfold createDeckSchema_issues, createDeckSchema_name.
    rewrite string_issues. split; intros H.
    + rewrite H. reflexivity.
    + destruct (Nat.ltb_spec (String.length (create_deck_name input)) 1);
        [lia|].
      apply Nat.ltb_lt in H. rewrite H. reflexivity.
Qed.

(** * Further properties of the pages and the generate button *)

(** X22. The study page starts a session exactly when the caller is signed
    in, the route names a deck the caller owns, and that deck has at least
    one card; the session then gets the deck's name and the list
    [getDeckCards] returns, which is not empty and holds only cards of that
    deck.  A caller who is not signed in is redirected, and a route that is
    not a number, or is a number that fits the 32-bit [id] column and names
    no owned deck, ends in [notFound]. *)
Theorem StudyPage_starts_only_nonempty_owned_sessions :
  forall (a : Auth) (route : option Z) (d : Database),
    (forall cards deckId deckName,
        StudyPage a route d = rendered (study_session cards deckId deckName)
        <-> exists userId k,
              auth_userId a = Some userId
              /\ route = Some deckId
              /\ getDeckById d deckId userId = Some k
              /\ deckName = decksTable.name k
              /\ getDeckCards d deckId userId = Some cards
              /\ cards <> [])
    /\ (forall cards deckId deckName,
           StudyPage a route d
           = rendered (study_session cards deckId deckName) ->
           forall c, In c cards -> cardsTable.deckId c = deckId)
    /\ (auth_userId a = None -> StudyPage a route d = redirect_home)
    /\ (forall userId,
           auth_userId a = Some userId ->
           (route = None
            \/ exists deckId, route = Some deckId
                              /\ int4 deckId = true
                              /\ getDeckById d deckId userId = None) ->
           StudyPage a route d = notFound).
Proof.
  intros a route d.
  assert (Iff : forall cards deckId deckName,
             StudyPage a route d
             = rendered (study_session cards deckId deckName)
             <-> exists userId k,
                   auth_userId a = Some userId
                   /\ route = Some deckId
                   /\ getDeckById d deckId userId = Some k
                   /\ deckName = decksTable.name k
                   /\ getDeckCards d deckId userId = Some cards
                   /\ cards <> []).
  { intros cards deckId deckName. unfold StudyPage. split.
    - destruct (auth_userId a) as [u|]; [|discriminate].
      destruct route as [i|]; [|discriminate].
      destruct (getDeckById d i u) as [k|] eqn:G; [|discriminate].
      destruct (getDeckCards d i u) as [[|c r]|] eqn:C; try discriminate.
      intros H. injection H as <- <- <-.
      exists u, k. repeat split; auto. discriminate.
    - intros [u [k (Ha & -> & G & -> & C & Hne)]].
      rewrite Ha, G, C. destruct cards; [congruence | reflexivity]. }
  split; [exact Iff|]. split; [|split].
  - intros cards deckId deckName H c Hc.
    apply Iff in H. destruct H as [u [k (_ & _ & G & _ & C & _)]].
    destruct (getDeckCards_of_owned_deck d deckId u k G) as [l (E & P & _)].
    rewrite C in E. injection E as <-.
    apply (Permutation_in _ (Permutation_sym P)) in Hc.
    apply filter_In in Hc. apply Z.eqb_eq. tauto.
  - intros Ha. unfold StudyPage. rewrite Ha. reflexivity.
  - intros u Ha [->|[i [-> [_ G]]]]; unfold StudyPage; rewrite Ha;
      [reflexivity|]. rewrite G. reflexivity.
Qed.

Lemma hasDescription_is_not_missing k :
  hasDescription k = negb (missing_description k).
Proof.
  unfold hasDescription, missing_description.
  destruct (decksTable.description k) as [t|]; [|reflexivity].
  rewrite negb_orb. reflexivity.
Qed.

(** X23. What the deck page shows.  It renders only for a signed-in caller
    on a route naming a deck the caller owns, and then shows that deck, the
    list [getDeckCards] returns for it (a list, never [null]), with a card
    count equal to the length of that list and to the count
    [getUserDecksWithCardCount] computes for the deck.  The two props it
    gives the generate button are the caller's generation feature and the
    negation of the server's missing-description test. *)
Theorem DeckPage_shows_an_owned_deck :
  forall (a : Auth) (route : option Z) (d : Database) (view : DeckView),
    DeckPage a route d = rendered view ->
    exists userId deckId l,
      auth_userId a = Some userId
      /\ route = Some deckId
      /\ getDeckById d deckId userId = Some (view_deck view)
      /\ view_cards view = Some l
      /\ getDeckCards d deckId userId = Some l
      /\ view_cardCount view = Z.of_nat (List.length l)
      /\ view_cardCount view = cardCount d (view_deck view)
      /\ view_hasAIFeature view = has a "ai_flashcard_generation"
      /\ view_hasDescription view
         = negb (missing_description (view_deck view)).
Proof.
  intros a route d view. unfold DeckPage.
  destruct (auth_userId a) as [u|]; [|discriminate].
  destruct route as [i|]; [|discriminate].
  destruct (getDeckById d i u) as [k|] eqn:G; [|discriminate].
  destruct (getDeckCards_of_owned_deck d i u k G) as [l (E & P & _)].
  rewrite E. intros H. injection H as <-. simpl.
  exists u, i, l. repeat split; auto.
  - rewrite cardCount_is_deck_size, <- (Permutation_length P).
    apply getDeckById_Some in G. destruct G as [_ [-> _]]. reflexivity.
  - apply hasDescription_is_not_missing.
Qed.

Lemma DeckPage_shows_an_owned_deck_witness :
  DeckPage pro_user_a (Some 1) sample_database
  = rendered (mkDeckView deck_a (Some [card_2; card_1]) 2 true true)
  /\ exists userId deckId l,
       auth_userId pro_user_a = Some userId
       /\ Some 1 = Some deckId
       /\ getDeckById sample_database deckId userId = Some deck_a
       /\ Some [card_2; card_1] = Some l.
Proof.
  split; [reflexivity|].
  destruct (DeckPage_shows_an_owned_deck
              pro_user_a (Some 1) sample_database
              (mkDeckView deck_a (Some [card_2; card_1]) 2 true true) eq_refl)
    as [u [i [l (H1 & H2 & H3 & H4 & _)]]].
  exists u, i, l. auto.
Defined.

Lemma DeckPage_shows_an_owned_deck_parts a deckId d view :
  DeckPage a (Some deckId) d = rendered view ->
  exists userId,
    auth_userId a = Some userId
    /\ getDeckById d deckId userId = Some (view_deck view)
    /\ view_hasAIFeature view = has a "ai_flashcard_generation"
    /\ view_hasDescription view
       = negb (missing_description (view_deck view)).
Proof.
  unfold DeckPage.
  destruct (auth_userId a) as [u|]; [|discriminate].
  destruct (getDeckById d deckId u) as [k|] eqn:G; [|discriminate].
  intros H. injection H as <-. simpl.
  exists u. repeat split; auto. apply hasDescription_is_not_missing.
Qed.

Lemma generate_twenty_is_valid zod_message deckId :
  0 < deckId ->
  generateCardsSchema_issues zod_message
    (mkGenerateCardsInput deckId (Some 20)) = [].
Proof.
  intros H. unfold generateCardsSchema_issues, id_schema.
  cbn [generate_deckId generate_count].
  rewrite positive_issues. apply Z.ltb_lt in H. rewrite H. reflexivity.
Qed.

(** X24. The generate button and the server agree.  Fed with the props the
    deck page computed from the same session and database, [handleGenerate]
    sends a free user to the pricing page and tells a user whose deck has no
    usable description to add one, in both cases without calling the server;
    otherwise it calls [generateCardsWithAI] for 20 cards, and the answer is
    then never the premium notice nor the description notice: the button
    shows either the number of generated cards or one plain error. *)
Theorem generate_button_agrees_with_the_action :
  forall (zod_message : BuiltinIssue -> string)
         (generateObject : GenerationRequest -> Completion (list CardFields))
         (fault : StoreFault)
         (now : Z) (a : Auth) (deckId : Z) (w : World) (view : DeckView),
    DeckPage a (Some deckId) (database w) = rendered view ->
    0 < deckId ->
    let out := handleGenerate
                 (generateCardsWithAI zod_message generateObject fault now a)
                 deckId (view_hasAIFeature view) (view_hasDescription view) w
    in
    (view_hasAIFeature view = false -> out = ([push_pricing], w))
    /\ (view_hasAIFeature view = true ->
        view_hasDescription view = false ->
        out = ([toast_error description_needed], w))
    /\ (view_hasAIFeature view = true ->
        view_hasDescription view = true ->
        (exists count, fst out = [toast_generated count])
        \/ (exists message, fst out = [toast_error message]
                            /\ database (snd out) = database w)).
Proof.
  intros zm gen fault now a deckId w view Hpage Hpos out.
  destruct (DeckPage_shows_an_owned_deck_parts a deckId (database w) view Hpage)
    as [u (Ha & G & Hf & Hd)].
  subst out. unfold handleGenerate. split; [|split].
  - intros H. rewrite H. reflexivity.
  - intros H1 H2. rewrite H1, H2. reflexivity.
  - intros H1 H2. rewrite H1, H2. simpl.
    rewrite Hf in H1. rewrite Hd in H2. apply negb_true_iff in H2.
    unfold generateCardsWithAI, try_catch_generation.
    rewrite Ha, H1. simpl. unfold generateCardsSchema_parse.
    rewrite (generate_twenty_is_valid zm deckId Hpos).
    unfold bind, lift, query_read, query, ret, revalidatePath. simpl.
    rewrite G, H2.
    destruct (gen _) as [output|[found|m]]; simpl.
    + destruct (createCardsForDeck fault now (database w) deckId u output)
        as [[rows|[found|m]] d'] eqn:C; simpl.
      * left. eauto.
      * right. eexists. split; [reflexivity|]. simpl.
        exact (createCardsForDeck_keeps_on_throw _ _ _ _ _ _ _ _ C).
      * right. eexists. split; [reflexivity|]. simpl.
        exact (createCardsForDeck_keeps_on_throw _ _ _ _ _ _ _ _ C).
    + right. eexists. split; reflexivity.
    + right. eexists. split; reflexivity.
Qed.

Lemma generate_button_agrees_with_the_action_witness :
  DeckPage free_user_a (Some 1) (database sample_world)
  = rendered (mkDeckView deck_a (Some [card_2; card_1]) 2 false true)
  /\ 0 < 1
  /\ handleGenerate
       (generateCardsWithAI sample_zod_message careless_generator no_fault
                            200 free_user_a)
       1 false true sample_world
     = ([push_pricing], sample_world).
Proof.
  split; [reflexivity|]. split; [reflexivity|].
  exact (proj1 (generate_button_agrees_with_the_action
                  sample_zod_message careless_generator no_fault 200
                  free_user_a 1
                  sample_world
                  (mkDeckView deck_a (Some [card_2; card_1]) 2 false true)
                  eq_refl eq_refl)
               eq_refl).
Defined.

(** * Further properties of the study session *)

Lemma effect_isShuffled before after :
  isShuffled (effect before after) = isShuffled after.
Proof.
  unfold effect.
  destruct (currentIndex after =? currentIndex before); reflexivity.
Qed.

Lemma effect_size before after : size (effect before after) = size after.
Proof. unfold size. rewrite effect_studyCards. reflexivity. Qed.

Lemma effect_same_index before after :
  currentIndex after = currentIndex before -> effect before after = after.
Proof. unfold effect. intros ->. rewrite Z.eqb_refl. reflexivity. Qed.

Lemma effect_moved before after :
  currentIndex after <> currentIndex before ->
  isFlipped (effect before after) = false.
Proof.
  unfold effect. intros H. apply Z.eqb_neq in H. rewrite H. reflexivity.
Qed.

(** X25. Over a snapshot that is not empty, the session never leaves the
    deck: in every state it reaches, [currentIndex] is a valid index of
    [studyCards], so [currentCard] is defined, and the card shown is one of
    the snapshot. *)
Theorem session_always_shows_a_card :
  forall (cards : list CardData) (h : list Event) (s : State),
    history cards h s ->
    cards <> [] ->
    0 <= currentIndex s < size s
    /\ exists c, currentCard s = Some c /\ In c cards.
Proof.
  intros cards h s H Hne.
  pose proof (history_index cards h s H) as I.
  apply history_invariant in H. destruct H as (P & _).
  assert (L : size s = Z.of_nat (List.length cards)).
  { unfold size. rewrite (Permutation_length P). reflexivity. }
  assert (R : 0 <= currentIndex s < size s).
  { rewrite I, L. apply index_after_in_range.
    destruct cards; [congruence | simpl; lia]. }
  split; [exact R|]. unfold currentCard.
  destruct (Z.ltb_spec (currentIndex s) 0) as [N|_]; [lia|].
  destruct (nth_error (studyCards s) (Z.to_nat (currentIndex s)))
    as [c|] eqn:E.
  - exists c. split; [reflexivity|].
    apply (Permutation_in _ (Permutation_sym P)).
    eapply nth_error_In. exact E.
  - exfalso. apply nth_error_None in E. unfold size in R. lia.
Qed.

Lemma session_always_shows_a_card_witness :
  history two_cards [markCorrect; flip]
          (handleCorrect (handleFlip (initial two_cards)))
  /\ two_cards <> []
  /\ 0 <= currentIndex (handleCorrect (handleFlip (initial two_cards))) < 2.
Proof.
  assert (H : history two_cards [markCorrect; flip]
                      (handleCorrect (handleFlip (initial two_cards)))).
  { eapply history_step; [eapply history_step; [apply history_start|]|];
      constructor. }
  assert (N : two_cards <> []) by discriminate.
  split; [exact H|]. split; [exact N|].
  exact (proj1 (session_always_shows_a_card _ _ _ H N)).
Defined.

Lemma handleRestart_is_initial cards s : handleRestart cards s = initial cards.
Proof.
  unfold handleRestart, effect, initial.
  cbn [currentIndex studyCards isShuffled correctCount incorrectCount].
  destruct (0 =? currentIndex s); reflexivity.
Qed.

(** X26. The "shuffled" marker tells the truth about the order: in every
    state the session reaches, when [isShuffled] is [false] the cards on the
    table are in the snapshot's order.  A shuffle sets the marker, and a
    restart from any state gives exactly the initial state. *)
Theorem unshuffled_sessions_keep_the_original_order :
  forall (cards : list CardData) (h : list Event) (s : State),
    history cards h s ->
    (isShuffled s = false -> studyCards s = cards)
    /\ (forall s', step cards s shuffle s' -> isShuffled s' = true)
    /\ (forall s', step cards s restart s' -> s' = initial cards).
Proof.
  intros cards h s H. split; [|split].
  - induction H as [|h s e s' Hh IH Hstep]; [reflexivity|].
    destruct Hstep;
      unfold handleFlip, handleNext, handlePrevious, handleShuffle,
        handleRestart, handleCorrect, handleIncorrect;
      try (destruct (currentIndex s <? size s - 1));
      try (destruct (0 <? currentIndex s));
      rewrite effect_isShuffled, effect_studyCards; simpl;
      try exact IH; try discriminate; reflexivity.
  - intros s' Hs. inversion Hs; subst.
    unfold handleShuffle. rewrite effect_isShuffled. reflexivity.
  - intros s' Hs. inversion Hs; subst. apply handleRestart_is_initial.
Qed.

Lemma unshuffled_sessions_keep_the_original_order_witness :
  history two_cards [restart; shuffle]
          (handleRestart two_cards
             (handleShuffle [card_2; card_1] (initial two_cards)))
  /\ studyCards (handleRestart two_cards
                   (handleShuffle [card_2; card_1] (initial two_cards)))
     = two_cards.
Proof.
  assert (H : history two_cards [restart; shuffle]
                (handleRestart two_cards
                   (handleShuffle [card_2; card_1] (initial two_cards)))).
  { eapply history_step; [eapply history_step; [apply history_start|]|].
    - constructor. apply perm_swap.
    - constructor. }
  split; [exact H|].
  exact (proj1 (unshuffled_sessions_keep_the_original_order _ _ _ H)
               eq_refl).
Defined.

(** X27. Every step that moves to another index shows the new card front
    up.  A mark that cannot move on, because the session is at the last
    card, leaves the card as it is; so once the completion box is shown, a
    mark or [next] keeps it shown at the same index, and the mark is still
    counted. *)
Theorem moving_turns_the_card_front_up :
  forall (cards : list CardData) (s s' : State) (e : Event),
    step cards s e s' ->
    (currentIndex s' <> currentIndex s -> isFlipped s' = false)
    /\ (completion_shown s = true ->
        (e = next \/ e = markCorrect \/ e = markIncorrect) ->
        completion_shown s' = true
        /\ currentIndex s' = currentIndex s
        /\ correctCount s' + incorrectCount s'
           = correctCount s + incorrectCount s
             + (if match e with next => true | _ => false end then 0 else 1)).
Proof.
  intros cards s s' e Hstep. split.
  - intros Hmove.
    destruct Hstep;
      unfold handleFlip, handleNext, handlePrevious, handleShuffle,
        handleRestart, handleCorrect, handleIncorrect in *;
      try (apply effect_moved; rewrite effect_currentIndex in Hmove;
           exact Hmove);
      try (apply effect_keeps_front_up; reflexivity).
  - intros Hc He. unfold completion_shown in Hc.
    apply andb_true_iff in Hc. destruct Hc as [Hi Hf].
    apply Z.eqb_eq in Hi.
    assert (Hlast : (currentIndex s <? size s - 1) = false)
      by (apply Z.ltb_ge; lia).
    destruct Hstep; destruct He as [He|[He|He]]; try discriminate;
      unfold handleNext, handleCorrect, handleIncorrect;
      rewrite Hlast; rewrite effect_same_index by reflexivity;
      unfold completion_shown, size; simpl; fold (size s);
      rewrite Hi, Z.eqb_refl, Hf; repeat split; lia.
Qed.

Lemma moving_turns_the_card_front_up_witness :
  step two_cards (handleFlip (initial two_cards)) markCorrect
       (handleCorrect (handleFlip (initial two_cards)))
  /\ isFlipped (handleCorrect (handleFlip (initial two_cards))) = false.
Proof.
  assert (H : step two_cards (handleFlip (initial two_cards)) markCorrect
                   (handleCorrect (handleFlip (initial two_cards))))
    by constructor.
  split; [exact H|].
  refine (proj1 (moving_turns_the_card_front_up _ _ _ _ H) _).
  vm_compute. discriminate.
Defined.

(** X28. Navigation is clamped and loses nothing.  At a valid index,
    [handleNext] moves to the next index but not past the last one,
    [handlePrevious] to the previous index but not below 0; both keep the
    cards and the counters; going on and back returns to the same index
    when there was a next card; and flipping twice gives back the same
    state. *)
Theorem navigation_is_clamped :
  forall (s : State),
    0 <= currentIndex s < size s ->
    currentIndex (handleNext s) = Z.min (currentIndex s + 1) (size s - 1)
    /\ currentIndex (handlePrevious s) = Z.max (currentIndex s - 1) 0
    /\ studyCards (handleNext s) = studyCards s
    /\ studyCards (handlePrevious s) = studyCards s
    /\ correctCount (handleNext s) = correctCount s
    /\ incorrectCount (handleNext s) = incorrectCount s
    /\ correctCount (handlePrevious s) = correctCount s
    /\ incorrectCount (handlePrevious s) = incorrectCount s
    /\ (currentIndex s < size s - 1 ->
        currentIndex (handlePrevious (handleNext s)) = currentIndex s)
    /\ handleFlip (handleFlip s) = s.
Proof.
  intros s R.
  assert (N : currentIndex (handleNext s)
              = Z.min (currentIndex s + 1) (size s - 1)).
  { unfold handleNext. rewrite effect_currentIndex.
    destruct (Z.ltb_spec (currentIndex s) (size s - 1)); simpl; lia. }
  assert (Sz : size (handleNext s) = size s).
  { unfold handleNext. rewrite effect_size.
    destruct (currentIndex s <? size s - 1); reflexivity. }
  split; [exact N|]. split.
  { unfold handlePrevious. rewrite effect_currentIndex.
    destruct (Z.ltb_spec 0 (currentIndex s)); simpl; lia. }
  unfold handleNext, handlePrevious.
  repeat split;
    try (effect_fields;
         try (destruct (currentIndex s <? size s - 1));
         try (destruct (0 <? currentIndex s)); reflexivity).
  - intros Hlt. fold (handleNext s). set (t := handleNext s) in *.
    rewrite effect_currentIndex.
    destruct (Z.ltb_spec 0 (currentIndex t)); simpl; lia.
  - unfold handleFlip. rewrite !effect_same_index by reflexivity.
    simpl. rewrite negb_involutive. destruct s; reflexivity.
Qed.

Lemma navigation_is_clamped_witness :
  0 <= currentIndex (initial two_cards) < size (initial two_cards)
  /\ currentIndex (handleNext (handleNext (initial two_cards))) = 1.
Proof.
  assert (R : 0 <= currentIndex (handleNext (initial two_cards))
              < size (handleNext (initial two_cards)))
    by (vm_compute; split; [discriminate | reflexivity]).
  split; [vm_compute; split; [discriminate | reflexivity]|].
  exact (proj1 (navigation_is_clamped (handleNext (initial two_cards)) R)).
Defined.
